(** * Gesture decision pipeline: threshold, resolver, debouncer, sequences

    Shallow embedding of the gesture pipeline of
    [src/utils/aiEnhancement.js] ([detectGesture],
    [calculateGestureStability], [checkGestureSequence],
    [processAmbiguousGesture]) and of the duplicate implementation
    [BackgroundGestureService.detectGesture] in
    [public/audio-processors.js].

    Further modules cover the code around the pipeline: the polling loop
    of the background service ([detectOnce] and its own
    [checkGestureSequence]), the usage statistics
    ([saveGestureStatistics]), the correction examples ([loadContext],
    [saveContext], [addContextExample]), the phone actions
    ([executeAction], [getAvailableActions], [gestureToAction]), the
    voice authentication ([calculateVoiceSimilarity],
    [authenticateVoice]) and the voice activity detector
    ([detectSpeech], [updateNoiseEstimate] and the hang-over counters of
    [processFrame]).

    Modelling conventions.
    - JavaScript numbers that carry scores, thresholds and coordinates are
      idealised as real numbers ([R]); [Date.now()] timestamps are
      integers ([Z]). The program rounds every operation to a double, so
      a sum, a square root or a quotient can differ from the real value
      in its last digits: the properties proved about such values are
      bounds and comparisons that rounding keeps, never the exact value
      of a rounded quotient.
    - Module-level [let] variables become the fields of [State], threaded
      explicitly through every call.
    - The pose model and the template scorer are external: a frame carries
      the hands seen by [handposeModel.estimateHands], and every hand
      carries the answer of [gestureEstimator.estimate] as a function of
      the threshold it is called with.
    - JavaScript objects used as dictionaries are [gmap string _].
    - [AsyncStorage] is the text kept under a key, with flags for a read
      or a write that throws; a [NaN] result is [None].
    - Built-ins whose tables the program does not contain
      ([String.prototype.toLowerCase]) are taken as given. *)

From Stdlib Require Import ZArith Reals Lra Lia String Ascii List.
From stdpp Require Import gmap strings list.
Import ListNotations.

Open Scope Z_scope.

(** ** Numbers and small array helpers *)

Definition Rgtb (x y : R) : bool := if Rgt_dec x y then true else false.
Definition Rltb (x y : R) : bool := if Rlt_dec x y then true else false.
Definition Reqb (x y : R) : bool := if Req_dec_T x y then true else false.

(** [arr.sort((a, b) => key(b) - key(a))]: stable, descending by [key]. *)
Fixpoint insertDesc {A} (key : A -> R) (x : A) (l : list A) : list A :=
  match l with
  | [] => [x]
  | y :: ys => if Rgtb (key y) (key x) then y :: insertDesc key x ys
               else x :: y :: ys
  end.

Definition sortDesc {A} (key : A -> R) (l : list A) : list A :=
  fold_right (insertDesc key) [] l.

(** [arr.slice(-n)] for [0 < n <= arr.length]. *)
Definition sliceLast {A} (n : nat) (l : list A) : list A :=
  drop (length l - n)%nat l.

(** [s.split(',')] *)
Fixpoint split_comma (s : string) : list string :=
  match s with
  | EmptyString => [EmptyString]
  | String c rest =>
      if Ascii.eqb c ","%char then EmptyString :: split_comma rest
      else match split_comma rest with
           | [] => [String c EmptyString]
           | w :: ws => String c w :: ws
           end
  end.

(** [arr.join(',')] *)
Fixpoint join_comma (l : list string) : string :=
  match l with
  | [] => EmptyString
  | [w] => w
  | w :: ws => (w ++ "," ++ join_comma ws)%string
  end.

(** [scores.reduce((sum, score) => sum + f(score), 0)] *)
Definition reduceSum (f : R -> R) (scores : list R) : R :=
  fold_left (fun sum score => (sum + f score)%R) scores 0%R.

(** ** Data model *)

Record Point := { p_x : R; p_y : R }.

Record Landmark := { l_x : R; l_y : R; l_z : R }.

Record Gesture := { name : string; score : R }.

(** One hand returned by [estimateHands], with the scorer's answer for it. *)
Record Hand := {
  landmarks : list Landmark;
  estimate : R -> list Gesture
}.

Record Frame := { now : Z; hands : list Hand }.

Record SeqEntry := { gesture : string; timestamp : Z }.

(** The free variable [config] read by [detectGesture]. *)
Record Config := {
  cfg_adaptiveThreshold : bool;
  cfg_confidenceThreshold : R
}.

(** The object returned by [detectGesture] for a hand with a gesture. *)
Record Detection := {
  d_name : string;
  d_confidence : R;
  d_allGestures : gmap string R;
  d_handPosition : Point;
  d_velocity : Point
}.

(** What the debounce block commits when it accepts a gesture: the entry
    pushed on [gestureSequence] together with the score handed to
    [saveGestureStatistics]. *)
Record GestureEvent := {
  ev_name : string;
  ev_confidence : R;
  ev_timestamp : Z
}.

Module AiEnhancement.

(** The module-level variables of the detector; [modelsReady] stands for
    [handposeModel && gestureEstimator]. *)
Record State := {
  modelsReady : bool;
  lastGesture : option string;
  lastGestureTime : Z;
  gestureSequence : list SeqEntry;
  gestureConfidenceHistory : gmap string (list R);
  gestureCounters : gmap string nat;
  gestureWindowStart : Z;
  adaptiveThreshold : R;
  previousHandPosition : option Point;
  handVelocity : Point
}.

Definition initialState : State := {|
  modelsReady := true;
  lastGesture := None;
  lastGestureTime := 0;
  gestureSequence := [];
  gestureConfidenceHistory := ∅;
  gestureCounters := ∅;
  gestureWindowStart := 0;
  adaptiveThreshold := 7.5%R;
  previousHandPosition := None;
  handVelocity := {| p_x := 0%R; p_y := 0%R |}
|}.

Definition set_lastGesture (v : option string) (s : State) : State :=
  {| modelsReady := modelsReady s; lastGesture := v;
     lastGestureTime := lastGestureTime s;
     gestureSequence := gestureSequence s;
     gestureConfidenceHistory := gestureConfidenceHistory s;
     gestureCounters := gestureCounters s;
     gestureWindowStart := gestureWindowStart s;
     adaptiveThreshold := adaptiveThreshold s;
     previousHandPosition := previousHandPosition s;
     handVelocity := handVelocity s |}.

Definition set_lastGestureTime (v : Z) (s : State) : State :=
  {| modelsReady := modelsReady s; lastGesture := lastGesture s;
     lastGestureTime := v;
     gestureSequence := gestureSequence s;
     gestureConfidenceHistory := gestureConfidenceHistory s;
     gestureCounters := gestureCounters s;
     gestureWindowStart := gestureWindowStart s;
     adaptiveThreshold := adaptiveThreshold s;
     previousHandPosition := previousHandPosition s;
     handVelocity := handVelocity s |}.

Definition set_gestureSequence (v : list SeqEntry) (s : State) : State :=
  {| modelsReady := modelsReady s; lastGesture := lastGesture s;
     lastGestureTime := lastGestureTime s;
     gestureSequence := v;
     gestureConfidenceHistory := gestureConfidenceHistory s;
     gestureCounters := gestureCounters s;
     gestureWindowStart := gestureWindowStart s;
     adaptiveThreshold := adaptiveThreshold s;
     previousHandPosition := previousHandPosition s;
     handVelocity := handVelocity s |}.

Definition set_gestureConfidenceHistory (v : gmap string (list R))
    (s : State) : State :=
  {| modelsReady := modelsReady s; lastGesture := lastGesture s;
     lastGestureTime := lastGestureTime s;
     gestureSequence := gestureSequence s;
     gestureConfidenceHistory := v;
     gestureCounters := gestureCounters s;
     gestureWindowStart := gestureWindowStart s;
     adaptiveThreshold := adaptiveThreshold s;
     previousHandPosition := previousHandPosition s;
     handVelocity := handVelocity s |}.

Definition set_gestureCounters (v : gmap string nat) (s : State) : State :=
  {| modelsReady := modelsReady s; lastGesture := lastGesture s;
     lastGestureTime := lastGestureTime s;
     gestureSequence := gestureSequence s;
     gestureConfidenceHistory := gestureConfidenceHistory s;
     gestureCounters := v;
     gestureWindowStart := gestureWindowStart s;
     adaptiveThreshold := adaptiveThreshold s;
     previousHandPosition := previousHandPosition s;
     handVelocity := handVelocity s |}.

Definition set_gestureWindowStart (v : Z) (s : State) : State :=
  {| modelsReady := modelsReady s; lastGesture := lastGesture s;
     lastGestureTime := lastGestureTime s;
     gestureSequence := gestureSequence s;
     gestureConfidenceHistory := gestureConfidenceHistory s;
     gestureCounters := gestureCounters s;
     gestureWindowStart := v;
     adaptiveThreshold := adaptiveThreshold s;
     previousHandPosition := previousHandPosition s;
     handVelocity := handVelocity s |}.

Definition set_adaptiveThreshold (v : R) (s : State) : State :=
  {| modelsReady := modelsReady s; lastGesture := lastGesture s;
     lastGestureTime := lastGestureTime s;
     gestureSequence := gestureSequence s;
     gestureConfidenceHistory := gestureConfidenceHistory s;
     gestureCounters := gestureCounters s;
     gestureWindowStart := gestureWindowStart s;
     adaptiveThreshold := v;
     previousHandPosition := previousHandPosition s;
     handVelocity := handVelocity s |}.

Definition set_motion (prev : option Point) (vel : Point) (s : State)
    : State :=
  {| modelsReady := modelsReady s; lastGesture := lastGesture s;
     lastGestureTime := lastGestureTime s;
     gestureSequence := gestureSequence s;
     gestureConfidenceHistory := gestureConfidenceHistory s;
     gestureCounters := gestureCounters s;
     gestureWindowStart := gestureWindowStart s;
     adaptiveThreshold := adaptiveThreshold s;
     previousHandPosition := prev;
     handVelocity := vel |}.

(** *** calculateHandCenter *)

Definition calculateHandCenter (lms : list Landmark) : Point :=
  match lms with
  | [] => {| p_x := 0%R; p_y := 0%R |}
  | palm :: _ => {| p_x := l_x palm; p_y := l_y palm |}
  end.

(** *** Motion tracking (first statements of the per-hand callback) *)

Definition nextVelocity (s : State) (cur : Point) : Point :=
  match previousHandPosition s with
  | Some prev => {| p_x := (p_x cur - p_x prev)%R;
                    p_y := (p_y cur - p_y prev)%R |}
  | None => handVelocity s
  end.

Definition movementMagnitude (s : State) (cur : Point) : R :=
  match previousHandPosition s with
  | Some _ =>
      let v := nextVelocity s cur in
      sqrt (p_x v * p_x v + p_y v * p_y v)
  | None => 0%R
  end.

(** *** Adaptive threshold *)

(** Raise by 1.0 above magnitude 15, lower by 0.5 below magnitude 5. *)
Definition adjustForMotion (threshold magnitude : R) : R :=
  if Rgtb magnitude 15 then (threshold + 1.0)%R
  else if Rltb magnitude 5 then (threshold - 0.5)%R
  else threshold.

(** [Math.max(6.0, Math.min(confidenceThreshold, 9.0))] *)
Definition clampThreshold (threshold : R) : R :=
  Rmax 6.0 (Rmin threshold 9.0).

(** The local [confidenceThreshold] handed to the estimator. *)
Definition workingThreshold (config : Config) (adaptive magnitude : R) : R :=
  if cfg_adaptiveThreshold config
  then clampThreshold (adjustForMotion adaptive magnitude)
  else cfg_confidenceThreshold config.

(** The update of [adaptiveThreshold] after a successful estimate. *)
Definition smoothThreshold (adaptive confidenceThreshold : R) : R :=
  if Reqb adaptive confidenceThreshold then adaptive
  else (confidenceThreshold * 0.9 + adaptive * 0.1)%R.

(** *** Confidence history and stability *)

Definition pushScore (history : gmap string (list R)) (g : Gesture)
    : gmap string (list R) :=
  let pushed := default [] (history !! name g) ++ [score g] in
  <[ name g := if (10 <? length pushed)%nat then tail pushed else pushed ]>
    history.

Definition recordScores (history : gmap string (list R))
    (detected : list Gesture) : gmap string (list R) :=
  fold_left pushScore detected history.

Definition collectScores (detected : list Gesture) : gmap string R :=
  fold_left (fun all g => <[ name g := score g ]> all) detected ∅.

(** The locals [mean], [variance] and [stdDev] of
    [calculateGestureStability], and the value it returns for a history of
    at least three scores. *)
Definition meanOf (scores : list R) : R :=
  (reduceSum (fun score => score) scores / INR (length scores))%R.

Definition varianceOf (scores : list R) : R :=
  (reduceSum (fun score => (score - meanOf scores) ^ 2) scores
   / INR (length scores))%R.

Definition stdDevOf (scores : list R) : R := sqrt (varianceOf scores).

(** [1 / (stdDev + 0.01)], in exact arithmetic. *)
Definition stabilityOf (scores : list R) : R :=
  (1 / (stdDevOf scores + 0.01))%R.

Definition calculateGestureStability (history : gmap string (list R))
    (gestureName : string) : R :=
  match history !! gestureName with
  | None => 0%R
  | Some scores =>
      if (length scores <? 3)%nat then 0%R else stabilityOf scores
  end.

(** *** Candidate ranking: sort, keep three, stability swap *)

Definition rankGestures (history : gmap string (list R))
    (detected : list Gesture) : list Gesture :=
  let topGestures := take 3 (sortDesc score detected) in
  match topGestures with
  | first :: second :: rest =>
      if Rgtb (score second) (score first * 0.9) then
        let firstStability := calculateGestureStability history (name first) in
        let secondStability :=
          calculateGestureStability history (name second) in
        if Rgtb secondStability (firstStability * 1.5)
        then second :: first :: rest
        else topGestures
      else topGestures
  | _ => topGestures
  end.

(** *** Motion enhancement for swipe gestures *)

Definition motionEnhance (gestureName : string) (velocity : Point) : string :=
  if String.eqb gestureName "swipe_left" && Rgtb (p_x velocity) 15
  then "swipe_left"%string
  else if String.eqb gestureName "swipe_right" && Rltb (p_x velocity) (-15)
  then "swipe_right"%string
  else gestureName.

(** *** Debounce block *)

(** [finalGesture !== lastGesture] *)
Definition differsFromLast (finalGesture : string) (last : option string)
    : bool :=
  match last with
  | None => true
  | Some l => negb (String.eqb finalGesture l)
  end.

Definition pushSequence (entry : SeqEntry) (sequence : list SeqEntry)
    : list SeqEntry :=
  let pushed := sequence ++ [entry] in
  if (5 <? length pushed)%nat then tail pushed else pushed.

Definition commitGesture (t : Z) (finalGesture : string) (s : State)
    : State :=
  let s1 := match gestureSequence s with
            | [] => set_gestureWindowStart t s
            | _ => s
            end in
  let s2 := set_gestureSequence
              (pushSequence {| gesture := finalGesture; timestamp := t |}
                            (gestureSequence s1)) s1 in
  let s3 := set_gestureCounters
              (<[ finalGesture :=
                    S (default 0%nat (gestureCounters s2 !! finalGesture)) ]>
                 (gestureCounters s2)) s2 in
  set_lastGestureTime t (set_lastGesture (Some finalGesture) s3).

Definition debounce (t : Z) (finalGesture : string) (confidence : R)
    (s : State) : State * list GestureEvent :=
  if differsFromLast finalGesture (lastGesture s) then
    if 350 <? t - lastGestureTime s then
      (commitGesture t finalGesture s,
       [ {| ev_name := finalGesture; ev_confidence := confidence;
            ev_timestamp := t |} ])
    else (s, [])
  else (s, []).

(** *** checkGestureSequence *)

Definition knownSequences : list (string * string) :=
  [ ("thumbs_up,thumbs_down", "TOGGLE_APPROVAL");
    ("palm,fist", "GRAB_OBJECT");
    ("swipe_left,swipe_right", "SHAKE_GESTURE");
    ("victory,fist", "SCISSORS_TO_ROCK");
    ("point_up,point_down", "FLIP_DIRECTION") ]%string.

Fixpoint matchKnown (table : list (string * string))
    (gestures : list string) : option string :=
  match table with
  | [] => None
  | (pattern, action) :: others =>
      let patternGestures := split_comma pattern in
      if (length patternGestures <=? length gestures)%nat
         && String.eqb
              (join_comma (sliceLast (length patternGestures) gestures))
              pattern
      then Some action
      else matchKnown others gestures
  end.

Definition checkGestureSequence (sequence : list SeqEntry) : option string :=
  if (length sequence <? 2)%nat then None
  else matchKnown knownSequences (map gesture sequence).

(** *** The per-hand callback of detectGesture *)

(** What the callback yields for one hand: the object it returns
    ([None] for [null]) and the gesture events committed by the debounce
    block on the way. *)
Record HandOutcome := {
  detection : option Detection;
  events : list GestureEvent
}.

Definition processHand (config : Config) (t : Z) (s : State) (hand : Hand)
    : State * HandOutcome :=
  let currentHandPosition := calculateHandCenter (landmarks hand) in
  let magnitude := movementMagnitude s currentHandPosition in
  let s := set_motion (Some currentHandPosition)
                      (nextVelocity s currentHandPosition) s in
  let confidenceThreshold :=
    workingThreshold config (adaptiveThreshold s) magnitude in
  let detectedGestures := estimate hand confidenceThreshold in
  match detectedGestures with
  | [] => (s, {| detection := None; events := [] |})
  | _ :: _ =>
      let s := set_adaptiveThreshold
                 (smoothThreshold (adaptiveThreshold s) confidenceThreshold)
                 s in
      let allGesturesWithScores := collectScores detectedGestures in
      let s := set_gestureConfidenceHistory
                 (recordScores (gestureConfidenceHistory s) detectedGestures)
                 s in
      match rankGestures (gestureConfidenceHistory s) detectedGestures with
      | [] => (s, {| detection := None; events := [] |})
      | top :: _ =>
          let finalGesture := motionEnhance (name top) (handVelocity s) in
          let '(s, evs) := debounce t finalGesture (score top) s in
          (s, {| detection :=
                   Some {| d_name := finalGesture;
                           d_confidence := score top;
                           d_allGestures := allGesturesWithScores;
                           d_handPosition := currentHandPosition;
                           d_velocity := handVelocity s |};
                 events := evs |})
      end
  end.

(** *** detectGesture *)

(** Sequence-window management at the top of every call: the window is
    inspected, and the pattern table consulted, once more than 3000 ms
    have passed since [gestureWindowStart]. The returned list holds the
    combo action logged by [checkGestureSequence], if any. *)
Definition manageWindow (t : Z) (s : State) : State * list string :=
  if (3000 <? t - gestureWindowStart s)
     && (0 <? length (gestureSequence s))%nat
  then
    let actions :=
      if (1 <? length (gestureSequence s))%nat
      then match checkGestureSequence (gestureSequence s) with
           | Some action => [action]
           | None => []
           end
      else [] in
    (set_gestureWindowStart t (set_gestureSequence [] s), actions)
  else (s, []).

(** The branch taken when [hands.length === 0]. *)
Definition handleAbsence (t : Z) (s : State) : State :=
  match lastGesture s with
  | Some _ =>
      if 500 <? t - lastGestureTime s then
        let s := set_lastGesture None s in
        if (0 <? length (gestureSequence s))%nat
           && (1000 <? t - gestureWindowStart s)
        then set_gestureSequence [] s
        else s
      else s
  | None => s
  end.

(** [hands.map(async (hand) => ...)]: the callback never awaits, so the
    hands are processed one after the other on the shared state. *)
Fixpoint processHands (config : Config) (t : Z) (s : State)
    (hs : list Hand) : State * list HandOutcome :=
  match hs with
  | [] => (s, [])
  | hand :: rest =>
      let '(s1, out) := processHand config t s hand in
      let '(s2, outs) := processHands config t s1 rest in
      (s2, out :: outs)
  end.

(** What one call yields: the combo actions logged while the window was
    managed, and the outcome of every hand. *)
Record FrameOutcome := {
  comboActions : list string;
  handResults : list HandOutcome
}.

(** A call without models throws at once and is caught: nothing changes.
    Failures of the external collaborators are not modelled. *)
Definition detectGesture (config : Config) (s : State) (frame : Frame)
    : State * FrameOutcome :=
  if negb (modelsReady s)
  then (s, {| comboActions := []; handResults := [] |})
  else
    let '(s, actions) := manageWindow (now frame) s in
    match hands frame with
    | [] => (handleAbsence (now frame) s,
             {| comboActions := actions; handResults := [] |})
    | hs =>
        let '(s, outs) := processHands config (now frame) s hs in
        (s, {| comboActions := actions; handResults := outs |})
    end.

Definition frameEvents (out : FrameOutcome) : list GestureEvent :=
  concat (map events (handResults out)).

(** A session: the frames are handled one after the other. *)
Fixpoint runFrames (config : Config) (s : State) (frames : list Frame)
    : State * list FrameOutcome :=
  match frames with
  | [] => (s, [])
  | frame :: rest =>
      let '(s1, out) := detectGesture config s frame in
      let '(s2, outs) := runFrames config s1 rest in
      (s2, out :: outs)
  end.

Definition emittedEvents (outs : list FrameOutcome) : list GestureEvent :=
  concat (map frameEvents outs).

Definition reportedActions (outs : list FrameOutcome) : list string :=
  concat (map comboActions outs).

(** *** processAmbiguousGesture *)

Record Candidate := { c_name : string; c_confidence : R }.

(** The object handed back to the caller: a candidate, possibly carrying
    the fields added after a successful adjudication. *)
Record Resolved := {
  r_name : string;
  r_confidence : R;
  r_aiEnhanced : bool;
  r_explanation : option string
}.

(** What the request to the arbitration service comes to. [CallFailed]
    stands for every way of landing in the [catch] block: a rejected or
    timed-out request, a body that is not JSON, a reply without a string
    [gesture]. *)
Inductive ServiceReply :=
| CallFailed
| Replied (gesture : string) (confidence : R) (explanation : string).

(** The environment of one call: whether the [openai] client exists,
    what [initAI()] answers when it is asked, the service reply, and the
    built-in [String.prototype.toLowerCase] of the platform, which folds
    the letters of every script and is taken as given. *)
Record Arbiter := {
  clientReady : bool;
  initAI : bool;
  reply : ServiceReply;
  toLowerCase : string -> string
}.

Definition lowerChar (c : ascii) : ascii :=
  let n := nat_of_ascii c in
  if (65 <=? n)%nat && (n <=? 90)%nat then ascii_of_nat (n + 32) else c.

(** What [toLowerCase] does to a string written in ASCII characters: the
    letters A to Z are folded, everything else is kept. The sample
    environments, whose names are all ASCII, use it. *)
Fixpoint asciiLowerCase (s : string) : string :=
  match s with
  | EmptyString => EmptyString
  | String c rest => String (lowerChar c) (asciiLowerCase rest)
  end.

Definition plain (c : Candidate) : Resolved :=
  {| r_name := c_name c; r_confidence := c_confidence c;
     r_aiEnhanced := false; r_explanation := None |}.

(** [candidates.sort((a, b) => b.confidence - a.confidence)[0]] *)
Definition highestConfidence (candidates : list Candidate)
    : option Resolved :=
  option_map plain (head (sortDesc c_confidence candidates)).

(** [candidates.find(c => c.name.toLowerCase() === g.toLowerCase())] *)
Definition findCandidate (env : Arbiter) (g : string)
    (candidates : list Candidate) : option Candidate :=
  find (fun c => String.eqb (toLowerCase env (c_name c))
                            (toLowerCase env g))
       candidates.

Definition processAmbiguousGesture (candidates : list Candidate)
    (env : Arbiter) : option Resolved :=
  if negb (clientReady env) && negb (initAI env)
  then highestConfidence candidates
  else
    match reply env with
    | CallFailed => highestConfidence candidates
    | Replied g confidence explanation =>
        match findCandidate env g candidates with
        | Some matchedCandidate =>
            Some {| r_name := c_name matchedCandidate;
                    r_confidence := confidence;
                    r_aiEnhanced := true;
                    r_explanation := Some explanation |}
        | None => highestConfidence candidates
        end
    end.

End AiEnhancement.

(** ** The background service (public/audio-processors.js) *)

Module BackgroundGestureService.

Record State := {
  gestureEstimator : bool;
  previousHandPosition : option Point;
  handVelocity : Point;
  gestureConfidenceHistory : gmap string (list R)
}.

Definition calculateHandCenter (lms : list Landmark) : Point :=
  match lms with
  | [] => {| p_x := 0%R; p_y := 0%R |}
  | palm :: _ => {| p_x := l_x palm; p_y := l_y palm |}
  end.

Definition nextVelocity (s : State) (cur : Point) : Point :=
  match previousHandPosition s with
  | Some prev => {| p_x := (p_x cur - p_x prev)%R;
                    p_y := (p_y cur - p_y prev)%R |}
  | None => {| p_x := 0%R; p_y := 0%R |}
  end.

Definition movementMagnitude (velocity : Point) : R :=
  sqrt (p_x velocity * p_x velocity + p_y velocity * p_y velocity).

(** Starts from 9.0 on every call; nothing is carried across frames. *)
Definition workingThreshold (magnitude : R) : R :=
  let confidenceThreshold :=
    if Rgtb magnitude 20 then (9.0 + 1.0)%R
    else if Rltb magnitude 5 then (9.0 - 0.5)%R
    else 9.0%R in
  Rmax 7.5 (Rmin confidenceThreshold 10.0).

Definition collectScores (detected : list Gesture) : gmap string R :=
  fold_left (fun all g => <[ name g := score g ]> all) detected ∅.

Definition motionEnhance (gestureName : string) (velocity : Point) : string :=
  if String.eqb gestureName "swipe_left" && Rgtb (p_x velocity) 15
  then "swipe_left"%string
  else if String.eqb gestureName "swipe_right" && Rltb (p_x velocity) (-15)
  then "swipe_right"%string
  else gestureName.

Definition pushScore (history : gmap string (list R)) (key : string)
    (value : R) : gmap string (list R) :=
  let pushed := default [] (history !! key) ++ [value] in
  <[ key := if (5 <? length pushed)%nat then tail pushed else pushed ]>
    history.

Definition detectGesture (s : State) (hand : Hand)
    : State * option Detection :=
  if negb (gestureEstimator s) then (s, None)
  else
    let currentHandPosition := calculateHandCenter (landmarks hand) in
    let velocity := nextVelocity s currentHandPosition in
    let confidenceThreshold :=
      workingThreshold (movementMagnitude velocity) in
    let moved (h : gmap string (list R)) :=
      {| gestureEstimator := gestureEstimator s;
         previousHandPosition := Some currentHandPosition;
         handVelocity := velocity;
         gestureConfidenceHistory := h |} in
    let gestures := estimate hand confidenceThreshold in
    let confidences := collectScores gestures in
    match sortDesc score gestures with
    | [] => (moved (gestureConfidenceHistory s), None)
    | top :: _ =>
        let highestConfidenceGesture := motionEnhance (name top) velocity in
        let confidence :=
          default 0%R (confidences !! highestConfidenceGesture) in
        (moved (pushScore (gestureConfidenceHistory s)
                          highestConfidenceGesture confidence),
         Some {| d_name := highestConfidenceGesture;
                 d_confidence := confidence;
                 d_allGestures := confidences;
                 d_handPosition := currentHandPosition;
                 d_velocity := velocity |})
    end.

End BackgroundGestureService.

(** ** The detection loop of the background service *)

Module BackgroundLoop.

(** The fields of [BackgroundGestureService] used by [detectOnce];
    [ready] stands for [videoElement && handposeModel && isRunning]. *)
Record Service := {
  ready : bool;
  detector : BackgroundGestureService.State;
  lastDetectedGesture : option string;
  lastGestureTimestamp : Z;
  gestureSequence : list SeqEntry;
  gestureCounters : gmap string nat
}.

(** The service as its constructor leaves it, once started. *)
Definition started : Service := {|
  ready := true;
  detector :=
    {| BackgroundGestureService.gestureEstimator := true;
       BackgroundGestureService.previousHandPosition := None;
       BackgroundGestureService.handVelocity := {| p_x := 0%R; p_y := 0%R |};
       BackgroundGestureService.gestureConfidenceHistory := ∅ |};
  lastDetectedGesture := None;
  lastGestureTimestamp := 0;
  gestureSequence := [];
  gestureCounters := ∅
|}.

Definition knownSequences : list (string * string) :=
  [ ("thumbs_up,thumbs_down", "TOGGLE_APPROVAL");
    ("palm,victory", "SHOW_MENU");
    ("swipe_left,swipe_right", "SHAKE_ACTION");
    ("pointing_up,pointing_down", "FLIP_DIRECTION") ]%string.

(** [knownSequences[key] || null] *)
Fixpoint lookupSequence (table : list (string * string)) (key : string)
    : option string :=
  match table with
  | [] => None
  | (pattern, action) :: others =>
      if String.eqb pattern key then Some action
      else lookupSequence others key
  end.

Definition checkGestureSequence (sequence : list SeqEntry) : option string :=
  if (length sequence <? 2)%nat then None
  else lookupSequence knownSequences
         (join_comma (sliceLast 2 (map gesture sequence))).

(** What one call yields: the gesture accepted by the call (logged,
    counted, and handed to [onGestureDetected] when a callback is
    registered), stamped with the time of the call, and the sequence
    pattern logged. *)
Record Outcome := {
  accepted : option GestureEvent;
  sequencePattern : option string
}.

Definition nothing : Outcome :=
  {| accepted := None; sequencePattern := None |}.

Definition differsFromLast (gestureName : string) (last : option string)
    : bool :=
  match last with
  | None => true
  | Some l => negb (String.eqb gestureName l)
  end.

Definition pushSequence (entry : SeqEntry) (sequence : list SeqEntry)
    : list SeqEntry :=
  let pushed := sequence ++ [entry] in
  if (5 <? length pushed)%nat then tail pushed else pushed.

(** The body of [if (gestureResult)]. *)
Definition acceptGesture (t : Z) (result : Detection) (s : Service)
    : Service * Outcome :=
  if differsFromLast (d_name result) (lastDetectedGesture s) then
    if 500 <? t - lastGestureTimestamp s then
      let sequence :=
        pushSequence {| gesture := d_name result; timestamp := t |}
                     (gestureSequence s) in
      ({| ready := ready s;
          detector := detector s;
          lastDetectedGesture := Some (d_name result);
          lastGestureTimestamp := t;
          gestureSequence := sequence;
          gestureCounters :=
            <[ d_name result :=
                 S (default 0%nat (gestureCounters s !! d_name result)) ]>
              (gestureCounters s) |},
       {| accepted :=
            Some {| ev_name := d_name result;
                    ev_confidence := d_confidence result;
                    ev_timestamp := t |};
          sequencePattern :=
            if (2 <=? length sequence)%nat
            then checkGestureSequence sequence else None |})
    else (s, nothing)
  else (s, nothing).

(** The branch taken when no hand is predicted. *)
Definition handleAbsence (t : Z) (s : Service) : Service :=
  match lastDetectedGesture s with
  | Some _ =>
      if 1000 <? t - lastGestureTimestamp s then
        {| ready := ready s;
           detector := detector s;
           lastDetectedGesture := None;
           lastGestureTimestamp := lastGestureTimestamp s;
           gestureSequence := [];
           gestureCounters := gestureCounters s |}
      else s
  | None => s
  end.

(** One call of [detectOnce], at time [now frame], on the predictions
    [hands frame]; only the first prediction is looked at. Calls are taken
    one at a time. *)
Definition detectOnce (s : Service) (frame : Frame) : Service * Outcome :=
  if negb (ready s) then (s, nothing)
  else
    match hands frame with
    | hand :: _ =>
        let '(d, gestureResult) :=
          BackgroundGestureService.detectGesture (detector s) hand in
        let s := {| ready := ready s;
                    detector := d;
                    lastDetectedGesture := lastDetectedGesture s;
                    lastGestureTimestamp := lastGestureTimestamp s;
                    gestureSequence := gestureSequence s;
                    gestureCounters := gestureCounters s |} in
        match gestureResult with
        | Some result => acceptGesture (now frame) result s
        | None => (s, nothing)
        end
    | [] => (handleAbsence (now frame) s, nothing)
    end.

Fixpoint runLoop (s : Service) (frames : list Frame)
    : Service * list Outcome :=
  match frames with
  | [] => (s, [])
  | frame :: rest =>
      let '(s1, out) := detectOnce s frame in
      let '(s2, outs) := runLoop s1 rest in
      (s2, out :: outs)
  end.

(** The gestures accepted over a run, in order. *)
Fixpoint acceptedEvents (outs : list Outcome) : list GestureEvent :=
  match outs with
  | [] => []
  | out :: rest =>
      match accepted out with
      | Some e => e :: acceptedEvents rest
      | None => acceptedEvents rest
      end
  end.

End BackgroundLoop.

(** ** Usage statistics (saveGestureStatistics) *)

Module GestureStatistics.

Record TimeEntry := {
  te_gesture : string;
  te_time : Z;
  te_confidence : R
}.

(** The object kept under the storage key [gestureStatistics]. *)
Record Stats := {
  gestureFrequency : gmap string nat;
  confusionMatrix : gmap string (gmap string nat);
  timestamps : list TimeEntry
}.

Definition freshStats : Stats :=
  {| gestureFrequency := ∅; confusionMatrix := ∅; timestamps := [] |}.

(** The [forEach] over [Object.keys(allGestures)]: every other detected
    gesture is counted once in the row of [gestureName]. *)
Definition countConfusions (gestureName : string) (allGestures : gmap string R)
    (row : gmap string nat) : gmap string nat :=
  fold_left
    (fun row entry =>
       let otherGesture := fst entry in
       if String.eqb otherGesture gestureName then row
       else <[ otherGesture := S (default 0%nat (row !! otherGesture)) ]> row)
    (map_to_list allGestures) row.

Definition pushTimestamp (entry : TimeEntry) (entries : list TimeEntry)
    : list TimeEntry :=
  let pushed := entries ++ [entry] in
  if (100 <? length pushed)%nat then tail pushed else pushed.

(** The update computed between reading and writing the stored object. *)
Definition updateStats (t : Z) (gestureName : string)
    (allGestures : gmap string R) (confidence : R) (stats : Stats) : Stats :=
  {| gestureFrequency :=
       <[ gestureName :=
            (default 0%nat (gestureFrequency stats !! gestureName) + 1)%nat ]>
         (gestureFrequency stats);
     confusionMatrix :=
       <[ gestureName :=
            countConfusions gestureName allGestures
              (default ∅ (confusionMatrix stats !! gestureName)) ]>
         (confusionMatrix stats);
     timestamps :=
       pushTimestamp {| te_gesture := gestureName; te_time := t;
                        te_confidence := confidence |}
                     (timestamps stats) |}.

(** [saveGestureStatistics]: [stored] is what the storage holds ([None]
    when the key is absent); [storageWorks = false] stands for a read or a
    write that throws, which is caught and leaves the storage as it was. *)
Definition saveGestureStatistics (storageWorks : bool) (stored : option Stats)
    (t : Z) (gestureName : string) (allGestures : gmap string R)
    (confidence : R) : option Stats :=
  if storageWorks
  then Some (updateStats t gestureName allGestures confidence
               (default freshStats stored))
  else stored.

(** [getGestureStatistics] *)
Definition getGestureStatistics (storageWorks : bool) (stored : option Stats)
    : option Stats :=
  if storageWorks then stored else None.

(** [resetGestureStatistics]: the new storage content and the result. *)
Definition resetGestureStatistics (storageWorks : bool)
    (stored : option Stats) : option Stats * bool :=
  if storageWorks then (None, true) else (stored, false).

End GestureStatistics.

(** ** Correction examples (loadContext, saveContext, addContextExample) *)

Module AiContext.

Definition MAX_CONTEXT_EXAMPLES : nat := 10.

Record Example := {
  original : string;
  corrected : string;
  timestamp : Z
}.

(** What [JSON.parse] makes of a stored text: an array, whose elements
    these functions never look into, or a value of another kind (an
    object, a number, a string, a boolean, [null]). *)
Inductive Parsed :=
| anArray (examples : list Example)
| notAnArray.

(** The text kept under the storage key [aiContext]: the JSON text of a
    value, or a text that [JSON.parse] rejects. *)
Inductive Text :=
| json (value : Parsed)
| malformed.

(** The storage key: its text ([None] when absent or empty) and whether
    reading and writing it throw. *)
Record Storage := {
  content : option Text;
  readFails : bool;
  writeFails : bool
}.

(** [loadContext]: a failing read and a failing parse are both caught and
    answered with the empty array. *)
Definition loadContext (st : Storage) : Parsed :=
  if readFails st then anArray []
  else
    match content st with
    | None => anArray []
    | Some (json value) => value
    | Some malformed => anArray []
    end.

Definition saveContext (st : Storage) (context : Parsed)
    : Storage * bool :=
  if writeFails st then (st, false)
  else ({| content := Some (json context); readFails := readFails st;
           writeFails := writeFails st |}, true).

(** [addContextExample]: [context.push] throws on a value that is not an
    array, and the catch block answers [false]; the answer of
    [saveContext] is dropped. *)
Definition addContextExample (st : Storage) (t : Z)
    (original corrected : string) : Storage * bool :=
  match loadContext st with
  | anArray context =>
      let context :=
        context ++ [ {| original := original; corrected := corrected;
                        timestamp := t |} ] in
      let updatedContext := sliceLast MAX_CONTEXT_EXAMPLES context in
      (fst (saveContext st (anArray updatedContext)), true)
  | notAnArray => (st, false)
  end.

End AiContext.

(** ** Phone actions (executeAction, getAvailableActions, gestureToAction) *)

Module Actions.

Record ActionResult := { success : bool; message : string }.

Definition executeAction (action : string) : ActionResult :=
  if String.eqb action "OPEN_CAMERA"
  then {| success := true; message := "Camera opened" |}
  else if String.eqb action "TAKE_PHOTO"
  then {| success := true; message := "Photo taken" |}
  else if String.eqb action "INCREASE_BRIGHTNESS"
  then {| success := true; message := "Brightness increased" |}
  else if String.eqb action "DECREASE_BRIGHTNESS"
  then {| success := true; message := "Brightness decreased" |}
  else if String.eqb action "OPEN_SETTINGS"
  then {| success := true; message := "Settings opened" |}
  else if String.eqb action "GO_BACK"
  then {| success := true; message := "Went back" |}
  else if String.eqb action "SCROLL_UP"
  then {| success := true; message := "Scrolled up" |}
  else if String.eqb action "SCROLL_DOWN"
  then {| success := true; message := "Scrolled down" |}
  else {| success := false; message := "Unknown action" |}.

Record ActionInfo := { id : string; name : string; icon : string }.

Definition getAvailableActions : list ActionInfo :=
  [ {| id := "OPEN_CAMERA"; name := "Open Camera"; icon := "camera" |};
    {| id := "TAKE_PHOTO"; name := "Take Photo"; icon := "camera" |};
    {| id := "INCREASE_BRIGHTNESS"; name := "Increase Brightness";
       icon := "sun" |};
    {| id := "DECREASE_BRIGHTNESS"; name := "Decrease Brightness";
       icon := "moon" |};
    {| id := "OPEN_SETTINGS"; name := "Open Settings"; icon := "settings" |};
    {| id := "GO_BACK"; name := "Go Back"; icon := "arrow-left" |};
    {| id := "SCROLL_UP"; name := "Scroll Up"; icon := "arrow-up" |};
    {| id := "SCROLL_DOWN"; name := "Scroll Down"; icon := "arrow-down" |} ]%string.

(** The own keys of the table [gestureToAction]. *)
Definition gestureToAction : list (string * string) :=
  [ ("swipe_right", "GO_BACK");
    ("swipe_left", "OPEN_SETTINGS");
    ("thumbs_up", "TAKE_PHOTO");
    ("palm", "OPEN_CAMERA");
    ("pinch", "DECREASE_BRIGHTNESS");
    ("spread", "INCREASE_BRIGHTNESS") ]%string.

End Actions.

(** ** Voice authentication (calculateVoiceSimilarity, authenticateVoice) *)

Module VoiceAuth.

(** The three accumulators of the loop of [calculateVoiceSimilarity]. The
    loop runs over the indices of [features1]; [zip] pairs them with the
    components of [features2] that exist. *)
Definition sumSquares (features : list R) : R :=
  fold_left (fun acc x => (acc + x * x)%R) features 0%R.

Definition dotProduct (pairs : list (R * R)) : R :=
  fold_left (fun acc xy => (acc + fst xy * snd xy)%R) pairs 0%R.

Definition sumSquaresRight (pairs : list (R * R)) : R :=
  fold_left (fun acc xy => (acc + snd xy * snd xy)%R) pairs 0%R.

(** Cosine similarity mapped to [0, 1], in exact arithmetic. [None]
    stands for [NaN]: when [features2] is shorter than [features1] the
    loop reads [undefined], and only the test [norm1 === 0] can still
    succeed. *)
Definition calculateVoiceSimilarity (features1 features2 : list R)
    : option R :=
  let norm1 := sqrt (sumSquares features1) in
  if (length features2 <? length features1)%nat then
    if Reqb norm1 0 then Some 0%R else None
  else
    let pairs := zip features1 features2 in
    let norm2 := sqrt (sumSquaresRight pairs) in
    if Reqb norm1 0 || Reqb norm2 0 then Some 0%R
    else Some ((dotProduct pairs / (norm1 * norm2) + 1) / 2)%R.

Definition VERIFICATION_CONFIDENCE_THRESHOLD : R := 0.75%R.

(** [getConfidenceThresholdForSecurityLevel], on [settings.securityLevel]. *)
Definition getConfidenceThresholdForSecurityLevel (securityLevel : string)
    : R :=
  if String.eqb securityLevel "low" then 0.65%R
  else if String.eqb securityLevel "high" then 0.85%R
  else VERIFICATION_CONFIDENCE_THRESHOLD.

Record Profile := {
  userId : option string;
  completed : bool;
  features : list R
}.

(** The module-level variables read and written by [authenticateVoice]. *)
Record State := {
  isAuthenticating : bool;
  voiceProfiles : list Profile;
  currentUser : option string;
  securityLevel : string
}.

Inductive AuthResult :=
| NotEnrolled
    (* { success: false, error: 'No voice profile found ...', enrolled: false } *)
| Failed
    (* { success: false, error: error.message } from the catch block *)
| Decided (success : bool) (confidence : option R) (threshold : R)
          (user : option string).

Definition sameUser (a b : option string) : bool :=
  match a, b with
  | Some x, Some y => String.eqb x y
  | None, None => true
  | _, _ => false
  end.

(** [confidence >= requiredConfidence]; a comparison with [NaN] is false. *)
Definition reaches (confidence : option R) (required : R) : bool :=
  match confidence with
  | Some c => if Rge_dec c required then true else false
  | None => false
  end.

Definition setFlag (flag : bool) (s : State) : State :=
  {| isAuthenticating := flag; voiceProfiles := voiceProfiles s;
     currentUser := currentUser s; securityLevel := securityLevel s |}.

(** [authenticateVoice]; [extracted] is what [extractVoiceFeatures]
    yields for the audio, [None] when it throws. *)
Definition authenticateVoice (s : State) (extracted : option (list R))
    : State * AuthResult :=
  if isAuthenticating s then (setFlag false s, Failed)
  else
    let required := getConfidenceThresholdForSecurityLevel (securityLevel s) in
    match find (fun p => sameUser (userId p) (currentUser s))
               (voiceProfiles s) with
    | None => (setFlag false s, NotEnrolled)
    | Some profile =>
        if negb (completed profile) then (setFlag false s, NotEnrolled)
        else
          match extracted with
          | None => (setFlag false s, Failed)
          | Some sample =>
              let confidence :=
                calculateVoiceSimilarity sample (features profile) in
              (setFlag false s,
               Decided (reaches confidence required) confidence required
                       (currentUser s))
          end
    end.

End VoiceAuth.

(** ** Voice activity detector ([public/audio-processors.js])

    [VoiceActivityDetector.processFrame] measures the energy of a frame
    and the spectrum [performFFT] gives for it, refreshes the noise
    estimate, rates the frame with [detectSpeech] and runs the hang-over
    counters. The model takes the three measurements of a frame as given;
    the periodic [vadStatus] message, which touches no state, is left
    out. *)

Module VoiceActivityDetector.

(** The value of [calculateSNR]: [10 * Math.log10 (signal / noise)] is
    [-Infinity] for a frame without signal. *)
Inductive Level :=
| minusInfinity
| decibels (value : R).

Record Measurement := {
  energy : R;
  fftOutput : list R;
  snr : Level
}.

Record Detector := {
  energyThreshold : R;
  isSpeaking : bool;
  speechCount : nat;
  silenceCount : nat;
  noiseEstimate : list R;
  noiseInitialized : bool
}.

Definition speechThreshold : R := 0.6%R.
Definition silenceHangover : nat := 5%nat.
Definition frameDuration : R := 0.03%R.
Definition fftSize : nat := 512%nat.
Definition noiseUpdateRate : R := 0.1%R.
Definition noiseFloor : R := 0.001%R.

(** The state the constructor leaves. *)
Definition constructed : Detector :=
  {| energyThreshold := 0.0005%R; isSpeaking := false;
     speechCount := 0%nat; silenceCount := 0%nat;
     noiseEstimate := replicate (fftSize / 2)%nat 0%R;
     noiseInitialized := false |}.

(** Both loops of [updateNoiseEstimate] run over the indices of
    [fftOutput]; the estimate is a typed array, so entries beyond the
    spectrum keep their value and writes beyond the array are dropped. *)
Definition updateNoiseEstimate (d : Detector) (spectrum : list R)
    : Detector :=
  let floored x := Rmax x noiseFloor in
  let untouched := drop (length spectrum) (noiseEstimate d) in
  let estimate :=
    if noiseInitialized d then
      zip_with (fun n x => ((1 - noiseUpdateRate) * n
                            + noiseUpdateRate * floored x)%R)
               (noiseEstimate d) spectrum
    else
      zip_with (fun _ x => floored x) (noiseEstimate d) spectrum in
  {| energyThreshold := energyThreshold d; isSpeaking := isSpeaking d;
     speechCount := speechCount d; silenceCount := silenceCount d;
     noiseEstimate := estimate ++ untouched;
     noiseInitialized := true |}.

Definition energyScore (threshold frameEnergy : R) : R :=
  if Rgtb frameEnergy threshold
  then Rmin 1.0 (frameEnergy / (threshold * 4))
  else 0%R.

Definition snrScore (level : Level) : R :=
  match level with
  | minusInfinity => 0%R
  | decibels value =>
      if Rgtb value 5 then Rmin 1.0 ((value - 5) / 15) else 0%R
  end.

(** [detectSpeech]; it reads [this.energyThreshold] only. *)
Definition detectSpeech (threshold frameEnergy : R) (level : Level) : R :=
  (0.3 * energyScore threshold frameEnergy + 0.7 * snrScore level)%R.

Inductive Posted :=
| speechStart (frameEnergy : R) (level : Level)
| speechEnd (duration : R).

Definition setCounters (speech silence : nat) (speaking : bool)
    (d : Detector) : Detector :=
  {| energyThreshold := energyThreshold d; isSpeaking := speaking;
     speechCount := speech; silenceCount := silence;
     noiseEstimate := noiseEstimate d;
     noiseInitialized := noiseInitialized d |}.

Definition processFrame (d : Detector) (m : Measurement)
    : Detector * option Posted :=
  let d :=
    if negb (isSpeaking d) || negb (noiseInitialized d)
    then updateNoiseEstimate d (fftOutput m) else d in
  let speechLikelihood :=
    detectSpeech (energyThreshold d) (energy m) (snr m) in
  if Rgtb speechLikelihood speechThreshold then
    let speech := S (speechCount d) in
    if (2 <? speech)%nat && negb (isSpeaking d) then
      (setCounters speech 0 true d,
       Some (speechStart (energy m) (snr m)))
    else (setCounters speech 0 (isSpeaking d) d, None)
  else
    let silence := S (silenceCount d) in
    if (silenceHangover <? silence)%nat && isSpeaking d then
      (setCounters 0 silence false d,
       Some (speechEnd (INR silence * frameDuration)))
    else (setCounters 0 silence (isSpeaking d) d, None).

(** Frame after frame; the messages posted are listed in order, one
    entry per frame. *)
Fixpoint runFrames (d : Detector) (frames : list Measurement)
    : Detector * list (option Posted) :=
  match frames with
  | [] => (d, [])
  | m :: rest =>
      let '(d1, posted) := processFrame d m in
      let '(d2, later) := runFrames d1 rest in
      (d2, posted :: later)
  end.

End VoiceActivityDetector.

(** ** Vocabulary of the statements *)

Import AiEnhancement.

(** The part of the state the debouncer and the sequence window own. *)
Definition sameDebounce (s s' : State) : Prop :=
  modelsReady s' = modelsReady s /\
  lastGesture s' = lastGesture s /\
  lastGestureTime s' = lastGestureTime s /\
  gestureSequence s' = gestureSequence s /\
  gestureWindowStart s' = gestureWindowStart s.

(** [chained t0 evs t1]: starting from a last emission at [t0], every
    event of [evs] comes more than 350 ms after the one before it, and
    [t1] is the time of the last emission afterwards. *)
Fixpoint chained (t0 : Z) (evs : list GestureEvent) (t1 : Z) : Prop :=
  match evs with
  | [] => t1 = t0
  | e :: rest => 350 < ev_timestamp e - t0 /\ chained (ev_timestamp e) rest t1
  end.


(** The ways a call to the arbitration gateway ends without an adopted
    answer: no client and [initAI()] refuses, the request fails, or the
    reply names a gesture that matches no candidate under the gateway's
    comparison of lower-cased names. *)
Definition noAdoptedAnswer (candidates : list Candidate) (env : Arbiter)
    : Prop :=
  (clientReady env = false /\ initAI env = false) \/
  reply env = CallFailed \/
  (exists g confidence explanation,
     reply env = Replied g confidence explanation /\
     forall c, In c candidates ->
       toLowerCase env (c_name c) <> toLowerCase env g).

(** Every hand of the frame resolved the gesture [g] (and there was one). *)
Definition frameResolves (g : string) (out : FrameOutcome) : Prop :=
  handResults out <> [] /\
  Forall (fun h => option_map d_name (detection h) = Some g)
         (handResults out).

(** Every entry of the sequence window lies within 3000 ms after the
    start of the window. *)
Definition windowBounded (s : State) : Prop :=
  Forall (fun e => gestureWindowStart s <= timestamp e
                   /\ timestamp e <= gestureWindowStart s + 3000)
         (gestureSequence s).

(** The clock does not run backwards: every frame comes at or after the
    one before it, the first at or after [t0]. *)
Fixpoint clockOrdered (t0 : Z) (frames : list Frame) : Prop :=
  match frames with
  | [] => True
  | frame :: rest => t0 <= now frame /\ clockOrdered (now frame) rest
  end.

(** The window as the hands of a frame at time [t] find it: bounded,
    opened at or before [t], and either empty or opened at most 3000 ms
    before [t]. *)
Definition windowOpenAt (t : Z) (s : State) : Prop :=
  windowBounded s /\ gestureWindowStart s <= t /\
  (gestureSequence s = [] \/ t - gestureWindowStart s <= 3000).

(** [silent g t s s' evs]: nothing was emitted between [s] and [s'], the
    debouncer being either on [g] already or inside the dwell interval. *)
Definition silent (g : string) (t : Z) (s s' : State)
    (evs : list GestureEvent) : Prop :=
  (differsFromLast g (lastGesture s) = false \/ t - lastGestureTime s <= 350)
  /\ evs = [] /\ lastGesture s' = lastGesture s
  /\ lastGestureTime s' = lastGestureTime s.

(** [emitted g t s s' evs]: exactly one event, for [g] at [t], was emitted
    between [s] and [s'], and [g] is now the last emitted name. *)
Definition emitted (g : string) (t : Z) (s s' : State)
    (evs : list GestureEvent) : Prop :=
  differsFromLast g (lastGesture s) = true /\
  350 < t - lastGestureTime s /\
  (exists c, evs = [ {| ev_name := g; ev_confidence := c;
                        ev_timestamp := t |} ]) /\
  lastGesture s' = Some g /\ lastGestureTime s' = t.

(** ** Sample sessions

    Concrete hands, frames and states on which the statements below are
    exercised. Timestamps are [Date.now()] values. *)

Definition adaptiveConfig : Config :=
  {| cfg_adaptiveThreshold := true; cfg_confidenceThreshold := 8.0%R |}.

(** A hand for which the scorer returns [detected] whatever the threshold. *)
Definition handShowing (detected : list Gesture) : Hand :=
  {| landmarks := []; estimate := fun _ => detected |}.

Definition frameShowing (t : Z) (gestureName : string) (sc : R) : Frame :=
  {| now := t;
     hands := [ handShowing [ {| name := gestureName; score := sc |} ] ] |}.

Definition frameWithoutHand (t : Z) : Frame := {| now := t; hands := [] |}.

Definition sessionStart : Z := 1700000000000.

(** Two candidates in the near-tie band: 7.6 > 0.9 x 8.0. *)
Definition nearTie : list Gesture :=
  [ {| name := "thumbs_up"; score := 8.0%R |};
    {| name := "palm"; score := 7.6%R |} ].

(** Score histories of the two candidates once the frame showing
    [nearTie] has been recorded: nine earlier scores and the current one. *)
Definition thumbsUpScores : list R := replicate 9 9.0%R ++ [8.0%R].

(** A session in which both gestures have been seen nine times before. *)
Definition rehearsedState : State :=
  set_gestureConfidenceHistory
    (<[ "palm"%string := replicate 9 8.4%R ]>
       (<[ "thumbs_up"%string := replicate 9 9.0%R ]> ∅))
    initialState.

(** A history in which palm has scored 7.6 ten times in a row. *)
Definition steadyPalmHistory : gmap string (list R) :=
  <[ "palm"%string := replicate 10 7.6%R ]>
    (<[ "thumbs_up"%string := thumbsUpScores ]> ∅).

(** A hand 50 units to the left of [(100, 0)], scored as [detected]. *)
Definition handAtFifty (detected : list Gesture) : Hand :=
  {| landmarks := [ {| l_x := 50%R; l_y := 0%R; l_z := 0%R |} ];
     estimate := fun _ => detected |}.

(** A session whose previous hand position is [(100, 0)]. *)
Definition trackedState : State :=
  set_motion (Some {| p_x := 100%R; p_y := 0%R |})
             {| p_x := 0%R; p_y := 0%R |} initialState.

Definition trackedBackground : BackgroundGestureService.State :=
  {| BackgroundGestureService.gestureEstimator := true;
     BackgroundGestureService.previousHandPosition :=
       Some {| p_x := 100%R; p_y := 0%R |};
     BackgroundGestureService.handVelocity := {| p_x := 0%R; p_y := 0%R |};
     BackgroundGestureService.gestureConfidenceHistory := ∅ |}.

(** The tied candidates of the arbitration example. *)
Definition tiedCandidates : list Candidate :=
  [ {| c_name := "A"; c_confidence := 8.0%R |};
    {| c_name := "B"; c_confidence := 7.9%R |} ].

(** Every recorded history holds at most ten scores. *)
Definition historiesBounded (history : gmap string (list R)) : Prop :=
  forall gestureName scores,
    history !! gestureName = Some scores -> (length scores <= 10)%nat.


(** Number of events that carry the name [g]. *)
Definition countNamed (g : string) (evs : list GestureEvent) : nat :=
  length (List.filter (fun e => String.eqb (ev_name e) g) evs).


(** [spacedBy gap t0 evs t1]: starting from a last acceptance at [t0],
    every event of [evs] comes more than [gap] ms after the one before it,
    and [t1] is the time of the last acceptance afterwards. *)
Fixpoint spacedBy (gap t0 : Z) (evs : list GestureEvent) (t1 : Z) : Prop :=
  match evs with
  | [] => t1 = t0
  | e :: rest =>
      gap < ev_timestamp e - t0 /\ spacedBy gap (ev_timestamp e) rest t1
  end.

(** A hand the background scorer sees as [detected] whatever the
    threshold, in front of the started service. *)
Definition backgroundFrame (t : Z) (gestureName : string) (sc : R) : Frame :=
  {| now := t;
     hands := [ handShowing [ {| name := gestureName; score := sc |} ] ] |}.

(** Every recorded history holds at most [n] scores. *)
Definition historiesWithin (n : nat) (history : gmap string (list R))
    : Prop :=
  forall gestureName scores,
    history !! gestureName = Some scores -> (length scores <= n)%nat.

(** The authentication state under another security setting. *)
Definition atLevel (level : string) (s : VoiceAuth.State) : VoiceAuth.State :=
  {| VoiceAuth.isAuthenticating := VoiceAuth.isAuthenticating s;
     VoiceAuth.voiceProfiles := VoiceAuth.voiceProfiles s;
     VoiceAuth.currentUser := VoiceAuth.currentUser s;
     VoiceAuth.securityLevel := level |}.

(** The profile [authenticateVoice] compares the sample with. *)
Definition profileOfCurrentUser (s : VoiceAuth.State)
    : option VoiceAuth.Profile :=
  find (fun p => VoiceAuth.sameUser (VoiceAuth.userId p)
                                    (VoiceAuth.currentUser s))
       (VoiceAuth.voiceProfiles s).

(** A sample enrolment used by the witnesses. *)
Definition aliceProfile : VoiceAuth.Profile :=
  {| VoiceAuth.userId := Some "alice"; VoiceAuth.completed := true;
     VoiceAuth.features := [3%R; 4%R] |}.

Definition aliceSession (level : string) (busy : bool) : VoiceAuth.State :=
  {| VoiceAuth.isAuthenticating := busy;
     VoiceAuth.voiceProfiles := [aliceProfile];
     VoiceAuth.currentUser := Some "alice";
     VoiceAuth.securityLevel := level |}.

(** A frame the voice activity detector rates above its speech
    threshold. *)
Definition speechLike (threshold : R)
    (m : VoiceActivityDetector.Measurement) : bool :=
  Rgtb (VoiceActivityDetector.detectSpeech threshold
          (VoiceActivityDetector.energy m) (VoiceActivityDetector.snr m))
       VoiceActivityDetector.speechThreshold.

Definition silentLike (threshold : R)
    (m : VoiceActivityDetector.Measurement) : bool :=
  negb (speechLike threshold m).

(** Length of the run of frames satisfying [p] that ends with the newest
    frame; the frames are listed newest first. *)
Fixpoint streak {A} (p : A -> bool) (newestFirst : list A) : nat :=
  match newestFirst with
  | [] => 0%nat
  | x :: older => if p x then S (streak p older) else 0%nat
  end.

Definition isStart (posted : option VoiceActivityDetector.Posted) : bool :=
  match posted with
  | Some (VoiceActivityDetector.speechStart _ _) => true
  | _ => false
  end.

Definition isEnd (posted : option VoiceActivityDetector.Posted) : bool :=
  match posted with
  | Some (VoiceActivityDetector.speechEnd _) => true
  | _ => false
  end.

Definition openUtterances (d : VoiceActivityDetector.Detector) : nat :=
  if VoiceActivityDetector.isSpeaking d then 1%nat else 0%nat.

(** Sample frames: a loud frame well above the noise, and a quiet one. *)
Definition loudFrame : VoiceActivityDetector.Measurement :=
  {| VoiceActivityDetector.energy := 0.01%R;
     VoiceActivityDetector.fftOutput :=
       replicate (VoiceActivityDetector.fftSize / 2)%nat 0.05%R;
     VoiceActivityDetector.snr := VoiceActivityDetector.decibels 25 |}.

Definition quietFrame : VoiceActivityDetector.Measurement :=
  {| VoiceActivityDetector.energy := 0%R;
     VoiceActivityDetector.fftOutput :=
       replicate (VoiceActivityDetector.fftSize / 2)%nat 0%R;
     VoiceActivityDetector.snr := VoiceActivityDetector.minusInfinity |}.

(** * Properties *)

(** ** Shared facts about the debounce block *)

(** Every hand either yields no detection and leaves the debouncer alone,
    or resolves a name and runs the debounce block on it. *)
Lemma processHand_cases config t s hand :
  match detection (snd (processHand config t s hand)) with
  | None =>
      events (snd (processHand config t s hand)) = [] /\
      sameDebounce s (fst (processHand config t s hand))
  | Some d =>
      exists s0, sameDebounce s s0 /\
        debounce t (d_name d) (d_confidence d) s0 =
          (fst (processHand config t s hand),
           events (snd (processHand config t s hand)))
  end.
Proof.
  unfold processHand.
  destruct (estimate hand _) as [|g gs] eqn:Eest; simpl.
  - split; [reflexivity | repeat split].
  - match goal with
    | |- context [rankGestures ?h ?l] => destruct (rankGestures h l) as [|top rest] eqn:Erank
    end; simpl.
    + split; [reflexivity | repeat split].
    + match goal with
      | |- context [debounce ?t ?g ?c ?s0] =>
          destruct (debounce t g c s0) as [s' evs] eqn:Edeb
      end; simpl.
      eexists; split; [| exact Edeb].
      repeat split.
Qed.

Lemma chained_app t0 t1 t2 evs1 evs2 :
  chained t0 evs1 t1 -> chained t1 evs2 t2 -> chained t0 (evs1 ++ evs2) t2.
Proof.
  revert t0. induction evs1 as [|e evs1 IH]; simpl; intros t0 H1 H2.
  - subst t1. exact H2.
  - destruct H1 as [Hgap Hrest]. split; [exact Hgap | eauto].
Qed.

Lemma chained_consecutive t0 t1 pre e1 e2 post :
  chained t0 (pre ++ e1 :: e2 :: post) t1 ->
  350 < ev_timestamp e2 - ev_timestamp e1.
Proof.
  revert t0. induction pre as [|e pre IH]; simpl; intros t0 H.
  - tauto.
  - destruct H as [_ H]. eauto.
Qed.

Lemma debounce_chained t g c s s' evs :
  debounce t g c s = (s', evs) ->
  chained (lastGestureTime s) evs (lastGestureTime s').
Proof.
  unfold debounce. intros H.
  destruct (differsFromLast g (lastGesture s)).
  - destruct (350 <? t - lastGestureTime s) eqn:Hdwell; inversion H; subst; simpl.
    + apply Z.ltb_lt in Hdwell. auto.
    + reflexivity.
  - inversion H; subst; reflexivity.
Qed.

Lemma processHand_chained config t s hand :
  chained (lastGestureTime s) (events (snd (processHand config t s hand)))
          (lastGestureTime (fst (processHand config t s hand))).
Proof.
  pose proof (processHand_cases config t s hand) as H.
  destruct (detection (snd (processHand config t s hand))) as [d|].
  - destruct H as (s0 & Hsame & Hdeb).
    apply debounce_chained in Hdeb.
    destruct Hsame as (_ & _ & Htime & _). rewrite Htime in Hdeb. exact Hdeb.
  - destruct H as [Hev (_ & _ & Htime & _)]. rewrite Hev. simpl. exact Htime.
Qed.

Lemma processHands_chained config t hs : forall s,
  chained (lastGestureTime s)
          (concat (map events (snd (processHands config t s hs))))
          (lastGestureTime (fst (processHands config t s hs))).
Proof.
  induction hs as [|hand hs IH]; intros s; simpl.
  - reflexivity.
  - pose proof (processHand_chained config t s hand) as H1.
    destruct (processHand config t s hand) as [s1 out] eqn:E1.
    specialize (IH s1).
    destruct (processHands config t s1 hs) as [s2 outs] eqn:E2.
    simpl in *. eapply chained_app; eauto.
Qed.

Lemma manageWindow_lastGestureTime t s :
  lastGestureTime (fst (manageWindow t s)) = lastGestureTime s /\
  lastGesture (fst (manageWindow t s)) = lastGesture s /\
  modelsReady (fst (manageWindow t s)) = modelsReady s.
Proof.
  unfold manageWindow.
  destruct (_ && _); simpl; auto.
Qed.

Lemma handleAbsence_lastGestureTime t s :
  lastGestureTime (handleAbsence t s) = lastGestureTime s.
Proof.
  unfold handleAbsence.
  destruct (lastGesture s); [|reflexivity].
  destruct (500 <? _); [|reflexivity].
  destruct (_ && _); reflexivity.
Qed.

Lemma detectGesture_chained config s frame :
  chained (lastGestureTime s)
          (frameEvents (snd (detectGesture config s frame)))
          (lastGestureTime (fst (detectGesture config s frame))).
Proof.
  unfold detectGesture, frameEvents.
  destruct (negb (modelsReady s)); [reflexivity|].
  pose proof (manageWindow_lastGestureTime (now frame) s) as (Hw & _).
  destruct (manageWindow (now frame) s) as [s1 actions]. simpl in Hw.
  destruct (hands frame) as [|hand hs] eqn:Eh.
  - simpl. rewrite handleAbsence_lastGestureTime. exact Hw.
  - pose proof (processHands_chained config (now frame) (hand :: hs) s1) as H.
    destruct (processHands config (now frame) s1 (hand :: hs)) as [s2 outs].
    simpl in *. rewrite <- Hw. exact H.
Qed.

Lemma runFrames_chained config frames : forall s,
  chained (lastGestureTime s)
          (emittedEvents (snd (runFrames config s frames)))
          (lastGestureTime (fst (runFrames config s frames))).
Proof.
  induction frames as [|frame frames IH]; intros s; simpl.
  - reflexivity.
  - pose proof (detectGesture_chained config s frame) as H1.
    destruct (detectGesture config s frame) as [s1 out].
    specialize (IH s1).
    destruct (runFrames config s1 frames) as [s2 outs].
    simpl in *. unfold emittedEvents in *. simpl.
    eapply chained_app; eauto.
Qed.

(** C1. Two gesture events emitted one after the other with different
    names lie at least 350 ms apart, whatever the session; and a hand whose
    resolved name differs from the last emitted one less than 350 ms after
    the last emission emits no event, adds nothing to the sequence window
    and leaves the last-emitted name and time as they were. *)
Theorem C1_dwell_between_changed_events :
  (forall config s frames pre e1 e2 post,
     emittedEvents (snd (runFrames config s frames))
       = pre ++ e1 :: e2 :: post ->
     ev_name e1 <> ev_name e2 ->
     ev_timestamp e2 - ev_timestamp e1 >= 350) /\
  (forall config t s hand d,
     detection (snd (processHand config t s hand)) = Some d ->
     differsFromLast (d_name d) (lastGesture s) = true ->
     t - lastGestureTime s < 350 ->
     events (snd (processHand config t s hand)) = [] /\
     gestureSequence (fst (processHand config t s hand)) = gestureSequence s /\
     lastGesture (fst (processHand config t s hand)) = lastGesture s /\
     lastGestureTime (fst (processHand config t s hand)) = lastGestureTime s).
Proof.
  split.
  - intros config s frames pre e1 e2 post Hev _.
    pose proof (runFrames_chained config frames s) as H.
    rewrite Hev in H. apply chained_consecutive in H. lia.
  - intros config t s hand d Hd Hdiff Hearly.
    pose proof (processHand_cases config t s hand) as H.
    rewrite Hd in H. destruct H as (s0 & (_ & Hl & Ht & Hs & _) & Hdeb).
    unfold debounce in Hdeb. rewrite Hl, Hdiff, Ht in Hdeb.
    destruct (350 <? t - lastGestureTime s) eqn:Hdwell.
    + apply Z.ltb_lt in Hdwell. lia.
    + inversion Hdeb as [[Hs0 Hevs]]. rewrite <- Hs0. auto.
Qed.

Lemma C1_dwell_witness :
  ev_timestamp {| ev_name := "palm"; ev_confidence := 8.7%R;
                  ev_timestamp := sessionStart + 1400 |}
  - ev_timestamp {| ev_name := "thumbs_up"; ev_confidence := 8.5%R;
                    ev_timestamp := sessionStart + 1000 |} >= 350 /\
  (let s := fst (processHand adaptiveConfig (sessionStart + 1000) initialState
                   (handShowing [ {| name := "thumbs_up"; score := 8.5%R |} ])) in
   let r := processHand adaptiveConfig (sessionStart + 1200) s
              (handShowing [ {| name := "palm"; score := 8.7%R |} ]) in
   events (snd r) = [] /\
   gestureSequence (fst r) = gestureSequence s /\
   lastGesture (fst r) = lastGesture s /\
   lastGestureTime (fst r) = lastGestureTime s).
Proof.
  destruct C1_dwell_between_changed_events as [Hpairs Hnoise].
  split.
  - apply (Hpairs adaptiveConfig initialState
             [ frameShowing (sessionStart + 1000) "thumbs_up" 8.5;
               frameShowing (sessionStart + 1400) "palm" 8.7 ]
             []
             {| ev_name := "thumbs_up"; ev_confidence := 8.5%R;
                ev_timestamp := sessionStart + 1000 |}
             {| ev_name := "palm"; ev_confidence := 8.7%R;
                ev_timestamp := sessionStart + 1400 |}
             []).
    + reflexivity.
    + discriminate.
  - intros s r.
    eapply (Hnoise adaptiveConfig (sessionStart + 1200) s
              (handShowing [ {| name := "palm"; score := 8.7%R |} ])).
    + reflexivity.
    + reflexivity.
    + vm_compute. reflexivity.
Defined.

(** ** The adaptive threshold *)

(** Settles the comparisons of real numbers met in a goal. *)
Ltac settle_reals :=
  unfold Rgtb, Rltb, Reqb, Rmax, Rmin in *;
  repeat match goal with
    | |- context [Rgt_dec ?a ?b] => destruct (Rgt_dec a b); try lra
    | |- context [Rlt_dec ?a ?b] => destruct (Rlt_dec a b); try lra
    | |- context [Rle_dec ?a ?b] => destruct (Rle_dec a b); try lra
    | |- context [Req_dec_T ?a ?b] => destruct (Req_dec_T a b); try lra
    | H : context [Rle_dec ?a ?b] |- _ => destruct (Rle_dec a b); try lra
    | H : context [Rgt_dec ?a ?b] |- _ => destruct (Rgt_dec a b); try lra
    | H : context [Rlt_dec ?a ?b] |- _ => destruct (Rlt_dec a b); try lra
    end.

Lemma clampThreshold_bounds x : (6 <= clampThreshold x <= 9)%R.
Proof. unfold clampThreshold. settle_reals. Qed.

Lemma smoothThreshold_blend previous target :
  smoothThreshold previous target = (0.9 * target + 0.1 * previous)%R.
Proof. unfold smoothThreshold. settle_reals. Qed.

Lemma smoothThreshold_bounds previous target :
  (6 <= previous <= 9)%R -> (6 <= target <= 9)%R ->
  (6 <= smoothThreshold previous target <= 9)%R.
Proof. intros Hp Ht. rewrite smoothThreshold_blend. lra. Qed.

Lemma debounce_adaptiveThreshold t g c s :
  adaptiveThreshold (fst (debounce t g c s)) = adaptiveThreshold s.
Proof.
  unfold debounce.
  destruct (differsFromLast _ _); [|reflexivity].
  destruct (350 <? _); [|reflexivity].
  unfold commitGesture. destruct (gestureSequence s); reflexivity.
Qed.

(** The threshold after a hand: unchanged when the scorer returns nothing,
    blended with the working threshold otherwise. *)
Lemma processHand_adaptiveThreshold config t s hand :
  let working :=
    workingThreshold config (adaptiveThreshold s)
      (movementMagnitude s (calculateHandCenter (landmarks hand))) in
  adaptiveThreshold (fst (processHand config t s hand)) =
    match estimate hand working with
    | [] => adaptiveThreshold s
    | _ :: _ => smoothThreshold (adaptiveThreshold s) working
    end.
Proof.
  unfold processHand. simpl.
  destruct (estimate hand _) as [|g gs]; simpl; [reflexivity|].
  match goal with
  | |- context [rankGestures ?h ?l] => destruct (rankGestures h l) as [|top rest]
  end; simpl; [reflexivity|].
  match goal with
  | |- context [debounce ?t ?g ?c ?s0] =>
      pose proof (debounce_adaptiveThreshold t g c s0) as H;
      destruct (debounce t g c s0) as [s' evs]
  end. simpl in *. exact H.
Qed.

Lemma motionEnhance_id gestureName velocity :
  motionEnhance gestureName velocity = gestureName.
Proof.
  unfold motionEnhance.
  destruct (String.eqb gestureName "swipe_left") eqn:El; simpl.
  - apply String.eqb_eq in El. subst gestureName.
    destruct (Rgtb _ _); reflexivity.
  - destruct (String.eqb gestureName "swipe_right") eqn:Er; simpl; [|reflexivity].
    apply String.eqb_eq in Er. destruct (Rltb _ _); congruence.
Qed.

Lemma insertDesc_In {A} (key : A -> R) x y l :
  In y (insertDesc key x l) <-> y = x \/ In y l.
Proof.
  induction l as [|z l IH]; simpl.
  - intuition.
  - destruct (Rgtb (key z) (key x)); simpl; [rewrite IH|]; intuition.
Qed.

Lemma sortDesc_In {A} (key : A -> R) y l :
  In y (sortDesc key l) <-> In y l.
Proof.
  induction l as [|x l IH]; simpl; [tauto|].
  rewrite insertDesc_In, IH. intuition.
Qed.

Lemma In_take {A} n (x : A) (l : list A) : In x (take n l) -> In x l.
Proof.
  revert l. induction n as [|n IH]; intros [|y l]; simpl; intuition.
Qed.

Lemma rankGestures_In history detected g :
  In g (rankGestures history detected) -> In g detected.
Proof.
  unfold rankGestures. intros H.
  apply (sortDesc_In score), (In_take 3).
  destruct (take 3 (sortDesc score detected)) as [|a [|b rest]]; try exact H.
  destruct (Rgtb (score b) _); [|exact H].
  destruct (Rgtb _ _); [|exact H].
  simpl in *. intuition.
Qed.

(** The detection of a hand names a gesture the scorer returned for the
    working threshold of that hand. *)
Lemma processHand_detection config t s hand d :
  detection (snd (processHand config t s hand)) = Some d ->
  exists g,
    In g (estimate hand
            (workingThreshold config (adaptiveThreshold s)
               (movementMagnitude s (calculateHandCenter (landmarks hand)))))
    /\ d_name d = name g /\ d_confidence d = score g.
Proof.
  unfold processHand. simpl.
  destruct (estimate hand _) as [|g0 gs] eqn:Eest; simpl; [discriminate|].
  match goal with
  | |- context [rankGestures ?h ?l] =>
      destruct (rankGestures h l) as [|top rest] eqn:Erank
  end; simpl; [discriminate|].
  match goal with
  | |- context [debounce ?t ?g ?c ?s0] => destruct (debounce t g c s0) as [s' evs]
  end. simpl. intros [= <-]. simpl.
  exists top. split; [|split; [apply motionEnhance_id | reflexivity]].
  assert (In top (g0 :: gs)) as Hin
    by (eapply rankGestures_In; rewrite Erank; left; reflexivity).
  exact Hin.
Qed.

Lemma workingThreshold_bounds config adaptive magnitude :
  cfg_adaptiveThreshold config = true ->
  (6 <= workingThreshold config adaptive magnitude <= 9)%R.
Proof.
  intros Hon. unfold workingThreshold. rewrite Hon. apply clampThreshold_bounds.
Qed.

Lemma processHand_keeps_range config t s hand :
  cfg_adaptiveThreshold config = true ->
  (6 <= adaptiveThreshold s <= 9)%R ->
  (6 <= adaptiveThreshold (fst (processHand config t s hand)) <= 9)%R.
Proof.
  intros Hon Hin. rewrite processHand_adaptiveThreshold.
  destruct (estimate hand _); [exact Hin|].
  apply smoothThreshold_bounds; [exact Hin|].
  apply workingThreshold_bounds, Hon.
Qed.

Lemma processHands_keeps_range config t hs : forall s,
  cfg_adaptiveThreshold config = true ->
  (6 <= adaptiveThreshold s <= 9)%R ->
  (6 <= adaptiveThreshold (fst (processHands config t s hs)) <= 9)%R.
Proof.
  induction hs as [|hand hs IH]; intros s Hon Hin; simpl; [exact Hin|].
  pose proof (processHand_keeps_range config t s hand Hon Hin) as H1.
  destruct (processHand config t s hand) as [s1 out].
  specialize (IH s1 Hon H1).
  destruct (processHands config t s1 hs) as [s2 outs]. exact IH.
Qed.

Lemma manageWindow_adaptiveThreshold t s :
  adaptiveThreshold (fst (manageWindow t s)) = adaptiveThreshold s.
Proof. unfold manageWindow. destruct (_ && _); reflexivity. Qed.

Lemma handleAbsence_adaptiveThreshold t s :
  adaptiveThreshold (handleAbsence t s) = adaptiveThreshold s.
Proof.
  unfold handleAbsence.
  destruct (lastGesture s); [|reflexivity].
  destruct (500 <? _); [|reflexivity].
  destruct (_ && _); reflexivity.
Qed.

Lemma detectGesture_keeps_range config s frame :
  cfg_adaptiveThreshold config = true ->
  (6 <= adaptiveThreshold s <= 9)%R ->
  (6 <= adaptiveThreshold (fst (detectGesture config s frame)) <= 9)%R.
Proof.
  intros Hon Hin. unfold detectGesture.
  destruct (negb (modelsReady s)); [exact Hin|].
  pose proof (manageWindow_adaptiveThreshold (now frame) s) as Hw.
  destruct (manageWindow (now frame) s) as [s1 actions]. simpl in Hw.
  rewrite <- Hw in Hin.
  destruct (hands frame) as [|hand hs].
  - simpl. rewrite handleAbsence_adaptiveThreshold. exact Hin.
  - pose proof (processHands_keeps_range config (now frame) (hand :: hs) s1 Hon Hin) as H.
    destruct (processHands config (now frame) s1 (hand :: hs)) as [s2 outs].
    exact H.
Qed.

Lemma runFrames_keeps_range config frames : forall s,
  cfg_adaptiveThreshold config = true ->
  (6 <= adaptiveThreshold s <= 9)%R ->
  (6 <= adaptiveThreshold (fst (runFrames config s frames)) <= 9)%R.
Proof.
  induction frames as [|frame frames IH]; intros s Hon Hin; simpl; [exact Hin|].
  pose proof (detectGesture_keeps_range config s frame Hon Hin) as H1.
  destruct (detectGesture config s frame) as [s1 out].
  specialize (IH s1 Hon H1).
  destruct (runFrames config s1 frames) as [s2 outs]. exact IH.
Qed.

Lemma background_workingThreshold_bounds magnitude :
  (7.5 <= BackgroundGestureService.workingThreshold magnitude <= 10)%R.
Proof. unfold BackgroundGestureService.workingThreshold. settle_reals. Qed.

Lemma background_motionEnhance_id gestureName velocity :
  BackgroundGestureService.motionEnhance gestureName velocity = gestureName.
Proof.
  unfold BackgroundGestureService.motionEnhance.
  destruct (String.eqb gestureName "swipe_left") eqn:El; simpl.
  - apply String.eqb_eq in El. subst gestureName.
    destruct (Rgtb _ _); reflexivity.
  - destruct (String.eqb gestureName "swipe_right") eqn:Er; simpl; [|reflexivity].
    apply String.eqb_eq in Er. destruct (Rltb _ _); congruence.
Qed.

Lemma insertDesc_nonempty {A} (key : A -> R) x l : insertDesc key x l <> [].
Proof. destruct l; simpl; [|destruct (Rgtb _ _)]; discriminate. Qed.

Lemma rankGestures_nonempty history g gs :
  rankGestures history (g :: gs) <> [].
Proof.
  unfold rankGestures.
  change (sortDesc score (g :: gs))
    with (insertDesc score g (sortDesc score gs)).
  pose proof (insertDesc_nonempty score g (sortDesc score gs)) as Hne.
  destruct (insertDesc score g (sortDesc score gs)) as [|a l]; [congruence|].
  simpl. destruct l as [|b l]; simpl; [discriminate|].
  destruct (Rgtb (score b) _); [|discriminate].
  destruct (Rgtb _ _); discriminate.
Qed.

(** A hand yields a detection exactly when the scorer returns at least
    one gesture for the working threshold. *)
Lemma processHand_detects config t s hand :
  estimate hand
    (workingThreshold config (adaptiveThreshold s)
       (movementMagnitude s (calculateHandCenter (landmarks hand)))) <> []
  <-> exists d, detection (snd (processHand config t s hand)) = Some d.
Proof.
  unfold processHand. simpl.
  destruct (estimate hand _) as [|g0 gs] eqn:Eest; simpl.
  - split; [congruence | intros [d Hd]; discriminate].
  - split; [|discriminate]. intros _.
    match goal with
    | |- context [rankGestures ?h ?l] =>
        pose proof (rankGestures_nonempty h g0 gs) as Hne;
        destruct (rankGestures h l) as [|top rest]
    end; [congruence|].
    match goal with
    | |- context [debounce ?t ?g ?c ?s0] =>
        destruct (debounce t g c s0) as [s' evs]
    end. simpl. eauto.
Qed.

Lemma collectScores_snoc detected g :
  BackgroundGestureService.collectScores (detected ++ [g])
  = <[ name g := score g ]>
      (BackgroundGestureService.collectScores detected).
Proof.
  unfold BackgroundGestureService.collectScores.
  rewrite fold_left_app. reflexivity.
Qed.

(** The score recorded under a detected name is the score of a detected
    gesture of that name. *)
Lemma collectScores_named detected g :
  In g detected ->
  exists g',
    In g' detected /\ name g' = name g /\
    BackgroundGestureService.collectScores detected !! name g
      = Some (score g').
Proof.
  induction detected as [|x detected IH] using rev_ind; [intros []|].
  intros Hin. rewrite collectScores_snoc.
  destruct (decide (name x = name g)) as [Heq | Hne].
  - exists x. split; [apply in_or_app; right; left; reflexivity|].
    split; [exact Heq|]. rewrite <- Heq. apply lookup_insert_eq.
  - apply in_app_or in Hin as [Hin | [-> | []]]; [|congruence].
    destruct (IH Hin) as (g' & Hin' & Hname & Hlook).
    exists g'. split; [apply in_or_app; left; exact Hin'|].
    split; [exact Hname|].
    rewrite lookup_insert_ne by exact Hne. exact Hlook.
Qed.

Lemma background_detection_scored s hand d :
  snd (BackgroundGestureService.detectGesture s hand) = Some d ->
  exists g,
    In g (estimate hand
            (BackgroundGestureService.workingThreshold
               (BackgroundGestureService.movementMagnitude
                  (BackgroundGestureService.nextVelocity s
                     (BackgroundGestureService.calculateHandCenter
                        (landmarks hand))))))
    /\ d_name d = name g /\ d_confidence d = score g.
Proof.
  unfold BackgroundGestureService.detectGesture.
  destruct (negb _); simpl; [discriminate|].
  destruct (sortDesc score (estimate hand _)) as [|top rest] eqn:Esort; simpl;
    [discriminate|].
  intros [= <-]. simpl.
  assert (Htop : In top (estimate hand
            (BackgroundGestureService.workingThreshold
               (BackgroundGestureService.movementMagnitude
                  (BackgroundGestureService.nextVelocity s
                     (BackgroundGestureService.calculateHandCenter
                        (landmarks hand)))))))
    by (apply (sortDesc_In score); rewrite Esort; left; reflexivity).
  destruct (collectScores_named _ top Htop) as (g' & Hin & Hname & Hlook).
  exists g'. rewrite background_motionEnhance_id, Hlook.
  split; [exact Hin|]. split; [symmetry; exact Hname | reflexivity].
Qed.

Lemma background_detects s hand :
  BackgroundGestureService.gestureEstimator s = true ->
  estimate hand
    (BackgroundGestureService.workingThreshold
       (BackgroundGestureService.movementMagnitude
          (BackgroundGestureService.nextVelocity s
             (BackgroundGestureService.calculateHandCenter
                (landmarks hand))))) <> []
  <-> exists d, snd (BackgroundGestureService.detectGesture s hand) = Some d.
Proof.
  intros Hready. unfold BackgroundGestureService.detectGesture.
  rewrite Hready. simpl.
  destruct (estimate hand _) as [|g gs]; simpl.
  - split; [congruence | intros [d Hd]; discriminate].
  - pose proof (insertDesc_nonempty score g (sortDesc score gs)) as Hne.
    change (sortDesc score (g :: gs))
      with (insertDesc score g (sortDesc score gs)).
    destruct (insertDesc score g (sortDesc score gs)) as [|top rest];
      [congruence|].
    simpl. split; [eauto | discriminate].
Qed.

(** C2, as amended. With [config.adaptiveThreshold] switched on, a
    threshold that starts within [6.0, 9.0] is within [6.0, 9.0] after any
    number of frames; for every hand the working threshold (adjust, then
    clamp) and the smoothed threshold kept for the next frame are both
    within [6.0, 9.0]. The working threshold is the minimum score handed
    to the scorer: the hand yields a detection exactly when the scorer
    returns at least one gesture for it, the gesture selected is one of
    those and is reported with its score, and that score is at least the
    working threshold whenever the scorer returns only gestures that
    reach the minimum it is given. The background service, which has no
    switch and no smoothing, works with a threshold within [7.5, 10.0] in
    the same way. *)
Theorem C2_threshold_within_bounds :
  (forall config s frames,
     cfg_adaptiveThreshold config = true ->
     (6 <= adaptiveThreshold s <= 9)%R ->
     (6 <= adaptiveThreshold (fst (runFrames config s frames)) <= 9)%R) /\
  (forall config t s hand,
     cfg_adaptiveThreshold config = true ->
     (6 <= adaptiveThreshold s <= 9)%R ->
     let working :=
       workingThreshold config (adaptiveThreshold s)
         (movementMagnitude s (calculateHandCenter (landmarks hand))) in
     let outcome := detection (snd (processHand config t s hand)) in
     (6 <= working <= 9)%R /\
     (6 <= adaptiveThreshold (fst (processHand config t s hand)) <= 9)%R /\
     (estimate hand working <> [] <-> exists d, outcome = Some d) /\
     (forall d, outcome = Some d ->
        exists g, In g (estimate hand working) /\
                  d_name d = name g /\ d_confidence d = score g) /\
     ((forall g, In g (estimate hand working) -> (working <= score g)%R) ->
      forall d, outcome = Some d -> (6 <= working <= d_confidence d)%R)) /\
  (forall s hand,
     let working :=
       BackgroundGestureService.workingThreshold
         (BackgroundGestureService.movementMagnitude
            (BackgroundGestureService.nextVelocity s
               (BackgroundGestureService.calculateHandCenter
                  (landmarks hand)))) in
     let outcome := snd (BackgroundGestureService.detectGesture s hand) in
     (7.5 <= working <= 10)%R /\
     (BackgroundGestureService.gestureEstimator s = true ->
      (estimate hand working <> [] <-> exists d, outcome = Some d)) /\
     (forall d, outcome = Some d ->
        exists g, In g (estimate hand working) /\
                  d_name d = name g /\ d_confidence d = score g) /\
     ((forall g, In g (estimate hand working) -> (working <= score g)%R) ->
      forall d, outcome = Some d -> (7.5 <= working <= d_confidence d)%R)).
Proof.
  split; [|split].
  - intros config s frames Hon Hin. apply runFrames_keeps_range; assumption.
  - intros config t s hand Hon Hin working outcome.
    assert (Hw : (6 <= working <= 9)%R)
      by (apply workingThreshold_bounds, Hon).
    split; [exact Hw|]. split; [|split; [|split]].
    + apply processHand_keeps_range; assumption.
    + apply processHand_detects.
    + intros d Hd. apply (processHand_detection config t s hand d Hd).
    + intros Hscorer d Hd.
      destruct (processHand_detection config t s hand d Hd)
        as (g & Hg & _ & Hc).
      rewrite Hc. specialize (Hscorer g Hg). fold working in Hscorer. lra.
  - intros s hand working outcome.
    assert (Hw : (7.5 <= working <= 10)%R)
      by apply background_workingThreshold_bounds.
    split; [exact Hw|]. split; [|split].
    + intros Hready. apply background_detects, Hready.
    + intros d Hd. apply (background_detection_scored s hand d Hd).
    + intros Hscorer d Hd.
      destruct (background_detection_scored s hand d Hd)
        as (g & Hg & _ & Hc).
      rewrite Hc. specialize (Hscorer g Hg). fold working in Hscorer. lra.
Qed.

Lemma C2_threshold_witness :
  let hand := handShowing [ {| name := "thumbs_up"; score := 8.5%R |} ] in
  (6 <= adaptiveThreshold
          (fst (runFrames adaptiveConfig initialState
                  [ frameShowing (sessionStart + 1000) "thumbs_up" 8.5;
                    frameShowing (sessionStart + 1400) "palm" 8.7 ])) <= 9)%R /\
  (6 <= adaptiveThreshold
          (fst (processHand adaptiveConfig (sessionStart + 1000) initialState
                  hand))
     <= 9)%R /\
  (forall d,
     detection (snd (processHand adaptiveConfig (sessionStart + 1000)
                       initialState hand)) = Some d ->
     (6 <= workingThreshold adaptiveConfig (adaptiveThreshold initialState)
             (movementMagnitude initialState
                (calculateHandCenter (landmarks hand)))
        <= d_confidence d)%R).
Proof.
  intros hand.
  destruct C2_threshold_within_bounds as (Hrun & Hhand & _).
  assert (Hrange : (6 <= adaptiveThreshold initialState <= 9)%R)
    by (simpl; lra).
  destruct (Hhand adaptiveConfig (sessionStart + 1000) initialState hand
              eq_refl Hrange) as (_ & Hkept & _ & _ & Hscore).
  split; [apply Hrun; [reflexivity | exact Hrange]|].
  split; [exact Hkept|].
  apply Hscore. intros g [<- | []].
  unfold workingThreshold, adjustForMotion, clampThreshold, movementMagnitude.
  simpl. settle_reals.
Defined.

(** C2, as stated, fails when [config.adaptiveThreshold] is off: with
    the configured threshold 5 the working threshold is 5, unclamped, and
    the threshold kept for the next frame moves from 7.5 to 5.25; both are
    below the floor 6.0. *)
Lemma C2_counterexample :
  let config :=
    {| cfg_adaptiveThreshold := false; cfg_confidenceThreshold := 5%R |} in
  let hand := handShowing [ {| name := "thumbs_up"; score := 8.5%R |} ] in
  let working :=
    workingThreshold config (adaptiveThreshold initialState)
      (movementMagnitude initialState (calculateHandCenter (landmarks hand))) in
  let updated :=
    adaptiveThreshold
      (fst (processHand config (sessionStart + 1000) initialState hand)) in
  (6 <= adaptiveThreshold initialState <= 9)%R /\
  working = 5%R /\ updated = 5.25%R /\
  ~ (6 <= working <= 9)%R /\ ~ (6 <= updated <= 9)%R.
Proof.
  intros config hand working updated.
  assert (Hw : working = 5%R) by reflexivity.
  assert (Hu : updated = 5.25%R).
  { unfold updated. rewrite processHand_adaptiveThreshold. fold working.
    rewrite Hw. simpl. rewrite smoothThreshold_blend. simpl. lra. }
  split; [simpl; lra|]. split; [exact Hw|]. split; [exact Hu|].
  rewrite Hu, Hw. split; lra.
Qed.

(** C3, as amended. When the scorer returns at least one gesture for a
    hand, the threshold kept for the next frame is
    0.9 x target + 0.1 x previous, where target is the working (clamped)
    threshold of this hand: the weight 0.9 goes to the new target. *)
Theorem C3_blend_weights config t s hand :
  let target :=
    workingThreshold config (adaptiveThreshold s)
      (movementMagnitude s (calculateHandCenter (landmarks hand))) in
  estimate hand target <> [] ->
  adaptiveThreshold (fst (processHand config t s hand)) =
    (0.9 * target + 0.1 * adaptiveThreshold s)%R.
Proof.
  intros target Hsome. rewrite processHand_adaptiveThreshold. fold target.
  destruct (estimate hand target); [congruence|].
  apply smoothThreshold_blend.
Qed.

Lemma C3_blend_witness :
  adaptiveThreshold
    (fst (processHand adaptiveConfig (sessionStart + 1000) initialState
            (handShowing [ {| name := "thumbs_up"; score := 8.5%R |} ]))) =
  (0.9 * workingThreshold adaptiveConfig (adaptiveThreshold initialState)
           (movementMagnitude initialState
              (calculateHandCenter
                 (landmarks
                    (handShowing [ {| name := "thumbs_up"; score := 8.5%R |} ]))))
   + 0.1 * adaptiveThreshold initialState)%R.
Proof.
  apply (C3_blend_weights adaptiveConfig (sessionStart + 1000) initialState
           (handShowing [ {| name := "thumbs_up"; score := 8.5%R |} ])).
  discriminate.
Defined.

(** C3, as stated, fails: from the initial threshold 7.5 a still hand gives
    the target 7.0, and the threshold becomes 7.05, not
    0.9 x 7.5 + 0.1 x 7.0 = 7.45. *)
Lemma C3_counterexample :
  let hand := handShowing [ {| name := "thumbs_up"; score := 8.5%R |} ] in
  let previous := adaptiveThreshold initialState in
  let target :=
    workingThreshold adaptiveConfig previous
      (movementMagnitude initialState (calculateHandCenter (landmarks hand))) in
  let updated :=
    adaptiveThreshold
      (fst (processHand adaptiveConfig (sessionStart + 1000) initialState hand)) in
  previous = 7.5%R /\ target = 7.0%R /\ updated = 7.05%R /\
  updated <> (0.9 * previous + 0.1 * target)%R.
Proof.
  intros hand previous target updated.
  assert (Ht : target = 7.0%R).
  { unfold target, previous, workingThreshold, adjustForMotion, clampThreshold,
      movementMagnitude.
    simpl. settle_reals. }
  assert (Hu : updated = 7.05%R).
  { unfold updated. rewrite processHand_adaptiveThreshold. fold previous target.
    simpl. rewrite smoothThreshold_blend, Ht. unfold previous. simpl. lra. }
  repeat split; [exact Ht | exact Hu |].
  rewrite Hu, Ht. unfold previous. simpl. lra.
Qed.

(** ** Stability and the near-tie swap *)

Lemma stabilityOf_pos scores : (0 < stabilityOf scores)%R.
Proof.
  unfold stabilityOf, stdDevOf.
  pose proof (sqrt_pos (varianceOf scores)) as Hs.
  apply Rdiv_lt_0_compat; lra.
Qed.

Lemma calculateGestureStability_nonneg history gestureName :
  (0 <= calculateGestureStability history gestureName)%R.
Proof.
  unfold calculateGestureStability.
  destruct (history !! gestureName) as [scores|]; [|lra].
  destruct (length scores <? 3)%nat; [lra|].
  pose proof (stabilityOf_pos scores). lra.
Qed.


Lemma sortDesc_nearTie : sortDesc score nearTie = nearTie.
Proof. unfold nearTie, sortDesc. simpl. settle_reals; reflexivity. Qed.


Lemma thumbsUpScores_variance : varianceOf thumbsUpScores = 0.09%R.
Proof.
  unfold varianceOf, meanOf, reduceSum, thumbsUpScores. simpl. lra.
Qed.


Lemma thumbsUpScores_stability : stabilityOf thumbsUpScores = (1 / 0.31)%R.
Proof.
  unfold stabilityOf, stdDevOf. rewrite thumbsUpScores_variance.
  rewrite (sqrt_lem_1 0.09 0.3) by lra. f_equal. lra.
Qed.


(** The name a hand resolves to is the head of the ranking computed on the
    history extended with the scores of this hand. *)
Lemma processHand_resolved_name config t s hand :
  option_map d_name (detection (snd (processHand config t s hand))) =
    match estimate hand
            (workingThreshold config (adaptiveThreshold s)
               (movementMagnitude s (calculateHandCenter (landmarks hand))))
    with
    | [] => None
    | detected =>
        option_map name
          (head (rankGestures
                   (recordScores (gestureConfidenceHistory s) detected)
                   detected))
    end.
Proof.
  unfold processHand. simpl.
  destruct (estimate hand _) as [|g gs]; simpl; [reflexivity|].
  match goal with
  | |- context [rankGestures ?h ?l] => destruct (rankGestures h l) as [|top rest]
  end; simpl; [reflexivity|].
  match goal with
  | |- context [debounce ?t ?g ?c ?s0] => destruct (debounce t g c s0) as [s' evs]
  end. simpl. rewrite motionEnhance_id. reflexivity.
Qed.

Lemma rankGestures_two history detected first second :
  sortDesc score detected = [first; second] ->
  rankGestures history detected =
    if Rgtb (score second) (score first * 0.9) then
      if Rgtb (calculateGestureStability history (name second))
              (calculateGestureStability history (name first) * 1.5)
      then [second; first] else [first; second]
    else [first; second].
Proof. intros Hsort. unfold rankGestures. rewrite Hsort. reflexivity. Qed.





Lemma steadyPalm_stabilities :
  calculateGestureStability steadyPalmHistory "thumbs_up" = (1 / 0.31)%R /\
  calculateGestureStability steadyPalmHistory "palm" = 100%R.
Proof.
  unfold calculateGestureStability.
  replace (steadyPalmHistory !! "thumbs_up") with (Some thumbsUpScores)
    by (vm_compute; reflexivity).
  replace (steadyPalmHistory !! "palm") with (Some (replicate 10 7.6%R))
    by (vm_compute; reflexivity).
  change (length thumbsUpScores <? 3)%nat with false.
  change (length (replicate 10 7.6%R) <? 3)%nat with false.
  split; [apply thumbsUpScores_stability |].
  unfold stabilityOf, stdDevOf.
  replace (varianceOf (replicate 10 7.6%R)) with 0%R
    by (unfold varianceOf, meanOf, reduceSum; simpl; lra).
  rewrite sqrt_0. lra.
Qed.



(** ** The directional rule *)

(** C7. The velocity test attached to swipe_left and swipe_right never
    changes the outcome: whatever the hand velocity, the resolved name is
    the name of the top-ranked candidate, in the detector and in the
    background service alike. *)
Theorem C7_velocity_never_replaces_swipe :
  (forall gestureName velocity,
     motionEnhance gestureName velocity = gestureName /\
     BackgroundGestureService.motionEnhance gestureName velocity
       = gestureName) /\
  (forall config t s hand top rest,
     let detected :=
       estimate hand
         (workingThreshold config (adaptiveThreshold s)
            (movementMagnitude s (calculateHandCenter (landmarks hand)))) in
     rankGestures (recordScores (gestureConfidenceHistory s) detected)
                  detected = top :: rest ->
     option_map d_name (detection (snd (processHand config t s hand)))
       = Some (name top)) /\
  (forall s hand top rest,
     BackgroundGestureService.gestureEstimator s = true ->
     sortDesc score
       (estimate hand
          (BackgroundGestureService.workingThreshold
             (BackgroundGestureService.movementMagnitude
                (BackgroundGestureService.nextVelocity s
                   (BackgroundGestureService.calculateHandCenter
                      (landmarks hand))))))
       = top :: rest ->
     option_map d_name (snd (BackgroundGestureService.detectGesture s hand))
       = Some (name top)).
Proof.
  split; [|split].
  - intros gestureName velocity. split.
    + apply motionEnhance_id.
    + apply background_motionEnhance_id.
  - intros config t s hand top rest detected Hrank.
    rewrite processHand_resolved_name. unfold detected in Hrank. clear detected.
    destruct (estimate hand _) as [|g gs]; [discriminate Hrank|].
    cbv zeta. rewrite Hrank. reflexivity.
  - intros s hand top rest Hready Hsort.
    unfold BackgroundGestureService.detectGesture.
    rewrite Hready. simpl. rewrite Hsort. simpl.
    rewrite background_motionEnhance_id. reflexivity.
Qed.

Lemma C7_velocity_witness :
  option_map d_name
    (detection (snd (processHand adaptiveConfig (sessionStart + 1000)
                       trackedState
                       (handAtFifty [ {| name := "swipe_left";
                                         score := 8.5%R |} ]))))
    = Some "swipe_left"%string /\
  option_map d_name
    (snd (BackgroundGestureService.detectGesture trackedBackground
            (handAtFifty [ {| name := "swipe_right"; score := 9.5%R |} ])))
    = Some "swipe_right"%string.
Proof.
  destruct C7_velocity_never_replaces_swipe as (_ & Hfg & Hbg).
  split.
  - apply (Hfg adaptiveConfig (sessionStart + 1000) trackedState
             (handAtFifty [ {| name := "swipe_left"; score := 8.5%R |} ])
             {| name := "swipe_left"; score := 8.5%R |} []).
    reflexivity.
  - apply (Hbg trackedBackground
             (handAtFifty [ {| name := "swipe_right"; score := 9.5%R |} ])
             {| name := "swipe_right"; score := 9.5%R |} []).
    + reflexivity.
    + reflexivity.
Defined.

(** ** The arbitration gateway *)

Lemma sortDesc_head_max {A} (key : A -> R) (l : list A) :
  l <> [] ->
  exists c, head (sortDesc key l) = Some c /\ In c l /\
            forall c', In c' l -> (key c' <= key c)%R.
Proof.
  induction l as [|x l IH]; [congruence|]. intros _.
  destruct l as [|y l'].
  - exists x. simpl. repeat split; auto. intros c' [<- | []]. lra.
  - destruct IH as (m & Hhead & Hin & Hmax); [discriminate|].
    change (sortDesc key (x :: y :: l'))
      with (insertDesc key x (sortDesc key (y :: l'))).
    destruct (sortDesc key (y :: l')) as [|z zs]; [discriminate Hhead|].
    simpl in Hhead. injection Hhead as ->.
    simpl insertDesc. unfold Rgtb. destruct (Rgt_dec (key m) (key x)).
    + exists m. split; [reflexivity|]. split; [right; exact Hin|].
      intros c' [<- | Hc']; [lra | auto].
    + exists x. split; [reflexivity|]. split; [left; reflexivity|].
      intros c' [<- | Hc']; [lra|]. specialize (Hmax c' Hc'). lra.
Qed.

Lemma highestConfidence_max candidates :
  candidates <> [] ->
  exists c, highestConfidence candidates = Some (plain c) /\
            In c candidates /\
            forall c', In c' candidates ->
              (c_confidence c' <= c_confidence c)%R.
Proof.
  intros Hne. destruct (sortDesc_head_max c_confidence candidates Hne)
    as (c & Hhead & Hin & Hmax).
  exists c. unfold highestConfidence. rewrite Hhead. auto.
Qed.

Lemma findCandidate_none env g candidates :
  (forall c, In c candidates ->
     toLowerCase env (c_name c) <> toLowerCase env g) ->
  findCandidate env g candidates = None.
Proof.
  unfold findCandidate. induction candidates as [|c cs IH]; intros Hno; simpl.
  - reflexivity.
  - destruct (String.eqb _ _) eqn:E.
    + apply String.eqb_eq in E. exfalso. apply (Hno c); [left; reflexivity | exact E].
    + apply IH. intros c' Hc'. apply Hno. right. exact Hc'.
Qed.

Lemma processAmbiguousGesture_fallback candidates env :
  noAdoptedAnswer candidates env ->
  processAmbiguousGesture candidates env = highestConfidence candidates.
Proof.
  unfold processAmbiguousGesture.
  intros [[Hc Hi] | [Hfail | (g & confidence & explanation & Hr & Hno)]].
  - rewrite Hc, Hi. reflexivity.
  - rewrite Hfail. destruct (_ && _); reflexivity.
  - rewrite Hr, (findCandidate_none env g candidates Hno).
    destruct (_ && _); reflexivity.
Qed.

(** C5, as amended. For a non-empty candidate list, when the client is
    missing and cannot be initialised, when the request fails, or when the
    reply names a gesture that matches no submitted candidate once both
    names are lower-cased, the gateway returns a submitted candidate of
    highest raw confidence, unchanged, and no failure reaches the caller;
    with the candidates [{A, 8.0}, {B, 7.9}] that candidate is A. *)
Theorem C5_fallback_to_highest_confidence :
  (forall candidates env,
     candidates <> [] ->
     noAdoptedAnswer candidates env ->
     exists c,
       processAmbiguousGesture candidates env = Some (plain c) /\
       In c candidates /\
       forall c', In c' candidates ->
         (c_confidence c' <= c_confidence c)%R) /\
  (forall env,
     noAdoptedAnswer tiedCandidates env ->
     processAmbiguousGesture tiedCandidates env
       = Some (plain {| c_name := "A"; c_confidence := 8.0%R |})).
Proof.
  split.
  - intros candidates env Hne Hno.
    rewrite (processAmbiguousGesture_fallback candidates env Hno).
    apply highestConfidence_max, Hne.
  - intros env Hno.
    rewrite (processAmbiguousGesture_fallback tiedCandidates env Hno).
    unfold highestConfidence, tiedCandidates, sortDesc. simpl.
    settle_reals; reflexivity.
Qed.

Lemma C5_fallback_witness :
  (exists c,
     processAmbiguousGesture tiedCandidates
       {| clientReady := true; initAI := true;
          reply := Replied "wave" 0.95 "closest match";
          toLowerCase := asciiLowerCase |}
       = Some (plain c) /\
     In c tiedCandidates /\
     forall c', In c' tiedCandidates ->
       (c_confidence c' <= c_confidence c)%R) /\
  processAmbiguousGesture tiedCandidates
    {| clientReady := false; initAI := false; reply := CallFailed;
       toLowerCase := asciiLowerCase |}
    = Some (plain {| c_name := "A"; c_confidence := 8.0%R |}).
Proof.
  destruct C5_fallback_to_highest_confidence as [Hany Htied].
  split.
  - apply Hany.
    + discriminate.
    + right. right. exists "wave"%string, 0.95%R, "closest match"%string.
      split; [reflexivity|].
      intros c [<- | [<- | []]]; discriminate.
  - apply Htied. left. split; reflexivity.
Defined.

(** C5, as stated, fails: the reply "b" is not one of the submitted names
    A and B, yet the gateway adopts candidate B with the confidence of the
    reply instead of falling back to A. *)
Lemma C5_counterexample :
  let env := {| clientReady := true; initAI := true;
                reply := Replied "b" 0.95 "lower case";
                toLowerCase := asciiLowerCase |} in
  ~ In "b"%string (map c_name tiedCandidates) /\
  processAmbiguousGesture tiedCandidates env
    = Some {| r_name := "B"; r_confidence := 0.95%R;
              r_aiEnhanced := true;
              r_explanation := Some "lower case"%string |} /\
  processAmbiguousGesture tiedCandidates env
    <> Some (plain {| c_name := "A"; c_confidence := 8.0%R |}).
Proof.
  intros env. split; [|split].
  - simpl. intros [H | [H | []]]; discriminate.
  - reflexivity.
  - discriminate.
Qed.

(** ** Holding a gesture *)

Lemma commitGesture_last t g s :
  lastGesture (commitGesture t g s) = Some g /\
  lastGestureTime (commitGesture t g s) = t /\
  modelsReady (commitGesture t g s) = modelsReady s.
Proof. unfold commitGesture. destruct (gestureSequence s); auto. Qed.

(** What the debounce block does for a resolved name: nothing, or one
    event carrying that name and the time of the call. *)
Lemma debounce_outcome t g c s :
  ((differsFromLast g (lastGesture s) = false \/ t - lastGestureTime s <= 350)
   /\ debounce t g c s = (s, [])) \/
  (differsFromLast g (lastGesture s) = true /\
   350 < t - lastGestureTime s /\
   debounce t g c s =
     (commitGesture t g s,
      [ {| ev_name := g; ev_confidence := c; ev_timestamp := t |} ])).
Proof.
  unfold debounce.
  destruct (differsFromLast g (lastGesture s)); [|left; auto].
  destruct (350 <? t - lastGestureTime s) eqn:E.
  - apply Z.ltb_lt in E. right. auto.
  - apply Z.ltb_ge in E. left. auto.
Qed.

Lemma differsFromLast_same g : differsFromLast g (Some g) = false.
Proof. simpl. rewrite String.eqb_refl. reflexivity. Qed.

(** A hand that resolves [g]: either silent, or one event for [g]. *)
Lemma processHand_resolving config t s hand g :
  option_map d_name (detection (snd (processHand config t s hand))) = Some g ->
  let r := processHand config t s hand in
  modelsReady (fst r) = modelsReady s /\
  (silent g t s (fst r) (events (snd r)) \/
   emitted g t s (fst r) (events (snd r))).
Proof.
  intros Hres r. subst r. unfold silent, emitted.
  pose proof (processHand_cases config t s hand) as H.
  destruct (detection (snd (processHand config t s hand))) as [d|];
    [|discriminate Hres].
  simpl in Hres. injection Hres as Hname.
  destruct H as (s0 & (Hm & Hl & Ht & _) & Hdeb). rewrite Hname in Hdeb.
  destruct (debounce_outcome t g (d_confidence d) s0)
    as [(Hwhy & Hq) | (Hd & Hw & Hq)];
    rewrite Hq in Hdeb; injection Hdeb as Hs Hev.
  - rewrite <- Hs, <- Hev. split; [exact Hm|]. left.
    rewrite Hl, Ht in Hwhy. auto.
  - destruct (commitGesture_last t g s0) as (Hcl & Hct & Hcm).
    rewrite <- Hs, <- Hev. split; [congruence|]. right.
    rewrite Hl in Hd. rewrite Ht in Hw.
    split; [exact Hd|]. split; [exact Hw|]. split; [eauto|]. auto.
Qed.

Lemma processHands_resolving config t g hs : forall s,
  Forall (fun h => option_map d_name (detection h) = Some g)
         (snd (processHands config t s hs)) ->
  hs <> [] ->
  let r := processHands config t s hs in
  modelsReady (fst r) = modelsReady s /\
  (silent g t s (fst r) (concat (map events (snd r))) \/
   emitted g t s (fst r) (concat (map events (snd r)))).
Proof.
  induction hs as [|hand hs IH]; intros s Hall Hne; [congruence|].
  simpl in *.
  pose proof (processHand_resolving config t s hand g) as H1.
  destruct (processHand config t s hand) as [s1 out] eqn:E1.
  specialize (IH s1).
  destruct (processHands config t s1 hs) as [s2 outs] eqn:E2.
  simpl in *. inversion Hall as [|? ? Hout Houts]; subst.
  destruct (H1 Hout) as (Hm1 & Hcase1).
  destruct hs as [|hand2 hs].
  - simpl in E2. injection E2 as <- <-. simpl. rewrite app_nil_r. auto.
  - destruct (IH Houts) as (Hm2 & Hcase2); [discriminate|].
    split; [congruence|].
    unfold silent, emitted in *.
    destruct Hcase1 as [(Hwhy1 & -> & Hl1 & Ht1) | (Hd1 & Hw1 & (c1 & ->) & Hl1 & Ht1)];
      destruct Hcase2 as [(Hwhy2 & -> & Hl2 & Ht2) | (Hd2 & Hw2 & (c2 & ->) & Hl2 & Ht2)];
      simpl.
    + left. split; [exact Hwhy1|]. repeat split; congruence.
    + right. rewrite Hl1 in Hd2. rewrite Ht1 in Hw2.
      repeat split; eauto.
    + right. repeat split; eauto; congruence.
    + rewrite Hl1, differsFromLast_same in Hd2. discriminate.
Qed.

(** The three ways through [detectGesture]. *)
Lemma detectGesture_not_ready config s frame :
  modelsReady s = false ->
  detectGesture config s frame
    = (s, {| comboActions := []; handResults := [] |}).
Proof. intros H. unfold detectGesture. rewrite H. reflexivity. Qed.

Lemma detectGesture_without_hands config s frame :
  modelsReady s = true ->
  hands frame = [] ->
  detectGesture config s frame
    = (handleAbsence (now frame) (fst (manageWindow (now frame) s)),
       {| comboActions := snd (manageWindow (now frame) s);
          handResults := [] |}).
Proof.
  intros Hr Hh. unfold detectGesture. rewrite Hr, Hh.
  destruct (manageWindow (now frame) s). reflexivity.
Qed.

Lemma detectGesture_with_hands config s frame :
  modelsReady s = true ->
  hands frame <> [] ->
  detectGesture config s frame
    = (fst (processHands config (now frame)
              (fst (manageWindow (now frame) s)) (hands frame)),
       {| comboActions := snd (manageWindow (now frame) s);
          handResults :=
            snd (processHands config (now frame)
                   (fst (manageWindow (now frame) s)) (hands frame)) |}).
Proof.
  intros Hr Hh. unfold detectGesture. rewrite Hr.
  destruct (manageWindow (now frame) s) as [s1 actions].
  destruct (hands frame) as [|hand hs]; [congruence|].
  cbv beta iota zeta. cbn [negb fst snd].
  destruct (processHands config (now frame) s1 (hand :: hs)). reflexivity.
Qed.

Lemma detectGesture_resolving config s frame g :
  frameResolves g (snd (detectGesture config s frame)) ->
  let r := detectGesture config s frame in
  modelsReady s = true /\ hands frame <> [] /\
  modelsReady (fst r) = true /\
  (silent g (now frame) s (fst r) (frameEvents (snd r)) \/
   emitted g (now frame) s (fst r) (frameEvents (snd r))).
Proof.
  intros [Hne Hall] r. subst r.
  destruct (modelsReady s) eqn:Hready;
    [|rewrite detectGesture_not_ready in Hne by exact Hready; simpl in Hne;
      congruence].
  destruct (hands frame) as [|hand hs] eqn:Eh;
    [rewrite detectGesture_without_hands in Hne by assumption; simpl in Hne;
     congruence|].
  assert (Hh : hands frame <> []) by (rewrite Eh; discriminate).
  rewrite detectGesture_with_hands in * by assumption.
  unfold frameEvents. cbn [fst snd handResults] in *.
  pose proof (manageWindow_lastGestureTime (now frame) s) as (Hwt & Hwl & Hwm).
  destruct (processHands_resolving config (now frame) g (hands frame)
              (fst (manageWindow (now frame) s)) Hall Hh) as (Hm & Hcase).
  split; [reflexivity|]. split; [discriminate|]. split; [congruence|].
  unfold silent, emitted in *. rewrite Hwl, Hwt in Hcase. exact Hcase.
Qed.

(** While [g] is the last emitted name, frames resolving [g] emit nothing. *)
Lemma runFrames_holding config g frames : forall s,
  lastGesture s = Some g ->
  Forall (frameResolves g) (snd (runFrames config s frames)) ->
  emittedEvents (snd (runFrames config s frames)) = [] /\
  lastGesture (fst (runFrames config s frames)) = Some g.
Proof.
  induction frames as [|frame frames IH]; intros s Hl Hall; simpl in *.
  - auto.
  - pose proof (detectGesture_resolving config s frame g) as H1.
    destruct (detectGesture config s frame) as [s1 out].
    specialize (IH s1).
    destruct (runFrames config s1 frames) as [s2 outs].
    simpl in *. inversion Hall as [|? ? Hout Houts]; subst.
    destruct (H1 Hout) as (_ & _ & _ & Hcase).
    unfold silent, emitted in Hcase.
    destruct Hcase as [(_ & Hev & Hl1 & _) | (Hd & _)].
    + destruct IH as [Hrest Hlast]; [congruence | exact Houts |].
      unfold emittedEvents in *. simpl. rewrite Hev, Hrest. auto.
    + rewrite Hl, differsFromLast_same in Hd. discriminate.
Qed.

(** Frames that all resolve [g] emit at most one event, and it is for [g]. *)
Lemma runFrames_at_most_one config g frames : forall s,
  Forall (frameResolves g) (snd (runFrames config s frames)) ->
  emittedEvents (snd (runFrames config s frames)) = [] \/
  exists c t, emittedEvents (snd (runFrames config s frames)) =
    [ {| ev_name := g; ev_confidence := c; ev_timestamp := t |} ].
Proof.
  induction frames as [|frame frames IH]; intros s Hall; simpl in *.
  - left. reflexivity.
  - pose proof (detectGesture_resolving config s frame g) as H1.
    pose proof (runFrames_holding config g frames) as Hhold.
    destruct (detectGesture config s frame) as [s1 out].
    specialize (IH s1). specialize (Hhold s1).
    destruct (runFrames config s1 frames) as [s2 outs].
    simpl in *. inversion Hall as [|? ? Hout Houts]; subst.
    destruct (H1 Hout) as (_ & _ & _ & Hcase).
    unfold silent, emitted in Hcase. unfold emittedEvents in *. simpl.
    destruct Hcase as [(_ & Hev & _) | (_ & _ & (c & Hev) & Hl1 & _)];
      rewrite Hev; simpl.
    + apply IH, Houts.
    + destruct (Hhold Hl1 Houts) as [Hrest _]. rewrite Hrest.
      right. eauto.
Qed.

(** C8, as amended. Over frames that all resolve the same gesture name,
    at most one gesture event is emitted, and it carries that name. When
    at the first frame the name differs from the last emitted one and more
    than 350 ms have passed since the last emission, the first frame emits
    exactly one event and every later frame of the run emits nothing. *)
Theorem C8_one_event_per_held_gesture config s frame frames g :
  let first := detectGesture config s frame in
  let later := runFrames config (fst first) frames in
  Forall (frameResolves g) (snd first :: snd later) ->
  (length (emittedEvents (snd first :: snd later)) <= 1)%nat /\
  Forall (fun e => ev_name e = g) (emittedEvents (snd first :: snd later)) /\
  (differsFromLast g (lastGesture s) = true ->
   350 < now frame - lastGestureTime s ->
   (exists c, frameEvents (snd first) =
      [ {| ev_name := g; ev_confidence := c; ev_timestamp := now frame |} ])
   /\ emittedEvents (snd later) = []).
Proof.
  intros first later Hall.
  assert (Hrun : snd (runFrames config s (frame :: frames))
                 = snd first :: snd later).
  { simpl. subst first later. destruct (detectGesture config s frame) as [s1 out].
    simpl. destruct (runFrames config s1 frames); reflexivity. }
  pose proof (runFrames_at_most_one config g (frame :: frames) s) as Hone.
  rewrite Hrun in Hone. specialize (Hone Hall).
  split; [|split].
  - destruct Hone as [-> | (c & t & ->)]; simpl; lia.
  - destruct Hone as [-> | (c & t & ->)]; repeat constructor.
  - intros Hd Hw. inversion Hall as [|? ? Hfirst Hlater]; subst.
    destruct (detectGesture_resolving config s frame g Hfirst)
      as (_ & _ & _ & Hcase).
    fold first in Hcase. unfold silent, emitted in Hcase.
    destruct Hcase as [([Hsame | Hearly] & _) | (_ & _ & Hev & Hl1 & _)].
    + congruence.
    + lia.
    + split; [exact Hev|].
      apply (runFrames_holding config g frames (fst first) Hl1 Hlater).
Qed.

Lemma C8_one_event_witness :
  let first :=
    detectGesture adaptiveConfig initialState
      (frameShowing (sessionStart + 1000) "palm" 8.7) in
  let later :=
    runFrames adaptiveConfig (fst first)
      [ frameShowing (sessionStart + 1200) "palm" 8.7;
        frameShowing (sessionStart + 1400) "palm" 8.6 ] in
  (length (emittedEvents (snd first :: snd later)) <= 1)%nat /\
  (exists c, frameEvents (snd first) =
     [ {| ev_name := "palm"; ev_confidence := c;
          ev_timestamp := sessionStart + 1000 |} ]) /\
  emittedEvents (snd later) = [].
Proof.
  intros first later.
  destruct (C8_one_event_per_held_gesture adaptiveConfig initialState
              (frameShowing (sessionStart + 1000) "palm" 8.7)
              [ frameShowing (sessionStart + 1200) "palm" 8.7;
                frameShowing (sessionStart + 1400) "palm" 8.6 ] "palm")
    as (Hone & _ & Hfirst).
  - vm_compute.
    repeat (constructor; [split; [discriminate | repeat constructor]|]).
    constructor.
  - split; [exact Hone|]. apply Hfirst; [reflexivity | vm_compute; reflexivity].
Defined.

(** C8, as stated, fails in two ways. After thumbs_up was emitted, a run
    of two palm frames 200 ms and 400 ms later is silent at its first
    frame and emits at its second, a "subsequent frame". And after palm was
    emitted and a thumbs_up frame was held back by the dwell interval, a
    new run of palm frames emits no event at all. *)
Lemma C8_counterexample :
  (let s := fst (detectGesture adaptiveConfig initialState
                   (frameShowing (sessionStart + 1000) "thumbs_up" 8.5)) in
   let outs := snd (runFrames adaptiveConfig s
                      [ frameShowing (sessionStart + 1200) "palm" 8.7;
                        frameShowing (sessionStart + 1400) "palm" 8.7 ]) in
   Forall (frameResolves "palm") outs /\
   map frameEvents outs =
     [ [];
       [ {| ev_name := "palm"; ev_confidence := 8.7%R;
            ev_timestamp := sessionStart + 1400 |} ] ]) /\
  (let s := fst (runFrames adaptiveConfig initialState
                   [ frameShowing (sessionStart + 1000) "palm" 8.7;
                     frameShowing (sessionStart + 1100) "thumbs_up" 8.5 ]) in
   let outs := snd (runFrames adaptiveConfig s
                      [ frameShowing (sessionStart + 1200) "palm" 8.7;
                        frameShowing (sessionStart + 1600) "palm" 8.7 ]) in
   Forall (frameResolves "palm") outs /\
   emittedEvents outs = []).
Proof.
  split; intros s outs; split.
  - vm_compute.
    repeat (constructor; [split; [discriminate | repeat constructor]|]).
    constructor.
  - vm_compute. reflexivity.
  - vm_compute.
    repeat (constructor; [split; [discriminate | repeat constructor]|]).
    constructor.
  - vm_compute. reflexivity.
Qed.

(** ** Hand absence *)

Lemma handleAbsence_lastGesture t s :
  modelsReady (handleAbsence t s) = modelsReady s /\
  (lastGesture s = None \/ 500 < t - lastGestureTime s ->
   lastGesture (handleAbsence t s) = None).
Proof.
  unfold handleAbsence.
  destruct (lastGesture s) as [g|] eqn:El.
  - destruct (500 <? t - lastGestureTime s) eqn:E.
    + destruct (_ && _); simpl; auto.
    + apply Z.ltb_ge in E. rewrite El. split; [reflexivity|].
      intros [H | H]; [discriminate | lia].
  - rewrite El. auto.
Qed.

Lemma detectGesture_handless config s frame :
  hands frame = [] ->
  let s' := fst (detectGesture config s frame) in
  modelsReady s' = modelsReady s /\
  lastGestureTime s' = lastGestureTime s /\
  (lastGesture s = None -> lastGesture s' = None) /\
  (modelsReady s = true -> 500 < now frame - lastGestureTime s ->
   lastGesture s' = None).
Proof.
  intros Hh s'. subst s'.
  destruct (modelsReady s) eqn:Hr.
  - rewrite detectGesture_without_hands by assumption. cbn [fst].
    pose proof (manageWindow_lastGestureTime (now frame) s) as (Hwt & Hwl & Hwm).
    pose proof (handleAbsence_lastGesture (now frame)
                  (fst (manageWindow (now frame) s))) as (Ham & Hal).
    rewrite handleAbsence_lastGestureTime.
    split; [congruence|]. split; [exact Hwt|]. split.
    + intros Hn. apply Hal. left. congruence.
    + intros _ Hlong. apply Hal. right. rewrite Hwt. exact Hlong.
  - rewrite detectGesture_not_ready by assumption. cbn [fst].
    repeat split; auto. discriminate.
Qed.

Lemma runFrames_handless config frames : forall s,
  Forall (fun f => hands f = []) frames ->
  let s' := fst (runFrames config s frames) in
  modelsReady s' = modelsReady s /\
  lastGestureTime s' = lastGestureTime s /\
  (lastGesture s = None -> lastGesture s' = None).
Proof.
  induction frames as [|frame frames IH]; intros s Hall; simpl.
  - auto.
  - inversion Hall as [|? ? Hf Hfs]; subst.
    pose proof (detectGesture_handless config s frame Hf) as (Hm & Ht & Hn & _).
    destruct (detectGesture config s frame) as [s1 out].
    specialize (IH s1 Hfs).
    destruct (runFrames config s1 frames) as [s2 outs].
    simpl in *. destruct IH as (Hm2 & Ht2 & Hn2).
    repeat split; try congruence. auto.
Qed.

Lemma runFrames_app config frames1 frames2 : forall s,
  fst (runFrames config s (frames1 ++ frames2))
  = fst (runFrames config (fst (runFrames config s frames1)) frames2).
Proof.
  induction frames1 as [|frame frames1 IH]; intros s; simpl.
  - reflexivity.
  - destruct (detectGesture config s frame) as [s1 out].
    specialize (IH s1).
    destruct (runFrames config s1 (frames1 ++ frames2)) as [s2 outs].
    destruct (runFrames config s1 frames1) as [s3 outs3].
    simpl in *. exact IH.
Qed.

Lemma last_cons {A} (l : list A) : forall x d, List.last (x :: l) d = List.last l x.
Proof.
  induction l as [|y l IH]; intros x d; [reflexivity|].
  change (List.last (x :: y :: l) d) with (List.last (y :: l) d).
  rewrite IH. symmetry. apply IH.
Qed.

(** After frames without a hand, the last of them more than 500 ms after
    the last emission, no gesture name is held. *)
Lemma runFrames_absence_clears config s first rest :
  modelsReady s = true ->
  Forall (fun f => hands f = []) (first :: rest) ->
  500 < now (List.last rest first) - lastGestureTime s ->
  let s' := fst (runFrames config s (first :: rest)) in
  modelsReady s' = true /\
  lastGestureTime s' = lastGestureTime s /\
  lastGesture s' = None.
Proof.
  intros Hr Hall Hlong s'. subst s'.
  assert (Hsplit : first :: rest
                   = removelast (first :: rest) ++ [List.last rest first]).
  { rewrite <- (last_cons rest first first).
    apply app_removelast_last. discriminate. }
  rewrite Hsplit in Hall |- *. apply Forall_app in Hall as [Hpre Hlast].
  inversion Hlast as [|? ? Hf _]; subst.
  rewrite runFrames_app.
  destruct (runFrames_handless config _ s Hpre) as (Hm1 & Ht1 & _).
  set (s1 := fst (runFrames config s (removelast (first :: rest)))) in *.
  simpl.
  pose proof (detectGesture_handless config s1 _ Hf) as (Hm & Ht & _ & Hclear).
  destruct (detectGesture config s1 (List.last rest first)) as [s2 out].
  simpl in *. split; [congruence|]. split; [congruence|].
  apply Hclear; [congruence|]. rewrite Ht1. exact Hlong.
Qed.

(** C9. Let the hand be lost at time [lost], not earlier than the last
    emission, and let frames without a hand follow, the last of them more
    than 500 ms after [lost]. Then the last emitted name is cleared, and
    the next frame that resolves a gesture emits an event for it, whatever
    name was held before the hand went away. *)
Theorem C9_absence_resets_debouncer config s lost first rest next g :
  modelsReady s = true ->
  Forall (fun f => hands f = []) (first :: rest) ->
  lastGestureTime s <= lost ->
  500 < now (List.last rest first) - lost ->
  now (List.last rest first) <= now next ->
  let s1 := fst (runFrames config s (first :: rest)) in
  lastGesture s1 = None /\
  forall out,
    head (handResults (snd (detectGesture config s1 next))) = Some out ->
    option_map d_name (detection out) = Some g ->
    exists c, events out =
      [ {| ev_name := g; ev_confidence := c; ev_timestamp := now next |} ].
Proof.
  intros Hr Hall Hbefore Hspan Hnext s1.
  destruct (runFrames_absence_clears config s first rest Hr Hall)
    as (Hr1 & Ht1 & Hl1); [lia|].
  fold s1 in Hr1, Ht1, Hl1. split; [exact Hl1|].
  intros out Hout Hres.
  destruct (hands next) as [|hand hs] eqn:Eh.
  - rewrite detectGesture_without_hands in Hout by assumption. discriminate.
  - rewrite detectGesture_with_hands in Hout
      by (try assumption; rewrite Eh; discriminate).
    rewrite Eh in Hout. cbn [snd handResults] in Hout.
    pose proof (manageWindow_lastGestureTime (now next) s1) as (Hwt & Hwl & _).
    set (s2 := fst (manageWindow (now next) s1)) in *.
    pose proof (processHand_resolving config (now next) s2 hand g) as H.
    simpl in Hout.
    destruct (processHand config (now next) s2 hand) as [s3 out1].
    destruct (processHands config (now next) s3 hs) as [s4 outs].
    simpl in Hout. injection Hout as ->.
    destruct (H Hres) as (_ & Hcase). unfold silent, emitted in Hcase.
    simpl in Hcase. rewrite Hwl, Hl1, Hwt, Ht1 in Hcase.
    destruct Hcase as [([Hsame | Hearly] & _) | (_ & _ & Hev & _)].
    + discriminate.
    + lia.
    + exact Hev.
Qed.

Lemma C9_absence_witness :
  let s := fst (detectGesture adaptiveConfig initialState
                  (frameShowing (sessionStart + 1000) "palm" 8.7)) in
  let s1 := fst (runFrames adaptiveConfig s
                   [ frameWithoutHand (sessionStart + 1200);
                     frameWithoutHand (sessionStart + 1500);
                     frameWithoutHand (sessionStart + 1800) ]) in
  let out := snd (processHand adaptiveConfig (sessionStart + 2000) s1
                    (handShowing [ {| name := "palm"; score := 8.7%R |} ])) in
  lastGesture s = Some "palm"%string /\
  lastGesture s1 = None /\
  exists c, events out =
    [ {| ev_name := "palm"; ev_confidence := c;
         ev_timestamp := sessionStart + 2000 |} ].
Proof.
  intros s s1 out.
  destruct (C9_absence_resets_debouncer adaptiveConfig s
              (sessionStart + 1000)
              (frameWithoutHand (sessionStart + 1200))
              [ frameWithoutHand (sessionStart + 1500);
                frameWithoutHand (sessionStart + 1800) ]
              (frameShowing (sessionStart + 2000) "palm" 8.7) "palm")
    as [Hclear Hemit].
  - vm_compute. reflexivity.
  - repeat constructor.
  - vm_compute. discriminate.
  - vm_compute. reflexivity.
  - vm_compute. discriminate.
  - split; [vm_compute; reflexivity|]. split; [exact Hclear|].
    apply (Hemit out); vm_compute; reflexivity.
Defined.

(** ** The sequence window *)

Lemma sliceLast_app {A} (l1 l2 : list A) :
  sliceLast (length l2) (l1 ++ l2) = l2.
Proof.
  unfold sliceLast. rewrite length_app.
  replace (length l1 + length l2 - length l2)%nat with (length l1) by lia.
  apply drop_app_length.
Qed.

(** With patterns of two names only the last two gestures matter. *)
Lemma matchKnown_suffix table names a b :
  Forall (fun entry => length (split_comma (fst entry)) = 2%nat) table ->
  matchKnown table (names ++ [a; b]) = matchKnown table [a; b].
Proof.
  induction table as [|[pattern action] table IH]; intros Hall; simpl.
  - reflexivity.
  - inversion Hall as [|? ? Hlen Hrest]; subst. simpl in Hlen. rewrite Hlen.
    rewrite (sliceLast_app names [a; b]
             : sliceLast 2 (names ++ [a; b]) = [a; b]).
    change (sliceLast 2 [a; b]) with [a; b].
    rewrite length_app. simpl length.
    replace (2 <=? length names + 2)%nat with true
      by (symmetry; apply Nat.leb_le; lia).
    simpl. rewrite IH by exact Hrest. reflexivity.
Qed.

Lemma matchKnown_sound table a b action :
  Forall (fun entry => length (split_comma (fst entry)) = 2%nat) table ->
  matchKnown table [a; b] = Some action ->
  In (join_comma [a; b], action) table.
Proof.
  induction table as [|[pattern action'] table IH]; intros Hall; simpl.
  - discriminate.
  - inversion Hall as [|? ? Hlen Hrest]; subst. simpl in Hlen. rewrite Hlen.
    change (sliceLast 2 [a; b]) with [a; b]. simpl.
    destruct (String.eqb _ pattern) eqn:E.
    + apply String.eqb_eq in E. intros [= <-]. left. simpl in E. congruence.
    + intros H. right. apply IH; assumption.
Qed.

Lemma knownSequences_pairs :
  Forall (fun entry => length (split_comma (fst entry)) = 2%nat)
         knownSequences.
Proof. repeat constructor. Qed.

Lemma last_two {A} (l : list A) :
  (2 <= length l)%nat -> exists pre x y, l = pre ++ [x; y].
Proof.
  intros Hlen.
  destruct (exists_last (l := l)) as (l1 & y & ->);
    [destruct l; [simpl in Hlen; lia | discriminate]|].
  rewrite length_app in Hlen. simpl in Hlen.
  destruct (exists_last (l := l1)) as (pre & x & ->);
    [destruct l1; [simpl in Hlen; lia | discriminate]|].
  exists pre, x, y. rewrite <- app_assoc. reflexivity.
Qed.

(** A window that ends with a configured pair yields its action. *)
Lemma checkGestureSequence_complete pattern action a b pre e1 e2 :
  In (pattern, action) knownSequences ->
  split_comma pattern = [a; b] ->
  gesture e1 = a -> gesture e2 = b ->
  checkGestureSequence (pre ++ [e1; e2]) = Some action.
Proof.
  intros Hin Hsplit H1 H2. unfold checkGestureSequence.
  rewrite length_app. simpl length.
  replace (length pre + 2 <? 2)%nat with false
    by (symmetry; apply Nat.ltb_ge; lia).
  rewrite map_app. simpl map. rewrite H1, H2.
  rewrite matchKnown_suffix by exact knownSequences_pairs.
  unfold knownSequences in Hin. simpl in Hin.
  destruct Hin as [H | [H | [H | [H | [H | []]]]]];
    injection H as <- <-; vm_compute in Hsplit;
    injection Hsplit as <- <-; reflexivity.
Qed.

(** An action reported for a window comes from its last two entries. *)
Lemma checkGestureSequence_sound sequence action :
  checkGestureSequence sequence = Some action ->
  exists pre e1 e2,
    sequence = pre ++ [e1; e2] /\
    In ((gesture e1 ++ "," ++ gesture e2)%string, action) knownSequences.
Proof.
  unfold checkGestureSequence.
  destruct (length sequence <? 2)%nat eqn:Hlen; [discriminate|].
  apply Nat.ltb_ge in Hlen.
  destruct (last_two sequence Hlen) as (pre & e1 & e2 & ->).
  rewrite map_app. simpl map.
  rewrite matchKnown_suffix by exact knownSequences_pairs.
  intros H. apply matchKnown_sound in H; [|exact knownSequences_pairs].
  exists pre, e1, e2. split; [reflexivity | exact H].
Qed.

Lemma manageWindow_quiet t s :
  t - gestureWindowStart s <= 3000 -> snd (manageWindow t s) = [].
Proof.
  intros H. unfold manageWindow.
  replace (3000 <? t - gestureWindowStart s) with false
    by (symmetry; apply Z.ltb_ge; lia).
  reflexivity.
Qed.

Lemma manageWindow_reports t s action :
  3000 < t - gestureWindowStart s ->
  checkGestureSequence (gestureSequence s) = Some action ->
  snd (manageWindow t s) = [action].
Proof.
  intros Hlate Hcheck. unfold manageWindow.
  apply Z.ltb_lt in Hlate. rewrite Hlate.
  assert (Hlen : (length (gestureSequence s) <? 2)%nat = false).
  { unfold checkGestureSequence in Hcheck.
    destruct (length (gestureSequence s) <? 2)%nat; [discriminate | reflexivity]. }
  apply Nat.ltb_ge in Hlen.
  replace (0 <? length (gestureSequence s))%nat with true
    by (symmetry; apply Nat.ltb_lt; lia).
  replace (1 <? length (gestureSequence s))%nat with true
    by (symmetry; apply Nat.ltb_lt; lia).
  simpl. rewrite Hcheck. reflexivity.
Qed.

Lemma manageWindow_actions t s action :
  In action (snd (manageWindow t s)) ->
  3000 < t - gestureWindowStart s /\
  checkGestureSequence (gestureSequence s) = Some action.
Proof.
  unfold manageWindow.
  destruct (3000 <? t - gestureWindowStart s) eqn:Hlate; simpl; [|tauto].
  apply Z.ltb_lt in Hlate.
  destruct (0 <? length (gestureSequence s))%nat; simpl; [|tauto].
  destruct (1 <? length (gestureSequence s))%nat; simpl; [|tauto].
  destruct (checkGestureSequence (gestureSequence s)) as [found|]; simpl;
    [|tauto].
  intros [<- | []]. auto.
Qed.

Lemma detectGesture_comboActions config s frame :
  comboActions (snd (detectGesture config s frame)) =
    if modelsReady s then snd (manageWindow (now frame) s) else [].
Proof.
  destruct (modelsReady s) eqn:Hr.
  - destruct (hands frame) as [|hand hs] eqn:Eh.
    + rewrite detectGesture_without_hands by assumption. reflexivity.
    + rewrite detectGesture_with_hands
        by (try assumption; rewrite Eh; discriminate).
      reflexivity.
  - rewrite detectGesture_not_ready by assumption. reflexivity.
Qed.

Lemma manageWindow_opens t s :
  windowBounded s -> gestureWindowStart s <= t ->
  windowOpenAt t (fst (manageWindow t s)).
Proof.
  intros Hb Hle. unfold manageWindow, windowOpenAt, windowBounded in *.
  destruct (3000 <? t - gestureWindowStart s) eqn:Hlate; simpl.
  - destruct (0 <? length (gestureSequence s))%nat eqn:Hlen; simpl.
    + split; [constructor|]. split; [lia | left; reflexivity].
    + apply Nat.ltb_ge in Hlen.
      split; [exact Hb|]. split; [exact Hle|]. left.
      destruct (gestureSequence s); [reflexivity | simpl in Hlen; lia].
  - apply Z.ltb_ge in Hlate. auto.
Qed.

Lemma pushSequence_Forall (P : SeqEntry -> Prop) entry sequence :
  Forall P sequence -> P entry -> Forall P (pushSequence entry sequence).
Proof.
  intros Hs He. unfold pushSequence.
  assert (Hall : Forall P (sequence ++ [entry]))
    by (apply Forall_app; split; [exact Hs | repeat constructor; exact He]).
  destruct (5 <? length (sequence ++ [entry]))%nat; [|exact Hall].
  destruct (sequence ++ [entry]) as [|x xs]; [constructor|].
  inversion Hall; assumption.
Qed.

Lemma commitGesture_window t g s :
  windowOpenAt t s -> windowOpenAt t (commitGesture t g s).
Proof.
  unfold windowOpenAt, windowBounded, commitGesture.
  intros (Hb & Hle & Hopen).
  destruct (gestureSequence s) as [|e es] eqn:Es; simpl; rewrite Es.
  - split; [repeat constructor; simpl; lia|]. split; [lia | right; lia].
  - destruct Hopen as [Hempty | Hspan]; [discriminate|].
    split; [|auto].
    apply pushSequence_Forall; [exact Hb | simpl; lia].
Qed.

Lemma debounce_window t g c s :
  windowOpenAt t s -> windowOpenAt t (fst (debounce t g c s)).
Proof.
  intros H. unfold debounce.
  destruct (differsFromLast _ _); [|exact H].
  destruct (350 <? _); [|exact H].
  apply commitGesture_window, H.
Qed.

Lemma sameDebounce_window t s s' :
  sameDebounce s s' -> windowOpenAt t s -> windowOpenAt t s'.
Proof.
  unfold sameDebounce, windowOpenAt, windowBounded.
  intros (_ & _ & _ & Hs & Hw). rewrite Hs, Hw. tauto.
Qed.

Lemma processHand_window config t s hand :
  windowOpenAt t s -> windowOpenAt t (fst (processHand config t s hand)).
Proof.
  intros H. pose proof (processHand_cases config t s hand) as Hc.
  destruct (detection (snd (processHand config t s hand))) as [d|].
  - destruct Hc as (s0 & Hsame & Hdeb).
    pose proof (debounce_window t (d_name d) (d_confidence d) s0
                  (sameDebounce_window t s s0 Hsame H)) as Hw.
    rewrite Hdeb in Hw. exact Hw.
  - destruct Hc as [_ Hsame]. apply (sameDebounce_window t s _ Hsame H).
Qed.

Lemma processHands_window config t hs : forall s,
  windowOpenAt t s -> windowOpenAt t (fst (processHands config t s hs)).
Proof.
  induction hs as [|hand hs IH]; intros s H; simpl; [exact H|].
  pose proof (processHand_window config t s hand H) as H1.
  destruct (processHand config t s hand) as [s1 out].
  specialize (IH s1 H1).
  destruct (processHands config t s1 hs) as [s2 outs]. exact IH.
Qed.

Lemma handleAbsence_window t s :
  windowOpenAt t s -> windowOpenAt t (handleAbsence t s).
Proof.
  unfold handleAbsence, windowOpenAt, windowBounded.
  intros (Hb & Hle & Hopen).
  destruct (lastGesture s); [|auto].
  destruct (500 <? _); [|auto].
  destruct (_ && _); simpl; auto.
Qed.

Lemma detectGesture_window config s frame :
  windowBounded s -> gestureWindowStart s <= now frame ->
  windowBounded (fst (detectGesture config s frame)) /\
  gestureWindowStart (fst (detectGesture config s frame)) <= now frame.
Proof.
  intros Hb Hle.
  assert (Hgoal : windowOpenAt (now frame) (fst (detectGesture config s frame))
                  \/ fst (detectGesture config s frame) = s).
  { destruct (modelsReady s) eqn:Hr.
    - left. pose proof (manageWindow_opens (now frame) s Hb Hle) as Hopen.
      destruct (hands frame) as [|hand hs] eqn:Eh.
      + rewrite detectGesture_without_hands by assumption.
        apply handleAbsence_window, Hopen.
      + rewrite detectGesture_with_hands
          by (try assumption; rewrite Eh; discriminate).
        apply processHands_window, Hopen.
    - right. rewrite detectGesture_not_ready by assumption. reflexivity. }
  destruct Hgoal as [(H1 & H2 & _) | ->]; auto.
Qed.

(** In a session whose clock does not run backwards, the window handed to
    any frame is bounded. *)
Lemma runFrames_window config frame frames : forall t0 s,
  windowBounded s -> gestureWindowStart s <= t0 ->
  clockOrdered t0 (frames ++ [frame]) ->
  windowBounded (fst (runFrames config s frames)) /\
  gestureWindowStart (fst (runFrames config s frames)) <= now frame.
Proof.
  induction frames as [|f frames IH]; intros t0 s Hb Hle Hclock; simpl in *.
  - split; [exact Hb | lia].
  - destruct Hclock as [Ht0 Hrest].
    destruct (detectGesture_window config s f Hb) as [Hb1 Hle1]; [lia|].
    destruct (detectGesture config s f) as [s1 out].
    specialize (IH (now f) s1 Hb1 Hle1 Hrest).
    destruct (runFrames config s1 frames) as [s2 outs]. exact IH.
Qed.

(** C6, as amended. The pattern table is consulted when the sequence
    window is closed, that is by the first call that comes more than
    3000 ms after the window was opened, and not after an append: if the
    window then ends with two entries whose names form a configured
    pattern (thumbs_up followed by thumbs_down, say), the action of the
    pattern is reported; a call within 3000 ms of the window start reports
    nothing; and in a session whose clock does not run backwards an action
    is only ever reported for two entries at most 3000 ms apart, so that
    the same pair spaced 4000 ms apart triggers nothing. *)
Theorem C6_combo_reported_when_window_closes :
  (forall config s frame pattern action a b pre e1 e2,
     modelsReady s = true ->
     3000 < now frame - gestureWindowStart s ->
     In (pattern, action) knownSequences ->
     split_comma pattern = [a; b] ->
     gestureSequence s = pre ++ [e1; e2] ->
     gesture e1 = a -> gesture e2 = b ->
     comboActions (snd (detectGesture config s frame)) = [action]) /\
  (forall config s frame,
     now frame - gestureWindowStart s <= 3000 ->
     comboActions (snd (detectGesture config s frame)) = []) /\
  (forall config frames frame action,
     clockOrdered 0 (frames ++ [frame]) ->
     let s := fst (runFrames config initialState frames) in
     In action (comboActions (snd (detectGesture config s frame))) ->
     exists pre e1 e2,
       gestureSequence s = pre ++ [e1; e2] /\
       In ((gesture e1 ++ "," ++ gesture e2)%string, action) knownSequences /\
       timestamp e2 - timestamp e1 <= 3000 /\
       timestamp e1 - timestamp e2 <= 3000).
Proof.
  split; [|split].
  - intros config s frame pattern action a b pre e1 e2
           Hr Hlate Hin Hsplit Hseq H1 H2.
    rewrite detectGesture_comboActions, Hr.
    apply manageWindow_reports; [exact Hlate|].
    rewrite Hseq. eapply checkGestureSequence_complete; eassumption.
  - intros config s frame Hearly.
    rewrite detectGesture_comboActions.
    destruct (modelsReady s); [|reflexivity].
    apply manageWindow_quiet, Hearly.
  - intros config frames frame action Hclock s Hin.
    destruct (runFrames_window config frame frames 0 initialState)
      as [Hb _]; [constructor | simpl; lia | exact Hclock |].
    fold s in Hb. rewrite detectGesture_comboActions in Hin.
    destruct (modelsReady s); [|destruct Hin].
    apply manageWindow_actions in Hin as [_ Hcheck].
    apply checkGestureSequence_sound in Hcheck
      as (pre & e1 & e2 & Hseq & Htable).
    exists pre, e1, e2. split; [exact Hseq|]. split; [exact Htable|].
    unfold windowBounded in Hb. rewrite Hseq in Hb.
    apply Forall_app in Hb as [_ Hb].
    inversion Hb as [|? ? Hb1 Hb']; subst.
    inversion Hb' as [|? ? Hb2 _]; subst. lia.
Qed.

Lemma C6_combo_witness :
  let s := fst (runFrames adaptiveConfig initialState
                  [ frameShowing (sessionStart + 1000) "thumbs_up" 8.5;
                    frameShowing (sessionStart + 1400) "thumbs_down" 8.6 ]) in
  comboActions
    (snd (detectGesture adaptiveConfig s
            (frameShowing (sessionStart + 4100) "palm" 8.7)))
    = [ "TOGGLE_APPROVAL"%string ] /\
  comboActions
    (snd (detectGesture adaptiveConfig s
            (frameShowing (sessionStart + 1800) "palm" 8.7)))
    = [] /\
  exists pre e1 e2,
    gestureSequence s = pre ++ [e1; e2] /\
    In ((gesture e1 ++ "," ++ gesture e2)%string, "TOGGLE_APPROVAL"%string)
       knownSequences /\
    timestamp e2 - timestamp e1 <= 3000 /\
    timestamp e1 - timestamp e2 <= 3000.
Proof.
  intros s.
  destruct C6_combo_reported_when_window_closes as (Hclose & Hquiet & Hnear).
  split; [|split].
  - apply (Hclose adaptiveConfig s
             (frameShowing (sessionStart + 4100) "palm" 8.7)
             "thumbs_up,thumbs_down"%string "TOGGLE_APPROVAL"%string
             "thumbs_up"%string "thumbs_down"%string []
             {| gesture := "thumbs_up"; timestamp := sessionStart + 1000 |}
             {| gesture := "thumbs_down"; timestamp := sessionStart + 1400 |}).
    + vm_compute. reflexivity.
    + vm_compute. reflexivity.
    + left. reflexivity.
    + vm_compute. reflexivity.
    + vm_compute. reflexivity.
    + reflexivity.
    + reflexivity.
  - apply Hquiet. vm_compute. discriminate.
  - apply (Hnear adaptiveConfig
             [ frameShowing (sessionStart + 1000) "thumbs_up" 8.5;
               frameShowing (sessionStart + 1400) "thumbs_down" 8.6 ]
             (frameShowing (sessionStart + 4100) "palm" 8.7)).
    + simpl. repeat split; vm_compute; discriminate.
    + vm_compute. left. reflexivity.
Defined.

(** C6, as stated, fails: thumbs_up and thumbs_down enter the sequence
    window 400 ms apart, nothing is reported when thumbs_down is appended,
    and since palm follows before the window is closed, no action is
    reported at all in the session; the window ends up empty. *)
Lemma C6_counterexample :
  let entered :=
    [ frameShowing (sessionStart + 1000) "thumbs_up" 8.5;
      frameShowing (sessionStart + 1400) "thumbs_down" 8.6 ] in
  let after :=
    [ frameShowing (sessionStart + 1800) "palm" 8.7;
      frameShowing (sessionStart + 4100) "palm" 8.7;
      frameShowing (sessionStart + 8000) "palm" 8.7 ] in
  gestureSequence (fst (runFrames adaptiveConfig initialState entered))
    = [ {| gesture := "thumbs_up"; timestamp := sessionStart + 1000 |};
        {| gesture := "thumbs_down"; timestamp := sessionStart + 1400 |} ] /\
  reportedActions (snd (runFrames adaptiveConfig initialState entered)) = [] /\
  map ev_name
    (emittedEvents
       (snd (runFrames adaptiveConfig initialState (entered ++ after))))
    = [ "thumbs_up"; "thumbs_down"; "palm" ]%string /\
  reportedActions
    (snd (runFrames adaptiveConfig initialState (entered ++ after))) = [] /\
  gestureSequence
    (fst (runFrames adaptiveConfig initialState (entered ++ after))) = [].
Proof.
  intros entered after. repeat split; vm_compute; reflexivity.
Qed.

(** * Further properties of the detector *)

(** ** Bounded buffers *)

(** Walks through the branches of the per-hand callback. *)
Ltac walk_processHand :=
  unfold processHand; simpl;
  destruct (estimate _ _) as [|? ?] eqn:?; simpl;
  [| match goal with
     | |- context [rankGestures ?h ?l] =>
         destruct (rankGestures h l) as [|? ?] eqn:?
     end; simpl;
     [| match goal with
        | |- context [debounce ?t ?g ?c ?s0] =>
            destruct (debounce t g c s0) as [? ?] eqn:?
        end; simpl ] ].

Lemma pushSequence_length entry sequence :
  (length sequence <= 5)%nat ->
  (length (pushSequence entry sequence) <= 5)%nat.
Proof.
  intros H. unfold pushSequence.
  destruct (5 <? length (sequence ++ [entry]))%nat eqn:E.
  - rewrite length_app in *. simpl in *.
    destruct (sequence ++ [entry]) as [|x xs] eqn:Es; simpl; [lia|].
    assert (Hl : length (x :: xs) = (length sequence + 1)%nat)
      by (rewrite <- Es, length_app; reflexivity).
    simpl in Hl. lia.
  - apply Nat.ltb_ge in E. exact E.
Qed.

Lemma debounce_sequence_length t g c s :
  (length (gestureSequence s) <= 5)%nat ->
  (length (gestureSequence (fst (debounce t g c s))) <= 5)%nat.
Proof.
  intros H. unfold debounce.
  destruct (differsFromLast _ _); [|exact H].
  destruct (350 <? _); [|exact H].
  unfold commitGesture. simpl.
  destruct (gestureSequence s) eqn:Es; simpl; rewrite Es;
    apply pushSequence_length; exact H.
Qed.

Lemma processHand_sequence_length config t s hand :
  (length (gestureSequence s) <= 5)%nat ->
  (length (gestureSequence (fst (processHand config t s hand))) <= 5)%nat.
Proof.
  intros H. pose proof (processHand_cases config t s hand) as Hc.
  destruct (detection (snd (processHand config t s hand))) as [d|].
  - destruct Hc as (s0 & (_ & _ & _ & Hs & _) & Hdeb).
    pose proof (debounce_sequence_length t (d_name d) (d_confidence d) s0) as Hl.
    rewrite Hdeb, Hs in Hl. apply Hl, H.
  - destruct Hc as [_ (_ & _ & _ & Hs & _)]. rewrite Hs. exact H.
Qed.

Lemma processHands_sequence_length config t hs : forall s,
  (length (gestureSequence s) <= 5)%nat ->
  (length (gestureSequence (fst (processHands config t s hs))) <= 5)%nat.
Proof.
  induction hs as [|hand hs IH]; intros s H; simpl; [exact H|].
  pose proof (processHand_sequence_length config t s hand H) as H1.
  destruct (processHand config t s hand) as [s1 out].
  specialize (IH s1 H1).
  destruct (processHands config t s1 hs) as [s2 outs]. exact IH.
Qed.

Lemma manageWindow_sequence_length t s :
  (length (gestureSequence (fst (manageWindow t s)))
   <= length (gestureSequence s))%nat.
Proof.
  unfold manageWindow. destruct (_ && _); simpl; lia.
Qed.

Lemma handleAbsence_sequence_length t s :
  (length (gestureSequence (handleAbsence t s))
   <= length (gestureSequence s))%nat.
Proof.
  unfold handleAbsence.
  destruct (lastGesture s); [|lia].
  destruct (500 <? _); [|lia].
  destruct (_ && _); simpl; lia.
Qed.

Lemma detectGesture_sequence_length config s frame :
  (length (gestureSequence s) <= 5)%nat ->
  (length (gestureSequence (fst (detectGesture config s frame))) <= 5)%nat.
Proof.
  intros H. destruct (modelsReady s) eqn:Hr.
  - pose proof (manageWindow_sequence_length (now frame) s) as Hw.
    destruct (hands frame) as [|hand hs] eqn:Eh.
    + rewrite detectGesture_without_hands by assumption. cbn [fst].
      pose proof (handleAbsence_sequence_length (now frame)
                    (fst (manageWindow (now frame) s))). lia.
    + rewrite detectGesture_with_hands
        by (try assumption; rewrite Eh; discriminate).
      cbn [fst]. apply processHands_sequence_length. lia.
  - rewrite detectGesture_not_ready by assumption. exact H.
Qed.

(** X1. The sequence window never holds more than five entries: a session
    that starts with at most five entries ends with at most five,
    whatever the frames. *)
Theorem X1_sequence_window_at_most_five config frames : forall s,
  (length (gestureSequence s) <= 5)%nat ->
  (length (gestureSequence (fst (runFrames config s frames))) <= 5)%nat.
Proof.
  induction frames as [|frame frames IH]; intros s H; simpl; [exact H|].
  pose proof (detectGesture_sequence_length config s frame H) as H1.
  destruct (detectGesture config s frame) as [s1 out].
  specialize (IH s1 H1).
  destruct (runFrames config s1 frames) as [s2 outs]. exact IH.
Qed.

Lemma X1_sequence_window_witness :
  (length
     (gestureSequence
        (fst (runFrames adaptiveConfig initialState
                [ frameShowing (sessionStart + 1000) "thumbs_up" 8.5;
                  frameShowing (sessionStart + 1400) "palm" 8.5;
                  frameShowing (sessionStart + 1800) "fist" 8.5;
                  frameShowing (sessionStart + 2200) "victory" 8.5;
                  frameShowing (sessionStart + 2600) "palm" 8.5;
                  frameShowing (sessionStart + 3000) "fist" 8.5;
                  frameShowing (sessionStart + 3400) "palm" 8.5 ])))
   <= 5)%nat.
Proof.
  apply X1_sequence_window_at_most_five. simpl. lia.
Defined.

Lemma debounce_keeps_history t g c s :
  gestureConfidenceHistory (fst (debounce t g c s))
  = gestureConfidenceHistory s.
Proof.
  unfold debounce.
  destruct (differsFromLast _ _); [|reflexivity].
  destruct (350 <? _); [|reflexivity].
  unfold commitGesture. destruct (gestureSequence s); reflexivity.
Qed.

(** The history after a hand: the scores of the hand are recorded, and
    nothing else touches it. *)
Lemma processHand_history config t s hand :
  gestureConfidenceHistory (fst (processHand config t s hand)) =
    recordScores (gestureConfidenceHistory s)
      (estimate hand
         (workingThreshold config (adaptiveThreshold s)
            (movementMagnitude s (calculateHandCenter (landmarks hand))))).
Proof.
  walk_processHand; try reflexivity.
  match goal with
  | H : debounce ?t ?g ?c ?s0 = (?s', _) |- _ =>
      pose proof (debounce_keeps_history t g c s0) as Hk; rewrite H in Hk
  end.
  simpl in Hk. exact Hk.
Qed.

Lemma pushScore_bounded history g :
  historiesBounded history -> historiesBounded (pushScore history g).
Proof.
  unfold historiesBounded, pushScore. intros Hb gestureName scores.
  destruct (decide (name g = gestureName)) as [<- | Hne].
  - rewrite lookup_insert_eq. intros [= <-].
    assert (Hold : (length (default [] (history !! name g)) <= 10)%nat).
    { destruct (history !! name g) as [old|] eqn:E; simpl; [eauto | lia]. }
    destruct (10 <? _)%nat eqn:E.
    + destruct (default [] (history !! name g) ++ [score g]) as [|x xs] eqn:Ex;
        simpl; [lia|].
      assert (Hl : length (x :: xs)
                   = (length (default [] (history !! name g)) + 1)%nat)
        by (rewrite <- Ex, length_app; reflexivity).
      simpl in Hl. lia.
    + apply Nat.ltb_ge in E. exact E.
  - rewrite lookup_insert_ne by exact Hne. apply Hb.
Qed.

Lemma recordScores_bounded detected : forall history,
  historiesBounded history -> historiesBounded (recordScores history detected).
Proof.
  unfold recordScores.
  induction detected as [|g detected IH]; intros history Hb; simpl.
  - exact Hb.
  - apply IH, pushScore_bounded, Hb.
Qed.

Lemma processHands_history_bounded config t hs : forall s,
  historiesBounded (gestureConfidenceHistory s) ->
  historiesBounded (gestureConfidenceHistory (fst (processHands config t s hs))).
Proof.
  induction hs as [|hand hs IH]; intros s H; simpl; [exact H|].
  pose proof (processHand_history config t s hand) as H1.
  destruct (processHand config t s hand) as [s1 out].
  specialize (IH s1).
  destruct (processHands config t s1 hs) as [s2 outs].
  simpl in *. apply IH. rewrite H1. apply recordScores_bounded, H.
Qed.

Lemma manageWindow_history t s :
  gestureConfidenceHistory (fst (manageWindow t s))
  = gestureConfidenceHistory s.
Proof. unfold manageWindow. destruct (_ && _); reflexivity. Qed.

Lemma handleAbsence_history t s :
  gestureConfidenceHistory (handleAbsence t s) = gestureConfidenceHistory s.
Proof.
  unfold handleAbsence.
  destruct (lastGesture s); [|reflexivity].
  destruct (500 <? _); [|reflexivity].
  destruct (_ && _); reflexivity.
Qed.

Lemma detectGesture_history_bounded config s frame :
  historiesBounded (gestureConfidenceHistory s) ->
  historiesBounded (gestureConfidenceHistory (fst (detectGesture config s frame))).
Proof.
  intros H. destruct (modelsReady s) eqn:Hr.
  - destruct (hands frame) as [|hand hs] eqn:Eh.
    + rewrite detectGesture_without_hands by assumption. cbn [fst].
      rewrite handleAbsence_history, manageWindow_history. exact H.
    + rewrite detectGesture_with_hands
        by (try assumption; rewrite Eh; discriminate).
      cbn [fst]. apply processHands_history_bounded.
      rewrite manageWindow_history. exact H.
  - rewrite detectGesture_not_ready by assumption. exact H.
Qed.

(** X2. No gesture name ever has more than ten recorded scores: if every
    history of the starting state holds at most ten, so does every history
    after any session. *)
Theorem X2_history_at_most_ten config frames : forall s,
  historiesBounded (gestureConfidenceHistory s) ->
  historiesBounded (gestureConfidenceHistory (fst (runFrames config s frames))).
Proof.
  induction frames as [|frame frames IH]; intros s H; simpl; [exact H|].
  pose proof (detectGesture_history_bounded config s frame H) as H1.
  destruct (detectGesture config s frame) as [s1 out].
  specialize (IH s1 H1).
  destruct (runFrames config s1 frames) as [s2 outs]. exact IH.
Qed.

Lemma X2_history_witness :
  historiesBounded
    (gestureConfidenceHistory
       (fst (runFrames adaptiveConfig rehearsedState
               [ frameShowing (sessionStart + 1000) "palm" 8.5;
                 frameShowing (sessionStart + 1200) "palm" 8.6;
                 frameShowing (sessionStart + 1400) "palm" 8.7 ]))).
Proof.
  apply X2_history_at_most_ten.
  intros gestureName scores. unfold rehearsedState. simpl.
  destruct (decide ("palm"%string = gestureName)) as [<- | Hp].
  - rewrite lookup_insert_eq. intros [= <-]. simpl. lia.
  - rewrite lookup_insert_ne by exact Hp.
    destruct (decide ("thumbs_up"%string = gestureName)) as [<- | Ht].
    + rewrite lookup_insert_eq. intros [= <-]. simpl. lia.
    + rewrite lookup_insert_ne by exact Ht. rewrite lookup_empty. discriminate.
Defined.

(** ** Frames without a gesture *)



Lemma manageWindow_counters t s :
  gestureCounters (fst (manageWindow t s)) = gestureCounters s.
Proof. unfold manageWindow. destruct (_ && _); reflexivity. Qed.

Lemma handleAbsence_counters t s :
  gestureCounters (handleAbsence t s) = gestureCounters s.
Proof.
  unfold handleAbsence.
  destruct (lastGesture s); [|reflexivity].
  destruct (500 <? _); [|reflexivity].
  destruct (_ && _); reflexivity.
Qed.





(** ** What the resolver can pick *)

(** X4. The gesture the resolver puts first is one of the candidates, and
    it either has the highest raw score of the frame, or it scores more
    than 0.9 times the highest-scoring candidate and is more than 1.5
    times as stable as that candidate. *)
Theorem X4_winner_is_top_or_close_and_steadier history detected top rest :
  rankGestures history detected = top :: rest ->
  In top detected /\
  ((forall g, In g detected -> (score g <= score top)%R) \/
   (exists first,
      In first detected /\
      (forall g, In g detected -> (score g <= score first)%R) /\
      (score top > score first * 0.9)%R /\
      (calculateGestureStability history (name top)
       > calculateGestureStability history (name first) * 1.5)%R)).
Proof.
  intros Hrank.
  assert (Hin : In top detected)
    by (eapply rankGestures_In; rewrite Hrank; left; reflexivity).
  split; [exact Hin|].
  assert (Hne : detected <> []) by (intros ->; destruct Hin).
  destruct (sortDesc_head_max score detected Hne) as (m & Hhead & Hm & Hmax).
  unfold rankGestures in Hrank.
  destruct (sortDesc score detected) as [|a [|b l]] eqn:Es;
    [discriminate Hhead| |]; simpl in Hhead; injection Hhead as ->.
  - simpl in Hrank. injection Hrank as <- _. left. exact Hmax.
  - assert (Hb : In b detected)
      by (apply (sortDesc_In score); rewrite Es; right; left; reflexivity).
    change (take 3 (m :: b :: l)) with (m :: b :: take 1 l) in Hrank.
    cbv iota beta zeta in Hrank.
    unfold Rgtb in Hrank.
    destruct (Rgt_dec (score b) (score m * 0.9)) as [Hclose|];
      [|injection Hrank as <- _; left; exact Hmax].
    destruct (Rgt_dec (calculateGestureStability history (name b))
                (calculateGestureStability history (name m) * 1.5))
      as [Hsteady|];
      [|injection Hrank as <- _; left; exact Hmax].
    injection Hrank as <- _. right. exists m. auto.
Qed.

Lemma X4_winner_witness :
  In {| name := "palm"; score := 7.6%R |} nearTie /\
  ((forall g, In g nearTie -> (score g <= 7.6)%R) \/
   (exists first,
      In first nearTie /\
      (forall g, In g nearTie -> (score g <= score first)%R) /\
      (7.6 > score first * 0.9)%R /\
      (calculateGestureStability steadyPalmHistory "palm"
       > calculateGestureStability steadyPalmHistory (name first) * 1.5)%R)).
Proof.
  apply (X4_winner_is_top_or_close_and_steadier steadyPalmHistory nearTie
           {| name := "palm"; score := 7.6%R |}
           [ {| name := "thumbs_up"; score := 8.0%R |} ]).
  rewrite (rankGestures_two steadyPalmHistory nearTie
             {| name := "thumbs_up"; score := 8.0%R |}
             {| name := "palm"; score := 7.6%R |} sortDesc_nearTie).
  cbn [name score]. destruct steadyPalm_stabilities as [-> ->].
  settle_reals; reflexivity.
Defined.

(** ** Gesture counters *)

Lemma countNamed_app g evs1 evs2 :
  countNamed g (evs1 ++ evs2) = (countNamed g evs1 + countNamed g evs2)%nat.
Proof. unfold countNamed. rewrite List.filter_app, length_app. reflexivity. Qed.

Lemma debounce_counters t g c s g' :
  default 0%nat (gestureCounters (fst (debounce t g c s)) !! g') =
    (default 0%nat (gestureCounters s !! g')
     + countNamed g' (snd (debounce t g c s)))%nat.
Proof.
  unfold debounce.
  destruct (differsFromLast _ _); [|simpl; unfold countNamed; simpl; lia].
  destruct (350 <? _); [|simpl; unfold countNamed; simpl; lia].
  unfold commitGesture, countNamed. simpl.
  assert (Hc : forall s0 : State,
             gestureCounters s0 = gestureCounters s ->
             default 0%nat
               (<[ g := S (default 0%nat (gestureCounters s0 !! g)) ]>
                  (gestureCounters s0) !! g') =
             (default 0%nat (gestureCounters s !! g')
              + length (if String.eqb g g' then [tt] else []))%nat).
  { intros s0 ->. destruct (String.eqb g g') eqn:E.
    - apply String.eqb_eq in E. subst g'. rewrite lookup_insert_eq. simpl. lia.
    - apply String.eqb_neq in E. rewrite lookup_insert_ne by exact E.
      simpl. lia. }
  destruct (gestureSequence s); simpl; rewrite Hc by reflexivity;
    destruct (String.eqb g g'); reflexivity.
Qed.

Lemma processHand_counters config t s hand g :
  default 0%nat (gestureCounters (fst (processHand config t s hand)) !! g) =
    (default 0%nat (gestureCounters s !! g)
     + countNamed g (events (snd (processHand config t s hand))))%nat.
Proof.
  walk_processHand; try (unfold countNamed; simpl; lia).
  match goal with
  | H : debounce ?t ?g0 ?c ?s0 = _ |- _ =>
      pose proof (debounce_counters t g0 c s0 g) as Hk; rewrite H in Hk
  end.
  simpl in Hk. exact Hk.
Qed.

Lemma processHands_counters config t g hs : forall s,
  default 0%nat (gestureCounters (fst (processHands config t s hs)) !! g) =
    (default 0%nat (gestureCounters s !! g)
     + countNamed g (concat (map events (snd (processHands config t s hs)))))%nat.
Proof.
  induction hs as [|hand hs IH]; intros s; simpl.
  - unfold countNamed. simpl. lia.
  - pose proof (processHand_counters config t s hand g) as H1.
    destruct (processHand config t s hand) as [s1 out].
    specialize (IH s1).
    destruct (processHands config t s1 hs) as [s2 outs].
    simpl in *. rewrite countNamed_app. lia.
Qed.

Lemma detectGesture_counters config s frame g :
  default 0%nat (gestureCounters (fst (detectGesture config s frame)) !! g) =
    (default 0%nat (gestureCounters s !! g)
     + countNamed g (frameEvents (snd (detectGesture config s frame))))%nat.
Proof.
  destruct (modelsReady s) eqn:Hr.
  - destruct (hands frame) as [|hand hs] eqn:Eh.
    + rewrite detectGesture_without_hands by assumption.
      cbn [fst snd]. rewrite handleAbsence_counters, manageWindow_counters.
      unfold countNamed, frameEvents. simpl. lia.
    + rewrite detectGesture_with_hands
        by (try assumption; rewrite Eh; discriminate).
      unfold frameEvents. cbn [fst snd handResults].
      rewrite processHands_counters, manageWindow_counters. reflexivity.
  - rewrite detectGesture_not_ready by assumption.
    unfold countNamed, frameEvents. simpl. lia.
Qed.

(** X5. The gesture counters count the emitted events: over any session,
    the counter of a gesture name grows by exactly the number of events
    emitted for that name, a missing counter standing for 0. *)
Theorem X5_counters_count_events config g frames : forall s,
  default 0%nat (gestureCounters (fst (runFrames config s frames)) !! g) =
    (default 0%nat (gestureCounters s !! g)
     + countNamed g (emittedEvents (snd (runFrames config s frames))))%nat.
Proof.
  induction frames as [|frame frames IH]; intros s; simpl.
  - unfold countNamed. simpl. lia.
  - pose proof (detectGesture_counters config s frame g) as H1.
    destruct (detectGesture config s frame) as [s1 out].
    specialize (IH s1).
    destruct (runFrames config s1 frames) as [s2 outs].
    simpl in *. unfold emittedEvents in *. simpl.
    rewrite countNamed_app. lia.
Qed.

(** ** The range of the stability measure *)

Lemma stabilityOf_at_most_100 scores : (stabilityOf scores <= 100)%R.
Proof.
  unfold stabilityOf, stdDevOf.
  pose proof (sqrt_pos (varianceOf scores)) as Hs.
  unfold Rdiv. rewrite Rmult_1_l.
  replace 100%R with (/ 0.01)%R by lra.
  apply Rinv_le_contravar; lra.
Qed.

(** X6. The stability of a gesture name always lies between 0 and 100:
    it is 0 or 1 / (standard deviation + 0.01), and the added 0.01 keeps
    the quotient at or below 100 however little the recorded scores
    vary. *)
Theorem X6_stability_between_0_and_100 history gestureName :
  (0 <= calculateGestureStability history gestureName <= 100)%R.
Proof.
  split; [apply calculateGestureStability_nonneg|].
  unfold calculateGestureStability.
  destruct (history !! gestureName) as [scores|]; [|lra].
  destruct (length scores <? 3)%nat; [lra | apply stabilityOf_at_most_100].
Qed.

(** ** The pattern table *)

Lemma matchKnown_complete table a b action :
  Forall (fun entry => length (split_comma (fst entry)) = 2%nat) table ->
  List.NoDup (map fst table) ->
  In (join_comma [a; b], action) table ->
  matchKnown table [a; b] = Some action.
Proof.
  induction table as [|[pattern action'] table IH]; intros Hall Hnd Hin.
  - destruct Hin.
  - inversion Hall as [|? ? Hlen Hrest]; subst. simpl in Hlen.
    inversion Hnd as [|? ? Hfresh Hnd']; subst.
    simpl matchKnown. rewrite Hlen.
    change (sliceLast 2 [a; b]) with [a; b].
    destruct (String.eqb (join_comma [a; b]) pattern) eqn:E; simpl.
    + apply String.eqb_eq in E. destruct Hin as [Heq | Hin].
      * congruence.
      * exfalso. apply Hfresh. subst pattern.
        apply (in_map fst) in Hin. exact Hin.
    + apply String.eqb_neq in E. destruct Hin as [Heq | Hin].
      * congruence.
      * apply IH; assumption.
Qed.

Lemma knownSequences_distinct : List.NoDup (map fst knownSequences).
Proof.
  unfold knownSequences. simpl.
  repeat (constructor; [simpl; intuition discriminate|]). constructor.
Qed.

(** X7. A window of fewer than two entries yields no action; a longer one
    yields an action exactly when the names of its last two entries,
    joined by a comma, are a key of the pattern table, and the action is
    the one stored under that key: earlier entries play no part. *)
Theorem X7_sequence_action_from_last_two :
  (forall sequence,
     (length sequence < 2)%nat -> checkGestureSequence sequence = None) /\
  (forall pre e1 e2 action,
     checkGestureSequence (pre ++ [e1; e2]) = Some action <->
     In ((gesture e1 ++ "," ++ gesture e2)%string, action) knownSequences).
Proof.
  split.
  - intros sequence Hlen. unfold checkGestureSequence.
    apply Nat.ltb_lt in Hlen. rewrite Hlen. reflexivity.
  - intros pre e1 e2 action.
    assert (Hcheck : checkGestureSequence (pre ++ [e1; e2])
                     = matchKnown knownSequences [gesture e1; gesture e2]).
    { unfold checkGestureSequence. rewrite length_app. simpl length.
      replace (length pre + 2 <? 2)%nat with false
        by (symmetry; apply Nat.ltb_ge; lia).
      rewrite map_app. simpl map.
      apply matchKnown_suffix, knownSequences_pairs. }
    rewrite Hcheck. split.
    + intros H. apply matchKnown_sound in H; [exact H | exact knownSequences_pairs].
    + intros H. apply matchKnown_complete;
        [exact knownSequences_pairs | exact knownSequences_distinct | exact H].
Qed.

Lemma X7_sequence_action_witness :
  checkGestureSequence
    [ {| gesture := "palm"; timestamp := sessionStart + 1000 |} ] = None /\
  checkGestureSequence
    ([ {| gesture := "thumbs_up"; timestamp := sessionStart + 1000 |} ]
     ++ [ {| gesture := "victory"; timestamp := sessionStart + 1400 |};
          {| gesture := "fist"; timestamp := sessionStart + 1800 |} ])
    = Some "SCISSORS_TO_ROCK"%string.
Proof.
  destruct X7_sequence_action_from_last_two as [Hshort Hlast].
  split.
  - apply Hshort. simpl. lia.
  - apply Hlast. simpl. tauto.
Defined.

(** ** Short losses of the hand *)

Lemma detectGesture_brief_absence config s frame :
  hands frame = [] ->
  now frame - lastGestureTime s <= 500 ->
  let r := detectGesture config s frame in
  modelsReady (fst r) = modelsReady s /\
  lastGesture (fst r) = lastGesture s /\
  lastGestureTime (fst r) = lastGestureTime s /\
  frameEvents (snd r) = [].
Proof.
  intros Hh Hshort r. subst r. destruct (modelsReady s) eqn:Hr.
  - rewrite detectGesture_without_hands by assumption. cbn [fst snd].
    pose proof (manageWindow_lastGestureTime (now frame) s) as (Hwt & Hwl & Hwm).
    unfold handleAbsence. rewrite Hwl, Hwt.
    replace (500 <? now frame - lastGestureTime s) with false
      by (symmetry; apply Z.ltb_ge; lia).
    destruct (lastGesture s); (split; [congruence|]); auto.
  - rewrite detectGesture_not_ready by assumption. auto.
Qed.

(** X8. While the frames without a hand all come within 500 ms of the last
    emission, the held gesture name and the time of the last emission are
    kept and nothing is emitted; a frame that then resolves the held name
    again emits no event. *)
Theorem X8_brief_absence_keeps_held_gesture config s absent next g :
  lastGesture s = Some g ->
  Forall (fun f => hands f = [] /\ now f - lastGestureTime s <= 500) absent ->
  let r := runFrames config s absent in
  lastGesture (fst r) = Some g /\
  lastGestureTime (fst r) = lastGestureTime s /\
  emittedEvents (snd r) = [] /\
  (frameResolves g (snd (detectGesture config (fst r) next)) ->
   frameEvents (snd (detectGesture config (fst r) next)) = []).
Proof.
  intros Hl Hall r. subst r.
  assert (Hkeep : lastGesture (fst (runFrames config s absent)) = Some g /\
                  lastGestureTime (fst (runFrames config s absent))
                  = lastGestureTime s /\
                  emittedEvents (snd (runFrames config s absent)) = []).
  { revert s Hl Hall. induction absent as [|frame absent IH]; intros s Hl Hall.
    - simpl. auto.
    - inversion Hall as [|? ? [Hh Hshort] Hrest]; subst. simpl.
      pose proof (detectGesture_brief_absence config s frame Hh Hshort)
        as (_ & Hl1 & Ht1 & He1).
      destruct (detectGesture config s frame) as [s1 out]. simpl in *.
      specialize (IH s1).
      destruct (runFrames config s1 absent) as [s2 outs]. simpl in *.
      destruct IH as (Hl2 & Ht2 & He2); [congruence | |].
      + eapply Forall_impl; [exact Hrest|]. intros f [Hf Hs].
        split; [exact Hf | rewrite Ht1; exact Hs].
      + unfold emittedEvents in *. simpl. rewrite He1, He2.
        repeat split; congruence. }
  destruct Hkeep as (Hl1 & Ht1 & He1).
  split; [exact Hl1|]. split; [exact Ht1|]. split; [exact He1|].
  intros Hres.
  destruct (detectGesture_resolving config _ next g Hres) as (_ & _ & _ & Hcase).
  unfold silent, emitted in Hcase.
  destruct Hcase as [(_ & Hev & _) | (Hd & _)]; [exact Hev|].
  rewrite Hl1, differsFromLast_same in Hd. discriminate.
Qed.

Lemma X8_brief_absence_witness :
  let s := fst (detectGesture adaptiveConfig initialState
                  (frameShowing (sessionStart + 1000) "palm" 8.7)) in
  let r := runFrames adaptiveConfig s
             [ frameWithoutHand (sessionStart + 1200);
               frameWithoutHand (sessionStart + 1400) ] in
  lastGesture (fst r) = Some "palm"%string /\
  frameEvents
    (snd (detectGesture adaptiveConfig (fst r)
            (frameShowing (sessionStart + 1600) "palm" 8.6))) = [].
Proof.
  intros s r.
  destruct (X8_brief_absence_keeps_held_gesture adaptiveConfig s
              [ frameWithoutHand (sessionStart + 1200);
                frameWithoutHand (sessionStart + 1400) ]
              (frameShowing (sessionStart + 1600) "palm" 8.6) "palm")
    as (Hl & _ & _ & Hnext).
  - vm_compute. reflexivity.
  - repeat constructor; vm_compute; discriminate.
  - split; [exact Hl|]. apply Hnext. vm_compute.
    split; [discriminate | repeat constructor].
Defined.

(** ** The threshold with the adaptive controller off *)







(** ** More on the arbitration gateway *)

Lemma highestConfidence_name candidates r :
  highestConfidence candidates = Some r ->
  exists c, In c candidates /\ r = plain c.
Proof.
  unfold highestConfidence.
  destruct (sortDesc c_confidence candidates) as [|c rest] eqn:Es; simpl;
    [discriminate|].
  intros [= <-]. exists c. split; [|reflexivity].
  apply (sortDesc_In c_confidence). rewrite Es. left. reflexivity.
Qed.

Lemma findCandidate_spec env g candidates c :
  findCandidate env g candidates = Some c <->
  exists pre post,
    candidates = pre ++ c :: post /\
    toLowerCase env (c_name c) = toLowerCase env g /\
    forall c', In c' pre ->
      toLowerCase env (c_name c') <> toLowerCase env g.
Proof.
  unfold findCandidate. split.
  - induction candidates as [|x candidates IH]; simpl; [discriminate|].
    destruct (String.eqb (toLowerCase env (c_name x)) (toLowerCase env g))
      eqn:E.
    + intros [= <-]. apply String.eqb_eq in E.
      exists [], candidates.
      split; [reflexivity|]. split; [exact E|]. intros c' [].
    + intros H. destruct (IH H) as (pre & post & -> & Hm & Hno).
      apply String.eqb_neq in E.
      exists (x :: pre), post.
      split; [reflexivity|]. split; [exact Hm|].
      intros c' [<- | Hc']; auto.
  - intros (pre & post & -> & Hm & Hno).
    induction pre as [|x pre IH]; simpl.
    + apply String.eqb_eq in Hm. rewrite Hm. reflexivity.
    + assert (Hx : String.eqb (toLowerCase env (c_name x))
                              (toLowerCase env g) = false)
        by (apply String.eqb_neq, Hno; left; reflexivity).
      rewrite Hx. apply IH. intros c' Hc'. apply Hno. right. exact Hc'.
Qed.

(** X10. Whatever the service does, the gateway answers with the name of
    a submitted candidate, in the spelling submitted, and it answers
    nothing only for an empty candidate list. When the client is available
    and the reply names a candidate up to letter case, the first such
    candidate is returned with the confidence and the explanation of the
    reply and marked as adjudicated. *)
Theorem X10_gateway_answers_with_a_candidate :
  (forall candidates env r,
     processAmbiguousGesture candidates env = Some r ->
     In (r_name r) (map c_name candidates)) /\
  (forall candidates env,
     processAmbiguousGesture candidates env = None <-> candidates = []) /\
  (forall pre c post env g confidence explanation,
     clientReady env = true \/ initAI env = true ->
     reply env = Replied g confidence explanation ->
     toLowerCase env (c_name c) = toLowerCase env g ->
     (forall c', In c' pre ->
        toLowerCase env (c_name c') <> toLowerCase env g) ->
     processAmbiguousGesture (pre ++ c :: post) env =
       Some {| r_name := c_name c; r_confidence := confidence;
               r_aiEnhanced := true;
               r_explanation := Some explanation |}).
Proof.
  assert (Hname : forall candidates env r,
            processAmbiguousGesture candidates env = Some r ->
            In (r_name r) (map c_name candidates)).
  { intros candidates env r. unfold processAmbiguousGesture.
    assert (Hfall : highestConfidence candidates = Some r ->
                    In (r_name r) (map c_name candidates)).
    { intros H. apply highestConfidence_name in H as (c & Hin & ->).
      simpl. apply in_map. exact Hin. }
    destruct (_ && _); [exact Hfall|].
    destruct (reply env) as [|g confidence explanation]; [exact Hfall|].
    destruct (findCandidate env g candidates) as [c|] eqn:Ef;
      [|exact Hfall].
    intros [= <-]. simpl. apply in_map.
    apply findCandidate_spec in Ef as (pre & post & -> & _).
    apply in_or_app. right. left. reflexivity. }
  split; [exact Hname|]. split.
  - intros candidates env. split.
    + intros Hnone. destruct candidates as [|c cs]; [reflexivity|].
      exfalso.
      destruct (highestConfidence_max (c :: cs)) as (m & Hm & _); [discriminate|].
      unfold processAmbiguousGesture in Hnone. rewrite Hm in Hnone.
      destruct (_ && _); [discriminate|].
      destruct (reply env); [discriminate|].
      destruct (findCandidate _ _ _); discriminate.
    + intros ->. unfold processAmbiguousGesture. simpl.
      destruct (_ && _); [reflexivity|].
      destruct (reply env); reflexivity.
  - intros pre c post env g confidence explanation Hclient Hreply Hm Hno.
    unfold processAmbiguousGesture.
    replace (negb (clientReady env) && negb (initAI env)) with false
      by (destruct Hclient as [-> | ->]; simpl;
          [reflexivity | destruct (clientReady env); reflexivity]).
    rewrite Hreply.
    replace (findCandidate env g (pre ++ c :: post)) with (Some c)
      by (symmetry; apply findCandidate_spec; eauto).
    reflexivity.
Qed.

Lemma X10_gateway_witness :
  In "B"%string (map c_name tiedCandidates) /\
  processAmbiguousGesture
    ([ {| c_name := "A"; c_confidence := 8.0%R |} ]
     ++ {| c_name := "B"; c_confidence := 7.9%R |} :: [])
    {| clientReady := false; initAI := true;
       reply := Replied "b" 0.95 "steadier";
       toLowerCase := asciiLowerCase |}
  = Some {| r_name := "B"; r_confidence := 0.95%R; r_aiEnhanced := true;
            r_explanation := Some "steadier"%string |}.
Proof.
  destruct X10_gateway_answers_with_a_candidate as (Hname & _ & Hadopt).
  split.
  - apply (Hname tiedCandidates
             {| clientReady := true; initAI := true;
                reply := Replied "b" 0.95 "steadier";
                toLowerCase := asciiLowerCase |}
             {| r_name := "B"; r_confidence := 0.95%R; r_aiEnhanced := true;
                r_explanation := Some "steadier"%string |}).
    reflexivity.
  - eapply Hadopt.
    + right. reflexivity.
    + reflexivity.
    + reflexivity.
    + intros c' [<- | []]. discriminate.
Defined.

Lemma sortDesc_head_first_max {A} (key : A -> R) pre c post :
  (forall x, In x pre -> (key x < key c)%R) ->
  (forall x, In x post -> (key x <= key c)%R) ->
  head (sortDesc key (pre ++ c :: post)) = Some c.
Proof.
  intros Hpre Hpost.
  assert (Hc : head (sortDesc key (c :: post)) = Some c).
  { change (sortDesc key (c :: post))
      with (insertDesc key c (sortDesc key post)).
    destruct post as [|y post']; [reflexivity|].
    destruct (sortDesc_head_max key (y :: post')) as (m & Hhead & Hin & _);
      [discriminate|].
    destruct (sortDesc key (y :: post')) as [|z zs]; [discriminate Hhead|].
    simpl in Hhead. injection Hhead as ->.
    simpl. unfold Rgtb. specialize (Hpost m Hin).
    destruct (Rgt_dec (key m) (key c)); [lra | reflexivity]. }
  induction pre as [|x pre IH]; [exact Hc|].
  change (sortDesc key ((x :: pre) ++ c :: post))
    with (insertDesc key x (sortDesc key (pre ++ c :: post))).
  assert (IH' : head (sortDesc key (pre ++ c :: post)) = Some c)
    by (apply IH; intros y Hy; apply Hpre; right; exact Hy).
  destruct (sortDesc key (pre ++ c :: post)) as [|z zs]; [discriminate IH'|].
  simpl in IH'. injection IH' as ->.
  simpl. unfold Rgtb. assert (key x < key c)%R by (apply Hpre; left; reflexivity).
  destruct (Rgt_dec (key c) (key x)); [reflexivity | lra].
Qed.

(** X11. When the gateway falls back, ties are broken by position: the
    candidate returned is the first submitted among those of highest
    confidence. *)
Theorem X11_fallback_prefers_first_of_equals pre c post env :
  noAdoptedAnswer (pre ++ c :: post) env ->
  (forall x, In x pre -> (c_confidence x < c_confidence c)%R) ->
  (forall x, In x post -> (c_confidence x <= c_confidence c)%R) ->
  processAmbiguousGesture (pre ++ c :: post) env = Some (plain c).
Proof.
  intros Hno Hpre Hpost.
  rewrite (processAmbiguousGesture_fallback _ env Hno).
  unfold highestConfidence.
  rewrite (sortDesc_head_first_max c_confidence pre c post Hpre Hpost).
  reflexivity.
Qed.

Lemma X11_fallback_witness :
  processAmbiguousGesture
    ([ {| c_name := "fist"; c_confidence := 7.5%R |} ]
     ++ {| c_name := "palm"; c_confidence := 8.0%R |}
     :: [ {| c_name := "victory"; c_confidence := 8.0%R |} ])
    {| clientReady := true; initAI := true; reply := CallFailed;
       toLowerCase := asciiLowerCase |}
  = Some (plain {| c_name := "palm"; c_confidence := 8.0%R |}).
Proof.
  apply X11_fallback_prefers_first_of_equals.
  - right. left. reflexivity.
  - intros x [<- | []]. simpl. lra.
  - intros x [<- | []]. simpl. lra.
Defined.

(** * Properties of the background service *)

(** ** Dwell between accepted gestures *)

Lemma spacedBy_consecutive gap t0 t1 pre e1 e2 post :
  spacedBy gap t0 (pre ++ e1 :: e2 :: post) t1 ->
  gap < ev_timestamp e2 - ev_timestamp e1.
Proof.
  revert t0. induction pre as [|e pre IH]; simpl; intros t0 H.
  - tauto.
  - destruct H as [_ H]. eauto.
Qed.

(** What a call of [detectOnce] does to the debouncer of the service:
    nothing is accepted and the time stamp stays, or one gesture is
    accepted more than 500 ms after the stamp, which becomes the time of
    the call. *)
Lemma detectOnce_accepts s frame :
  let r := BackgroundLoop.detectOnce s frame in
  BackgroundLoop.ready (fst r) = BackgroundLoop.ready s /\
  ((BackgroundLoop.accepted (snd r) = None /\
    BackgroundLoop.sequencePattern (snd r) = None /\
    BackgroundLoop.lastGestureTimestamp (fst r)
    = BackgroundLoop.lastGestureTimestamp s) \/
   (exists e,
      BackgroundLoop.accepted (snd r) = Some e /\
      ev_timestamp e = now frame /\
      500 < now frame - BackgroundLoop.lastGestureTimestamp s /\
      BackgroundLoop.differsFromLast (ev_name e)
        (BackgroundLoop.lastDetectedGesture s) = true /\
      BackgroundLoop.lastDetectedGesture (fst r) = Some (ev_name e) /\
      BackgroundLoop.lastGestureTimestamp (fst r) = now frame)).
Proof.
  intros r. subst r. unfold BackgroundLoop.detectOnce.
  destruct (BackgroundLoop.ready s) eqn:Hr; simpl; [|auto].
  destruct (hands frame) as [|hand hs].
  - simpl. unfold BackgroundLoop.handleAbsence.
    destruct (BackgroundLoop.lastDetectedGesture s); [|auto].
    destruct (1000 <? _); simpl; auto.
  - destruct (BackgroundGestureService.detectGesture
                (BackgroundLoop.detector s) hand) as [d [result|]];
      [|simpl; auto].
    unfold BackgroundLoop.acceptGesture. simpl.
    destruct (BackgroundLoop.differsFromLast (d_name result)
                (BackgroundLoop.lastDetectedGesture s)) eqn:Hd; [|simpl; auto].
    destruct (500 <? now frame - BackgroundLoop.lastGestureTimestamp s) eqn:Ht;
      [|simpl; auto].
    apply Z.ltb_lt in Ht. simpl. split; [reflexivity|]. right.
    eexists. split; [reflexivity|]. simpl. auto.
Qed.

Lemma runLoop_spaced frames : forall s,
  spacedBy 500 (BackgroundLoop.lastGestureTimestamp s)
    (BackgroundLoop.acceptedEvents (snd (BackgroundLoop.runLoop s frames)))
    (BackgroundLoop.lastGestureTimestamp
       (fst (BackgroundLoop.runLoop s frames))).
Proof.
  induction frames as [|frame frames IH]; intros s; simpl; [reflexivity|].
  pose proof (detectOnce_accepts s frame) as (_ & Hcase).
  destruct (BackgroundLoop.detectOnce s frame) as [s1 out].
  specialize (IH s1).
  destruct (BackgroundLoop.runLoop s1 frames) as [s2 outs].
  simpl in *.
  destruct Hcase as [(Ha & _ & Ht) | (e & Ha & He & Hgap & _ & _ & Ht)];
    rewrite Ha.
  - rewrite <- Ht. exact IH.
  - simpl. rewrite He. split; [exact Hgap|]. rewrite <- Ht. exact IH.
Qed.

(** X12. In the background service two gestures accepted one after the
    other are more than 500 ms apart, whatever the session. *)
Theorem X12_background_dwell s frames pre e1 e2 post :
  BackgroundLoop.acceptedEvents (snd (BackgroundLoop.runLoop s frames))
    = pre ++ e1 :: e2 :: post ->
  500 < ev_timestamp e2 - ev_timestamp e1.
Proof.
  intros Hev. pose proof (runLoop_spaced frames s) as H.
  rewrite Hev in H. eapply spacedBy_consecutive. exact H.
Qed.

Lemma X12_background_dwell_witness :
  500 < ev_timestamp {| ev_name := "palm"; ev_confidence := 9.6%R;
                        ev_timestamp := sessionStart + 1600 |}
        - ev_timestamp {| ev_name := "thumbs_up"; ev_confidence := 9.5%R;
                          ev_timestamp := sessionStart + 1000 |}.
Proof.
  apply (X12_background_dwell BackgroundLoop.started
           [ backgroundFrame (sessionStart + 1000) "thumbs_up" 9.5;
             backgroundFrame (sessionStart + 1200) "palm" 9.6;
             backgroundFrame (sessionStart + 1600) "palm" 9.6 ]
           []
           {| ev_name := "thumbs_up"; ev_confidence := 9.5%R;
              ev_timestamp := sessionStart + 1000 |}
           {| ev_name := "palm"; ev_confidence := 9.6%R;
              ev_timestamp := sessionStart + 1600 |}
           []).
  vm_compute. reflexivity.
Defined.

(** ** Patterns are looked up when a gesture is appended *)

Lemma background_pushSequence_last_two entry pre prev :
  exists kept,
    BackgroundLoop.pushSequence entry (pre ++ [prev]) = kept ++ [prev; entry].
Proof.
  unfold BackgroundLoop.pushSequence.
  rewrite <- app_assoc. simpl app.
  destruct (5 <? length (pre ++ [prev; entry]))%nat eqn:E.
  - destruct pre as [|x pre'].
    + simpl in E. discriminate.
    + exists pre'. reflexivity.
  - exists pre. reflexivity.
Qed.

Lemma background_check_after_push entry sequence :
  (if (2 <=? length (BackgroundLoop.pushSequence entry sequence))%nat
   then BackgroundLoop.checkGestureSequence
          (BackgroundLoop.pushSequence entry sequence)
   else None) =
  match last sequence with
  | None => None
  | Some prev =>
      BackgroundLoop.lookupSequence BackgroundLoop.knownSequences
        (gesture prev ++ "," ++ gesture entry)%string
  end.
Proof.
  destruct sequence as [|x xs]; [reflexivity|].
  destruct (exists_last (l := x :: xs)) as (pre & prev & ->); [discriminate|].
  rewrite last_snoc.
  destruct (background_pushSequence_last_two entry pre prev) as (kept & ->).
  rewrite length_app. simpl length.
  replace (2 <=? length kept + 2)%nat with true
    by (symmetry; apply Nat.leb_le; lia).
  unfold BackgroundLoop.checkGestureSequence.
  rewrite length_app. simpl length.
  replace (length kept + 2 <? 2)%nat with false
    by (symmetry; apply Nat.ltb_ge; lia).
  rewrite map_app. simpl map.
  rewrite (sliceLast_app (map gesture kept) [gesture prev; gesture entry]
           : sliceLast 2 (map gesture kept ++ [gesture prev; gesture entry])
             = [gesture prev; gesture entry]).
  reflexivity.
Qed.

(** X13. The background service consults its pattern table in the very
    call that accepts a gesture: the pattern logged is the table entry
    for the name of the previous window entry and the accepted name,
    joined by a comma, however long ago the previous entry was accepted;
    nothing is logged when the window was empty or when the call accepts
    no gesture. *)
Theorem X13_background_pattern_on_append s frame :
  let r := BackgroundLoop.detectOnce s frame in
  match BackgroundLoop.accepted (snd r) with
  | Some e =>
      BackgroundLoop.gestureSequence (fst r) =
        BackgroundLoop.pushSequence
          {| gesture := ev_name e; timestamp := now frame |}
          (BackgroundLoop.gestureSequence s) /\
      BackgroundLoop.sequencePattern (snd r) =
        match last (BackgroundLoop.gestureSequence s) with
        | None => None
        | Some prev =>
            BackgroundLoop.lookupSequence BackgroundLoop.knownSequences
              (gesture prev ++ "," ++ ev_name e)%string
        end
  | None => BackgroundLoop.sequencePattern (snd r) = None
  end.
Proof.
  intros r. subst r. unfold BackgroundLoop.detectOnce.
  destruct (BackgroundLoop.ready s); simpl; [|reflexivity].
  destruct (hands frame) as [|hand hs]; [reflexivity|].
  destruct (BackgroundGestureService.detectGesture
              (BackgroundLoop.detector s) hand) as [d [result|]];
    [|reflexivity].
  unfold BackgroundLoop.acceptGesture. simpl.
  destruct (BackgroundLoop.differsFromLast _ _); [|reflexivity].
  destruct (500 <? _); [|reflexivity].
  simpl. split; [reflexivity|].
  apply (background_check_after_push
           {| gesture := d_name result; timestamp := now frame |}).
Qed.

(** ** Hand absence in the background service *)

(** X14. In the background service a call without a hand changes nothing
    while at most 1000 ms have passed since the last accepted gesture.
    Once more than 1000 ms have passed it clears the held name and the
    window, so that the next gesture detected, even the one held before,
    is accepted, opens a new window and logs no pattern. *)
Theorem X14_background_absence_resets s absent next hand others g result :
  BackgroundLoop.ready s = true ->
  BackgroundLoop.lastDetectedGesture s = Some g ->
  hands absent = [] ->
  hands next = hand :: others ->
  now absent <= now next ->
  snd (BackgroundGestureService.detectGesture (BackgroundLoop.detector s) hand)
    = Some result ->
  (now absent - BackgroundLoop.lastGestureTimestamp s <= 1000 ->
   fst (BackgroundLoop.detectOnce s absent) = s) /\
  (1000 < now absent - BackgroundLoop.lastGestureTimestamp s ->
   let r := BackgroundLoop.detectOnce
              (fst (BackgroundLoop.detectOnce s absent)) next in
   BackgroundLoop.accepted (snd r)
     = Some {| ev_name := d_name result;
               ev_confidence := d_confidence result;
               ev_timestamp := now next |} /\
   BackgroundLoop.sequencePattern (snd r) = None /\
   BackgroundLoop.gestureSequence (fst r)
     = [ {| gesture := d_name result; timestamp := now next |} ]).
Proof.
  intros Hr Hl Ha Hn Hle Hres. split.
  - intros Hshort. unfold BackgroundLoop.detectOnce.
    rewrite Hr, Ha. simpl. unfold BackgroundLoop.handleAbsence. rewrite Hl.
    replace (1000 <? now absent - BackgroundLoop.lastGestureTimestamp s)
      with false by (symmetry; apply Z.ltb_ge; lia).
    reflexivity.
  - intros Hlong r. subst r.
    assert (Hcleared :
              fst (BackgroundLoop.detectOnce s absent) =
              {| BackgroundLoop.ready := true;
                 BackgroundLoop.detector := BackgroundLoop.detector s;
                 BackgroundLoop.lastDetectedGesture := None;
                 BackgroundLoop.lastGestureTimestamp :=
                   BackgroundLoop.lastGestureTimestamp s;
                 BackgroundLoop.gestureSequence := [];
                 BackgroundLoop.gestureCounters :=
                   BackgroundLoop.gestureCounters s |}).
    { unfold BackgroundLoop.detectOnce.
      rewrite Hr, Ha. simpl. unfold BackgroundLoop.handleAbsence. rewrite Hl.
      replace (1000 <? now absent - BackgroundLoop.lastGestureTimestamp s)
        with true by (symmetry; apply Z.ltb_lt; lia).
      rewrite Hr. reflexivity. }
    rewrite Hcleared.
    unfold BackgroundLoop.detectOnce. simpl. rewrite Hn. simpl.
    destruct (BackgroundGestureService.detectGesture
                (BackgroundLoop.detector s) hand) as [d res].
    simpl in Hres. subst res.
    unfold BackgroundLoop.acceptGesture. simpl.
    replace (500 <? now next - BackgroundLoop.lastGestureTimestamp s)
      with true by (symmetry; apply Z.ltb_lt; lia).
    simpl. auto.
Qed.

Lemma X14_background_absence_witness :
  let s := fst (BackgroundLoop.detectOnce BackgroundLoop.started
                  (backgroundFrame (sessionStart + 1000) "palm" 9.5)) in
  let r := BackgroundLoop.detectOnce
             (fst (BackgroundLoop.detectOnce s
                     (frameWithoutHand (sessionStart + 2100))))
             (backgroundFrame (sessionStart + 2200) "palm" 9.5) in
  fst (BackgroundLoop.detectOnce s (frameWithoutHand (sessionStart + 1900)))
    = s /\
  BackgroundLoop.sequencePattern (snd r) = None /\
  BackgroundLoop.gestureSequence (fst r)
    = [ {| gesture := "palm"; timestamp := sessionStart + 2200 |} ].
Proof.
  intros s r. split.
  - eapply (X14_background_absence_resets s
              (frameWithoutHand (sessionStart + 1900))
              (backgroundFrame (sessionStart + 2200) "palm" 9.5)).
    + vm_compute. reflexivity.
    + vm_compute. reflexivity.
    + reflexivity.
    + reflexivity.
    + vm_compute. discriminate.
    + vm_compute. reflexivity.
    + vm_compute. discriminate.
  - edestruct (X14_background_absence_resets s
                 (frameWithoutHand (sessionStart + 2100))
                 (backgroundFrame (sessionStart + 2200) "palm" 9.5))
      as [_ Hlong].
    + vm_compute. reflexivity.
    + vm_compute. reflexivity.
    + reflexivity.
    + reflexivity.
    + vm_compute. discriminate.
    + vm_compute. reflexivity.
    + destruct Hlong as (_ & Hp & Hs); [vm_compute; reflexivity|].
      split; [exact Hp | exact Hs].
Defined.

(** ** Bounded buffers of the background service *)

Lemma background_pushScore_within history key value :
  historiesWithin 5 history ->
  historiesWithin 5 (BackgroundGestureService.pushScore history key value).
Proof.
  unfold historiesWithin, BackgroundGestureService.pushScore.
  intros Hb gestureName scores.
  destruct (decide (key = gestureName)) as [<- | Hne].
  - rewrite lookup_insert_eq. intros [= <-].
    assert (Hold : (length (default [] (history !! key)) <= 5)%nat).
    { destruct (history !! key) as [old|] eqn:E; simpl; [eauto | lia]. }
    destruct (5 <? _)%nat eqn:E.
    + destruct (default [] (history !! key) ++ [value]) as [|x xs] eqn:Ex;
        simpl; [lia|].
      assert (Hl : length (x :: xs)
                   = (length (default [] (history !! key)) + 1)%nat)
        by (rewrite <- Ex, length_app; reflexivity).
      simpl in Hl. lia.
    + apply Nat.ltb_ge in E. exact E.
  - rewrite lookup_insert_ne by exact Hne. apply Hb.
Qed.

Lemma background_detectGesture_within s hand :
  historiesWithin 5 (BackgroundGestureService.gestureConfidenceHistory s) ->
  historiesWithin 5
    (BackgroundGestureService.gestureConfidenceHistory
       (fst (BackgroundGestureService.detectGesture s hand))).
Proof.
  intros H. unfold BackgroundGestureService.detectGesture.
  destruct (negb _); [exact H|].
  destruct (sortDesc score _) as [|top rest]; simpl; [exact H|].
  apply background_pushScore_within, H.
Qed.

Lemma background_pushSequence_length entry sequence :
  (length sequence <= 5)%nat ->
  (length (BackgroundLoop.pushSequence entry sequence) <= 5)%nat.
Proof.
  intros H. unfold BackgroundLoop.pushSequence.
  destruct (5 <? length (sequence ++ [entry]))%nat eqn:E.
  - destruct (sequence ++ [entry]) as [|x xs] eqn:Es; simpl; [lia|].
    assert (Hl : length (x :: xs) = (length sequence + 1)%nat)
      by (rewrite <- Es, length_app; reflexivity).
    simpl in Hl. lia.
  - apply Nat.ltb_ge in E. exact E.
Qed.

Lemma detectOnce_bounded s frame :
  (length (BackgroundLoop.gestureSequence s) <= 5)%nat ->
  historiesWithin 5
    (BackgroundGestureService.gestureConfidenceHistory
       (BackgroundLoop.detector s)) ->
  (length (BackgroundLoop.gestureSequence
             (fst (BackgroundLoop.detectOnce s frame))) <= 5)%nat /\
  historiesWithin 5
    (BackgroundGestureService.gestureConfidenceHistory
       (BackgroundLoop.detector (fst (BackgroundLoop.detectOnce s frame)))).
Proof.
  intros Hs Hh. unfold BackgroundLoop.detectOnce.
  destruct (negb _); [auto|].
  destruct (hands frame) as [|hand hs].
  - simpl. unfold BackgroundLoop.handleAbsence.
    destruct (BackgroundLoop.lastDetectedGesture s); [|auto].
    destruct (1000 <? _); simpl; [split; [lia | exact Hh] | auto].
  - pose proof (background_detectGesture_within
                  (BackgroundLoop.detector s) hand Hh) as Hd.
    destruct (BackgroundGestureService.detectGesture
                (BackgroundLoop.detector s) hand) as [d [result|]];
      simpl in *; [|auto].
    unfold BackgroundLoop.acceptGesture. simpl.
    destruct (BackgroundLoop.differsFromLast _ _); [|auto].
    destruct (500 <? _); simpl; [|auto].
    split; [apply background_pushSequence_length, Hs | exact Hd].
Qed.

(** X15. The buffers of the background service stay bounded: over any
    run of [detectOnce] the window never holds more than five entries and
    no gesture name has more than five recorded scores, provided this is
    so at the start. *)
Theorem X15_background_buffers_bounded frames : forall s,
  (length (BackgroundLoop.gestureSequence s) <= 5)%nat ->
  historiesWithin 5
    (BackgroundGestureService.gestureConfidenceHistory
       (BackgroundLoop.detector s)) ->
  (length (BackgroundLoop.gestureSequence
             (fst (BackgroundLoop.runLoop s frames))) <= 5)%nat /\
  historiesWithin 5
    (BackgroundGestureService.gestureConfidenceHistory
       (BackgroundLoop.detector (fst (BackgroundLoop.runLoop s frames)))).
Proof.
  induction frames as [|frame frames IH]; intros s Hs Hh; simpl; [auto|].
  destruct (detectOnce_bounded s frame Hs Hh) as [Hs1 Hh1].
  destruct (BackgroundLoop.detectOnce s frame) as [s1 out].
  specialize (IH s1 Hs1 Hh1).
  destruct (BackgroundLoop.runLoop s1 frames) as [s2 outs]. exact IH.
Qed.

Lemma X15_background_buffers_witness :
  (length
     (BackgroundLoop.gestureSequence
        (fst (BackgroundLoop.runLoop BackgroundLoop.started
                [ backgroundFrame (sessionStart + 1000) "palm" 9.5;
                  backgroundFrame (sessionStart + 1600) "fist" 9.5;
                  backgroundFrame (sessionStart + 2200) "palm" 9.5;
                  backgroundFrame (sessionStart + 2800) "fist" 9.5;
                  backgroundFrame (sessionStart + 3400) "palm" 9.5;
                  backgroundFrame (sessionStart + 4000) "fist" 9.5 ])))
   <= 5)%nat.
Proof.
  refine (proj1 (X15_background_buffers_bounded _ BackgroundLoop.started
                   _ _)).
  - simpl. lia.
  - intros gestureName scores. simpl. rewrite lookup_empty. discriminate.
Defined.

(** ** The threshold of the background service *)

(** X16. The threshold the background service hands to the scorer takes
    one of three values: 10.0 when the movement magnitude exceeds 20, 8.5
    when it is below 5, and 9.0 otherwise; the clamp to [7.5, 10.0] never
    changes it. *)
Theorem X16_background_threshold_values magnitude :
  ((magnitude > 20)%R /\
   BackgroundGestureService.workingThreshold magnitude = 10.0%R) \/
  ((magnitude < 5)%R /\
   BackgroundGestureService.workingThreshold magnitude = 8.5%R) \/
  ((5 <= magnitude <= 20)%R /\
   BackgroundGestureService.workingThreshold magnitude = 9.0%R).
Proof.
  unfold BackgroundGestureService.workingThreshold, Rgtb, Rltb.
  destruct (Rgt_dec magnitude 20) as [Hfast | Hnot].
  - left. split; [exact Hfast|]. unfold Rmax, Rmin.
    destruct (Rle_dec (9.0 + 1.0) 10.0); [|lra].
    destruct (Rle_dec 7.5 (9.0 + 1.0)); lra.
  - destruct (Rlt_dec magnitude 5) as [Hstill | Hmid].
    + right. left. split; [exact Hstill|]. unfold Rmax, Rmin.
      destruct (Rle_dec (9.0 - 0.5) 10.0); [|lra].
      destruct (Rle_dec 7.5 (9.0 - 0.5)); lra.
    + right. right. split; [lra|]. unfold Rmax, Rmin.
      destruct (Rle_dec 9.0 10.0); [|lra].
      destruct (Rle_dec 7.5 9.0); lra.
Qed.

(** * Properties of the usage statistics *)

Lemma pushTimestamp_length entry entries :
  (length entries <= 100)%nat ->
  (length (GestureStatistics.pushTimestamp entry entries) <= 100)%nat.
Proof.
  intros H. unfold GestureStatistics.pushTimestamp.
  destruct (100 <? length (entries ++ [entry]))%nat eqn:E.
  - destruct (entries ++ [entry]) as [|x xs] eqn:Es; simpl; [lia|].
    assert (Hl : length (x :: xs) = (length entries + 1)%nat)
      by (rewrite <- Es, length_app; reflexivity).
    simpl in Hl. lia.
  - apply Nat.ltb_ge in E. exact E.
Qed.

Lemma pushTimestamp_last entry entries :
  last (GestureStatistics.pushTimestamp entry entries) = Some entry.
Proof.
  unfold GestureStatistics.pushTimestamp.
  destruct (100 <? length (entries ++ [entry]))%nat eqn:E.
  - destruct entries as [|x xs].
    + simpl in E. discriminate.
    + simpl. apply last_snoc.
  - apply last_snoc.
Qed.

(** X17. A successful [saveGestureStatistics] adds one to the frequency
    of the saved gesture and leaves every other frequency alone, appends
    the saved gesture as the newest log entry, and keeps the log within
    100 entries if it was; when the storage fails, the stored statistics
    are left as they were. *)
Theorem X17_statistics_frequency_and_log stored t gestureName allGestures
    confidence :
  let old := default GestureStatistics.freshStats stored in
  (exists new,
     GestureStatistics.saveGestureStatistics true stored t gestureName
       allGestures confidence = Some new /\
     GestureStatistics.gestureFrequency new !! gestureName
       = Some (default 0%nat
                 (GestureStatistics.gestureFrequency old !! gestureName)
               + 1)%nat /\
     (forall other, other <> gestureName ->
        GestureStatistics.gestureFrequency new !! other
        = GestureStatistics.gestureFrequency old !! other) /\
     last (GestureStatistics.timestamps new)
       = Some {| GestureStatistics.te_gesture := gestureName;
                 GestureStatistics.te_time := t;
                 GestureStatistics.te_confidence := confidence |} /\
     ((length (GestureStatistics.timestamps old) <= 100)%nat ->
      (length (GestureStatistics.timestamps new) <= 100)%nat)) /\
  GestureStatistics.saveGestureStatistics false stored t gestureName
    allGestures confidence = stored.
Proof.
  intros old. split; [|reflexivity].
  eexists. split; [reflexivity|]. simpl. fold old.
  split; [apply lookup_insert_eq|].
  split; [intros other Hne; apply lookup_insert_ne; congruence|].
  split; [apply pushTimestamp_last | apply pushTimestamp_length].
Qed.

Ltac settle_membership :=
  exfalso;
  repeat match goal with
         | H : _ /\ _ |- _ => destruct H
         end;
  repeat match goal with
         | H : _ ∈ _ :: _ |- _ => apply elem_of_cons in H as [-> | H]
         end;
  try congruence; try contradiction;
  match goal with
  | H : ~ (_ /\ _) |- _ =>
      apply H; split; [|assumption];
      first [ assumption | apply elem_of_cons; auto ]
  end.

Lemma countConfusions_fold gestureName (entries : list (string * R)) :
  NoDup (entries.*1) ->
  forall (row : gmap string nat) other,
    fold_left
      (fun (row : gmap string nat) entry =>
         if String.eqb (fst entry) gestureName then row
         else <[ fst entry := S (default 0%nat (row !! fst entry)) ]> row)
      entries row !! other =
    if decide (other ∈ entries.*1 /\ other <> gestureName)
    then Some (S (default 0%nat (row !! other)))
    else row !! other.
Proof.
  induction entries as [|[k v] entries IH]; intros Hnd row other.
  - cbn [fold_left]. case_decide as H; [|reflexivity].
    destruct H as [Hin _]. apply elem_of_nil in Hin. destruct Hin.
  - simpl in Hnd. apply NoDup_cons in Hnd as [Hfresh Hnd].
    simpl fold_left. rewrite IH by exact Hnd. simpl fmap.
    destruct (String.eqb k gestureName) eqn:Ek.
    + apply String.eqb_eq in Ek. subst k.
      repeat case_decide; try reflexivity; settle_membership.
    + apply String.eqb_neq in Ek.
      destruct (decide (other = k)) as [-> | Hok].
      * rewrite lookup_insert_eq.
        repeat case_decide; try reflexivity; settle_membership.
      * rewrite lookup_insert_ne by congruence.
        repeat case_decide; try reflexivity; settle_membership.
Qed.

Lemma countConfusions_lookup gestureName allGestures row other :
  GestureStatistics.countConfusions gestureName allGestures row !! other =
    if decide (is_Some (allGestures !! other) /\ other <> gestureName)
    then Some (S (default 0%nat (row !! other)))
    else row !! other.
Proof.
  unfold GestureStatistics.countConfusions.
  rewrite countConfusions_fold by apply NoDup_fst_map_to_list.
  assert (Hdom : other ∈ (map_to_list allGestures).*1
                 <-> is_Some (allGestures !! other)).
  { rewrite list_elem_of_fmap. split.
    - intros ([k v] & -> & Hin). apply elem_of_map_to_list in Hin.
      simpl. eauto.
    - intros [v Hv]. exists (other, v). split; [reflexivity|].
      apply elem_of_map_to_list. exact Hv. }
  destruct (decide (other ∈ (map_to_list allGestures).*1
                    /\ other <> gestureName)) as [[Hin Hne] | Hno];
    destruct (decide (is_Some (allGestures !! other)
                      /\ other <> gestureName)) as [[Hin' Hne'] | Hno'];
    try reflexivity.
  - exfalso. apply Hno'. split; [apply Hdom; exact Hin | exact Hne].
  - exfalso. apply Hno. split; [apply Hdom; exact Hin' | exact Hne'].
Qed.

(** X18. In the confusion matrix a successful save touches only the row
    of the saved gesture: it adds one to the entry of every other gesture
    detected in the same frame, and never counts the gesture against
    itself nor a gesture that was not detected. *)
Theorem X18_confusion_row_counts_other_gestures stored t gestureName
    allGestures confidence :
  let old := default GestureStatistics.freshStats stored in
  let new :=
    GestureStatistics.updateStats t gestureName allGestures confidence old in
  let oldRow :=
    default ∅ (GestureStatistics.confusionMatrix old !! gestureName) in
  let newRow :=
    default ∅ (GestureStatistics.confusionMatrix new !! gestureName) in
  GestureStatistics.saveGestureStatistics true stored t gestureName
    allGestures confidence = Some new /\
  newRow !! gestureName = oldRow !! gestureName /\
  (forall other score, other <> gestureName ->
     allGestures !! other = Some score ->
     newRow !! other = Some (S (default 0%nat (oldRow !! other)))) /\
  (forall other, allGestures !! other = None ->
     newRow !! other = oldRow !! other) /\
  (forall row, row <> gestureName ->
     GestureStatistics.confusionMatrix new !! row
     = GestureStatistics.confusionMatrix old !! row).
Proof.
  intros old new oldRow newRow.
  assert (Hrow : newRow
                 = GestureStatistics.countConfusions gestureName allGestures
                     oldRow).
  { unfold newRow, new. simpl. rewrite lookup_insert_eq. reflexivity. }
  split; [reflexivity|]. rewrite Hrow. split; [|split; [|split]].
  - rewrite countConfusions_lookup.
    destruct (decide _) as [[_ Hne] | _]; [congruence | reflexivity].
  - intros other sc Hne Hdet. rewrite countConfusions_lookup.
    destruct (decide _) as [_ | Hno]; [reflexivity|].
    exfalso. apply Hno. split; [eauto | exact Hne].
  - intros other Hnone. rewrite countConfusions_lookup.
    destruct (decide _) as [[[v Hv] _] | _]; [congruence | reflexivity].
  - intros row Hne. unfold new. simpl.
    apply lookup_insert_ne. congruence.
Qed.

Lemma X17_statistics_witness :
  exists new,
    GestureStatistics.saveGestureStatistics true None (sessionStart + 1000)
      "palm" (<[ "fist"%string := 7.9%R ]> {[ "palm"%string := 8.5%R ]}) 8.5
      = Some new /\
    GestureStatistics.gestureFrequency new !! "palm" = Some 1%nat /\
    (length (GestureStatistics.timestamps new) <= 100)%nat.
Proof.
  destruct (X17_statistics_frequency_and_log None (sessionStart + 1000)
              "palm" (<[ "fist"%string := 7.9%R ]> {[ "palm"%string := 8.5%R ]})
              8.5%R) as [(new & Hsave & Hfreq & _ & _ & Hlen) _].
  exists new. split; [exact Hsave|]. split; [exact Hfreq|].
  apply Hlen. simpl. lia.
Defined.

Lemma X18_confusion_witness :
  default ∅
    (GestureStatistics.confusionMatrix
       (GestureStatistics.updateStats (sessionStart + 1000) "palm"
          (<[ "fist"%string := 7.9%R ]> {[ "palm"%string := 8.5%R ]}) 8.5
          GestureStatistics.freshStats) !! "palm") !! "fist"
  = Some 1%nat.
Proof.
  destruct (X18_confusion_row_counts_other_gestures None (sessionStart + 1000)
              "palm" (<[ "fist"%string := 7.9%R ]> {[ "palm"%string := 8.5%R ]})
              8.5%R) as (_ & _ & Hother & _).
  apply (Hother "fist"%string 7.9%R); [discriminate | reflexivity].
Defined.

(** * Properties of the correction examples *)

Lemma sliceLast_length {A} n (l : list A) :
  (length (sliceLast n l) <= n)%nat.
Proof. unfold sliceLast. rewrite length_drop. lia. Qed.

Lemma sliceLast_snoc {A} n (l : list A) x :
  (0 < n)%nat ->
  sliceLast n (l ++ [x]) = sliceLast (n - 1) l ++ [x].
Proof.
  intros Hn. unfold sliceLast. rewrite length_app. simpl length.
  replace (length l + 1 - n)%nat with (length l - (n - 1))%nat by lia.
  rewrite drop_app_le by lia. reflexivity.
Qed.

(** X19. [addContextExample] reports failure exactly when the stored text
    parses to a value that is not an array, and then leaves the storage
    as it was. Otherwise it reports success, even when the write fails
    and the storage is unchanged; when the write succeeds, the stored
    context is what was loaded, cut to its last nine examples, followed
    by the new example: at most ten examples, the newest last. A failing
    read and a text that does not parse both count as an empty context,
    so the stored context is then the new example alone. *)
Theorem X19_context_keeps_last_ten st t original corrected :
  let example :=
    {| AiContext.original := original; AiContext.corrected := corrected;
       AiContext.timestamp := t |} in
  let r := AiContext.addContextExample st t original corrected in
  (snd r = false <-> AiContext.loadContext st = AiContext.notAnArray) /\
  (snd r = false -> fst r = st) /\
  (AiContext.writeFails st = true -> fst r = st) /\
  (forall loaded,
     AiContext.loadContext st = AiContext.anArray loaded ->
     AiContext.writeFails st = false ->
     exists stored,
       AiContext.content (fst r)
         = Some (AiContext.json (AiContext.anArray stored)) /\
       stored = sliceLast 9 loaded ++ [example] /\
       (length stored <= 10)%nat /\
       last stored = Some example) /\
  (AiContext.readFails st = true \/
   AiContext.content st = Some AiContext.malformed ->
   AiContext.loadContext st = AiContext.anArray []).
Proof.
  intros example r. subst r. unfold AiContext.addContextExample.
  split; [|split; [|split; [|split]]].
  - destruct (AiContext.loadContext st); simpl; split;
      first [discriminate | reflexivity].
  - destruct (AiContext.loadContext st); simpl;
      [discriminate | reflexivity].
  - intros Hw. destruct (AiContext.loadContext st); simpl; [|reflexivity].
    unfold AiContext.saveContext. rewrite Hw. reflexivity.
  - intros loaded -> Hw. unfold AiContext.saveContext. rewrite Hw. simpl.
    eexists. split; [reflexivity|].
    fold example. unfold AiContext.MAX_CONTEXT_EXAMPLES.
    rewrite sliceLast_snoc by lia. simpl Nat.sub.
    split; [reflexivity|]. split.
    + rewrite length_app. simpl.
      pose proof (sliceLast_length 9 loaded). lia.
    + apply last_snoc.
  - unfold AiContext.loadContext. intros [-> | ->]; [reflexivity|].
    destruct (AiContext.readFails st); reflexivity.
Qed.

Lemma X19_context_witness :
  let full := replicate 10
                {| AiContext.original := "helo";
                   AiContext.corrected := "hello";
                   AiContext.timestamp := sessionStart |} in
  let st := {| AiContext.content :=
                 Some (AiContext.json (AiContext.anArray full));
               AiContext.readFails := false;
               AiContext.writeFails := false |} in
  let broken := {| AiContext.content :=
                     Some (AiContext.json AiContext.notAnArray);
                   AiContext.readFails := false;
                   AiContext.writeFails := false |} in
  (exists stored,
     AiContext.content
       (fst (AiContext.addContextExample st (sessionStart + 1000)
               "opn camera" "open camera"))
       = Some (AiContext.json (AiContext.anArray stored)) /\
     (length stored <= 10)%nat) /\
  AiContext.addContextExample broken (sessionStart + 1000)
    "opn camera" "open camera" = (broken, false).
Proof.
  intros full st broken. split.
  - destruct (X19_context_keeps_last_ten st (sessionStart + 1000)
                "opn camera" "open camera") as (_ & _ & _ & Hok & _).
    destruct (Hok full eq_refl eq_refl) as (stored & Hc & _ & Hlen & _).
    exists stored. split; [exact Hc | exact Hlen].
  - destruct (X19_context_keeps_last_ten broken (sessionStart + 1000)
                "opn camera" "open camera") as (Hfail & Hsame & _).
    apply injective_projections; simpl.
    + apply Hsame, Hfail. reflexivity.
    + apply Hfail. reflexivity.
Defined.

(** * Properties of the phone actions *)

(** X20. [executeAction] succeeds exactly on the identifiers listed by
    [getAvailableActions], and every action that [gestureToAction] assigns
    to a gesture is one of them. *)
Theorem X20_listed_actions_execute :
  (forall action,
     Actions.success (Actions.executeAction action) = true <->
     In action (map Actions.id Actions.getAvailableActions)) /\
  (forall gestureName action,
     In (gestureName, action) Actions.gestureToAction ->
     Actions.success (Actions.executeAction action) = true).
Proof.
  assert (Hiff : forall action,
            Actions.success (Actions.executeAction action) = true <->
            In action (map Actions.id Actions.getAvailableActions)).
  { intros action. unfold Actions.executeAction. simpl. split.
    - repeat match goal with
        | |- context [String.eqb action ?k] =>
            let E := fresh "E" in
            destruct (String.eqb action k) eqn:E;
            [apply String.eqb_eq in E; subst; simpl; tauto|]
        end.
      simpl. discriminate.
    - intros H.
      repeat (destruct H as [<- | H]; [reflexivity|]). destruct H. }
  split; [exact Hiff|].
  intros gestureName action Hin. apply Hiff.
  unfold Actions.gestureToAction in Hin. simpl in *.
  repeat (destruct Hin as [[= _ <-] | Hin]; [tauto|]). destruct Hin.
Qed.

Lemma X20_listed_actions_witness :
  Actions.success (Actions.executeAction "TAKE_PHOTO") = true.
Proof.
  destruct X20_listed_actions_execute as [_ Hgesture].
  apply (Hgesture "thumbs_up"%string). simpl. tauto.
Defined.

(** * Properties of the voice authentication *)

(** ** The similarity measure *)

Lemma fold_sum_shift {A} (g : A -> R) (l : list A) : forall a,
  fold_left (fun acc x => (acc + g x)%R) l a
  = (a + fold_left (fun acc x => (acc + g x)%R) l 0)%R.
Proof.
  induction l as [|x l IH]; intros a; simpl.
  - lra.
  - rewrite IH. rewrite (IH (0 + g x)%R). lra.
Qed.

Lemma sumSquares_cons x l :
  VoiceAuth.sumSquares (x :: l) = (x * x + VoiceAuth.sumSquares l)%R.
Proof.
  unfold VoiceAuth.sumSquares. simpl.
  rewrite (fold_sum_shift (fun x => x * x)%R). lra.
Qed.

Lemma sumSquaresRight_cons xy l :
  VoiceAuth.sumSquaresRight (xy :: l)
  = (snd xy * snd xy + VoiceAuth.sumSquaresRight l)%R.
Proof.
  unfold VoiceAuth.sumSquaresRight. simpl.
  rewrite (fold_sum_shift (fun xy => snd xy * snd xy)%R). lra.
Qed.

Lemma sumSquares_zero l :
  Forall (fun x => x = 0%R) l -> VoiceAuth.sumSquares l = 0%R.
Proof.
  induction 1 as [|x l Hx _ IH]; [reflexivity|].
  rewrite sumSquares_cons, IH, Hx. lra.
Qed.

Lemma sumSquaresRight_zero (features1 features2 : list R) :
  Forall (fun x => x = 0%R) features2 ->
  VoiceAuth.sumSquaresRight (zip features1 features2) = 0%R.
Proof.
  intros Hz. revert features1.
  induction Hz as [|y features2 Hy _ IH]; intros [|x features1];
    try reflexivity.
  change (zip (x :: features1) (y :: features2))
    with ((x, y) :: zip features1 features2).
  rewrite sumSquaresRight_cons, IH. simpl. rewrite Hy. lra.
Qed.

Lemma similarity_zero_sample features1 features2 :
  Forall (fun x => x = 0%R) features1 ->
  VoiceAuth.calculateVoiceSimilarity features1 features2 = Some 0%R.
Proof.
  intros Hz. unfold VoiceAuth.calculateVoiceSimilarity.
  rewrite (sumSquares_zero _ Hz), sqrt_0.
  unfold Reqb. destruct (Req_dec_T 0 0) as [_|N]; [|lra].
  destruct (length features2 <? length features1)%nat; reflexivity.
Qed.

Lemma similarity_zero_profile features1 features2 :
  Forall (fun x => x = 0%R) features2 ->
  (length features1 <= length features2)%nat ->
  VoiceAuth.calculateVoiceSimilarity features1 features2 = Some 0%R.
Proof.
  intros Hz Hlen. unfold VoiceAuth.calculateVoiceSimilarity.
  replace (length features2 <? length features1)%nat with false
    by (symmetry; apply Nat.ltb_ge; exact Hlen).
  rewrite (sumSquaresRight_zero _ _ Hz), sqrt_0.
  unfold Reqb. destruct (Req_dec_T 0 0) as [_|N]; [|lra].
  rewrite orb_true_r. reflexivity.
Qed.

Lemma similarity_short_profile features1 features2 :
  (length features2 < length features1)%nat ->
  VoiceAuth.calculateVoiceSimilarity features1 features2 = None \/
  VoiceAuth.calculateVoiceSimilarity features1 features2 = Some 0%R.
Proof.
  intros Hlen. unfold VoiceAuth.calculateVoiceSimilarity.
  replace (length features2 <? length features1)%nat with true
    by (symmetry; apply Nat.ltb_lt; exact Hlen).
  destruct (Reqb _ 0); auto.
Qed.

(** The sample enrolment compared with itself: 25 / (5 x 5), mapped to 1. *)
Lemma similarity_of_aliceProfile :
  VoiceAuth.calculateVoiceSimilarity [3%R; 4%R] [3%R; 4%R] = Some 1%R.
Proof.
  unfold VoiceAuth.calculateVoiceSimilarity, VoiceAuth.sumSquares,
    VoiceAuth.sumSquaresRight, VoiceAuth.dotProduct.
  simpl.
  assert (Hn : sqrt (0 + 3 * 3 + 4 * 4) = 5%R).
  { replace (0 + 3 * 3 + 4 * 4)%R with (5 * 5)%R by lra.
    apply sqrt_square. lra. }
  rewrite Hn. unfold Reqb.
  destruct (Req_dec_T 5 0) as [E|_]; [lra|].
  simpl. f_equal. lra.
Qed.

(** ** The authentication call *)

Lemma threshold_values level :
  let t := VoiceAuth.getConfidenceThresholdForSecurityLevel level in
  (t = 0.65 \/ t = 0.75 \/ t = 0.85)%R.
Proof.
  unfold VoiceAuth.getConfidenceThresholdForSecurityLevel,
    VoiceAuth.VERIFICATION_CONFIDENCE_THRESHOLD.
  destruct (String.eqb level "low"); [auto|].
  destruct (String.eqb level "high"); auto.
Qed.

Lemma reaches_true confidence required :
  VoiceAuth.reaches confidence required = true ->
  exists value, confidence = Some value /\ (required <= value)%R.
Proof.
  unfold VoiceAuth.reaches. destruct confidence as [c|]; [|discriminate].
  destruct (Rge_dec c required); [|discriminate].
  intros _. exists c. split; [reflexivity | lra].
Qed.

(** Neither [NaN] nor 0 reaches the threshold of any security setting. *)
Lemma reaches_nothing confidence level :
  confidence = None \/ confidence = Some 0%R ->
  VoiceAuth.reaches confidence
    (VoiceAuth.getConfidenceThresholdForSecurityLevel level) = false.
Proof.
  pose proof (threshold_values level) as Ht. cbv zeta in Ht.
  intros [-> | ->]; [reflexivity|].
  unfold VoiceAuth.reaches.
  destruct (Rge_dec 0 _); [lra | reflexivity].
Qed.

Lemma authenticateVoice_rejects s sample :
  (forall profile,
     profileOfCurrentUser s = Some profile ->
     VoiceAuth.calculateVoiceSimilarity sample (VoiceAuth.features profile)
       = None \/
     VoiceAuth.calculateVoiceSimilarity sample (VoiceAuth.features profile)
       = Some 0%R) ->
  forall confidence threshold user,
    snd (VoiceAuth.authenticateVoice s (Some sample))
    <> VoiceAuth.Decided true confidence threshold user.
Proof.
  intros Hlow confidence threshold user.
  unfold VoiceAuth.authenticateVoice, profileOfCurrentUser in *.
  destruct (VoiceAuth.isAuthenticating s); [discriminate|].
  destruct (find _ (VoiceAuth.voiceProfiles s)) as [profile|];
    [|discriminate].
  destruct (negb (VoiceAuth.completed profile)); [discriminate|].
  simpl. rewrite (reaches_nothing _ _ (Hlow profile eq_refl)).
  discriminate.
Qed.

(** X21. A profile with fewer features than the sample never
    authenticates it: the similarity is then [NaN], or 0 when the first
    norm is 0, and neither reaches the threshold of any security
    setting. *)
Theorem X21_short_profile_never_authenticates s sample profile :
  profileOfCurrentUser s = Some profile ->
  (length (VoiceAuth.features profile) < length sample)%nat ->
  let similarity :=
    VoiceAuth.calculateVoiceSimilarity sample (VoiceAuth.features profile) in
  (similarity = None \/ similarity = Some 0%R) /\
  forall confidence threshold user,
    snd (VoiceAuth.authenticateVoice s (Some sample))
    <> VoiceAuth.Decided true confidence threshold user.
Proof.
  intros Hprofile Hshort similarity.
  split; [apply similarity_short_profile, Hshort|].
  apply authenticateVoice_rejects.
  intros profile' Hprofile'.
  assert (profile' = profile) as -> by congruence.
  apply similarity_short_profile, Hshort.
Qed.

Lemma X21_short_profile_witness :
  (VoiceAuth.calculateVoiceSimilarity [3%R; 4%R; 5%R]
     (VoiceAuth.features aliceProfile) = None \/
   VoiceAuth.calculateVoiceSimilarity [3%R; 4%R; 5%R]
     (VoiceAuth.features aliceProfile) = Some 0%R) /\
  forall confidence threshold user,
    snd (VoiceAuth.authenticateVoice (aliceSession "low" false)
           (Some [3%R; 4%R; 5%R]))
    <> VoiceAuth.Decided true confidence threshold user.
Proof.
  refine (X21_short_profile_never_authenticates
            (aliceSession "low" false) [3%R; 4%R; 5%R] aliceProfile _ _).
  - reflexivity.
  - simpl. lia.
Defined.

(** X22. A vector of zeros has similarity 0: an all-zero sample with
    every profile, and an all-zero profile with every sample that is not
    longer than it. Such a comparison never authenticates, whatever the
    security setting. *)
Theorem X22_zero_vector_never_authenticates s sample profile :
  profileOfCurrentUser s = Some profile ->
  Forall (fun x => x = 0%R) sample \/
  (Forall (fun x => x = 0%R) (VoiceAuth.features profile) /\
   (length sample <= length (VoiceAuth.features profile))%nat) ->
  VoiceAuth.calculateVoiceSimilarity sample (VoiceAuth.features profile)
    = Some 0%R /\
  forall confidence threshold user,
    snd (VoiceAuth.authenticateVoice s (Some sample))
    <> VoiceAuth.Decided true confidence threshold user.
Proof.
  intros Hprofile Hzero.
  assert (Hsim : VoiceAuth.calculateVoiceSimilarity sample
                   (VoiceAuth.features profile) = Some 0%R).
  { destruct Hzero as [Hz | [Hz Hlen]].
    - apply similarity_zero_sample, Hz.
    - apply similarity_zero_profile; assumption. }
  split; [exact Hsim|].
  apply authenticateVoice_rejects.
  intros profile' Hprofile'.
  assert (profile' = profile) as -> by congruence.
  right. exact Hsim.
Qed.

Lemma X22_zero_vector_witness :
  VoiceAuth.calculateVoiceSimilarity [0%R; 0%R]
    (VoiceAuth.features aliceProfile) = Some 0%R /\
  forall confidence threshold user,
    snd (VoiceAuth.authenticateVoice (aliceSession "low" false)
           (Some [0%R; 0%R]))
    <> VoiceAuth.Decided true confidence threshold user.
Proof.
  refine (X22_zero_vector_never_authenticates
            (aliceSession "low" false) [0%R; 0%R] aliceProfile _ _).
  - reflexivity.
  - left. repeat constructor.
Defined.

(** X23. Success is reported only for a completed profile of the current
    user, with a numeric confidence that reaches the threshold of the
    security setting, which is never below 0.65; and the confidence is
    the similarity of the sample with that profile. *)
Theorem X23_success_needs_profile_and_confidence s extracted
    confidence threshold user :
  snd (VoiceAuth.authenticateVoice s extracted)
    = VoiceAuth.Decided true confidence threshold user ->
  exists profile sample value,
    profileOfCurrentUser s = Some profile /\
    VoiceAuth.completed profile = true /\
    extracted = Some sample /\
    VoiceAuth.calculateVoiceSimilarity sample (VoiceAuth.features profile)
      = Some value /\
    confidence = Some value /\
    (0.65 <= threshold <= value)%R /\
    user = VoiceAuth.currentUser s.
Proof.
  unfold VoiceAuth.authenticateVoice, profileOfCurrentUser.
  destruct (VoiceAuth.isAuthenticating s); [discriminate|].
  destruct (find _ (VoiceAuth.voiceProfiles s)) as [profile|];
    [|discriminate].
  destruct (VoiceAuth.completed profile) eqn:Hc; [|discriminate].
  destruct extracted as [sample|]; [|discriminate].
  simpl. intros H. injection H as Hr Hconf Hthr Huser.
  destruct (reaches_true _ _ Hr) as (value & Hv & Hle).
  exists profile, sample, value.
  pose proof (threshold_values (VoiceAuth.securityLevel s)) as Ht.
  cbv zeta in Ht. rewrite Hthr in Ht, Hle.
  repeat (split; [first [reflexivity | congruence | lra]|]).
  congruence.
Qed.

Lemma X23_success_witness :
  exists profile sample value,
    profileOfCurrentUser (aliceSession "high" false) = Some profile /\
    VoiceAuth.completed profile = true /\
    Some [3%R; 4%R] = Some sample /\
    VoiceAuth.calculateVoiceSimilarity sample (VoiceAuth.features profile)
      = Some value /\
    Some 1%R = Some value /\
    (0.65 <= 0.85 <= value)%R /\
    Some "alice" = VoiceAuth.currentUser (aliceSession "high" false).
Proof.
  apply (X23_success_needs_profile_and_confidence
           (aliceSession "high" false) (Some [3%R; 4%R])).
  unfold VoiceAuth.authenticateVoice. simpl.
  rewrite similarity_of_aliceProfile.
  change (VoiceAuth.getConfidenceThresholdForSecurityLevel "high")
    with 0.85%R.
  unfold VoiceAuth.reaches.
  destruct (Rge_dec 1 0.85) as [_|N]; [reflexivity | lra].
Defined.

(** X24. A call made while another authentication is in progress is
    rejected whatever the audio; the rejection itself clears the
    in-progress flag, so the call that follows is served as if no
    authentication were running. *)
Theorem X24_rejected_call_releases_the_flag s extracted next :
  VoiceAuth.isAuthenticating s = true ->
  let after := fst (VoiceAuth.authenticateVoice s extracted) in
  snd (VoiceAuth.authenticateVoice s extracted) = VoiceAuth.Failed /\
  VoiceAuth.isAuthenticating after = false /\
  VoiceAuth.authenticateVoice after next
    = VoiceAuth.authenticateVoice (VoiceAuth.setFlag false s) next.
Proof.
  intros Hbusy. cbv zeta.
  assert (Hcall : VoiceAuth.authenticateVoice s extracted
                  = (VoiceAuth.setFlag false s, VoiceAuth.Failed))
    by (unfold VoiceAuth.authenticateVoice; rewrite Hbusy; reflexivity).
  rewrite Hcall. cbn [fst snd]. auto.
Qed.

Lemma X24_rejected_call_witness :
  let s := aliceSession "medium" true in
  let after := fst (VoiceAuth.authenticateVoice s None) in
  snd (VoiceAuth.authenticateVoice s None) = VoiceAuth.Failed /\
  VoiceAuth.isAuthenticating after = false /\
  VoiceAuth.authenticateVoice after (Some [3%R; 4%R])
    = VoiceAuth.authenticateVoice (VoiceAuth.setFlag false s)
        (Some [3%R; 4%R]).
Proof.
  apply (X24_rejected_call_releases_the_flag (aliceSession "medium" true)).
  reflexivity.
Defined.

(** X25. A sample accepted under the high security setting is accepted,
    with the same confidence, under every other setting of the same
    session; and no setting accepts a sample that the low setting
    rejects. *)
Theorem X25_high_setting_is_the_strictest s extracted level :
  (forall confidence threshold user,
     snd (VoiceAuth.authenticateVoice (atLevel "high" s) extracted)
       = VoiceAuth.Decided true confidence threshold user ->
     snd (VoiceAuth.authenticateVoice (atLevel level s) extracted)
       = VoiceAuth.Decided true confidence
           (VoiceAuth.getConfidenceThresholdForSecurityLevel level) user) /\
  (forall confidence threshold user,
     snd (VoiceAuth.authenticateVoice (atLevel "low" s) extracted)
       = VoiceAuth.Decided false confidence threshold user ->
     snd (VoiceAuth.authenticateVoice (atLevel level s) extracted)
       = VoiceAuth.Decided false confidence
           (VoiceAuth.getConfidenceThresholdForSecurityLevel level) user).
Proof.
  pose proof (threshold_values level) as Hlevel. cbv zeta in Hlevel.
  unfold VoiceAuth.authenticateVoice, atLevel. simpl.
  destruct (VoiceAuth.isAuthenticating s);
    [split; intros; discriminate|].
  destruct (find _ (VoiceAuth.voiceProfiles s)) as [profile|];
    [|split; intros; discriminate].
  destruct (negb (VoiceAuth.completed profile));
    [split; intros; discriminate|].
  destruct extracted as [sample|]; [|split; intros; discriminate].
  change (VoiceAuth.getConfidenceThresholdForSecurityLevel "high")
    with 0.85%R.
  change (VoiceAuth.getConfidenceThresholdForSecurityLevel "low")
    with 0.65%R.
  split; intros confidence threshold user H;
    injection H as Hr Hc Ht Hu; subst confidence user;
    f_equal; revert Hr; unfold VoiceAuth.reaches;
    destruct (VoiceAuth.calculateVoiceSimilarity _ _) as [c|];
    try discriminate; try reflexivity;
    repeat match goal with
           | |- context [Rge_dec ?a ?b] => destruct (Rge_dec a b)
           end;
    intros; try discriminate; try reflexivity; exfalso; lra.
Qed.

Lemma X25_high_setting_witness :
  snd (VoiceAuth.authenticateVoice
         (atLevel "medium" (aliceSession "low" false)) (Some [3%R; 4%R]))
  = VoiceAuth.Decided true (Some 1%R)
      (VoiceAuth.getConfidenceThresholdForSecurityLevel "medium")
      (Some "alice").
Proof.
  apply (proj1 (X25_high_setting_is_the_strictest
                  (aliceSession "low" false) (Some [3%R; 4%R]) "medium")
           (Some 1%R) 0.85%R (Some "alice")).
  unfold VoiceAuth.authenticateVoice. simpl.
  rewrite similarity_of_aliceProfile.
  change (VoiceAuth.getConfidenceThresholdForSecurityLevel "high")
    with 0.85%R.
  unfold VoiceAuth.reaches.
  destruct (Rge_dec 1 0.85) as [_|N]; [reflexivity | lra].
Defined.

(** * Properties of the voice activity detector *)

Lemma energyScore_range threshold frameEnergy :
  (0 < threshold)%R ->
  (0 <= VoiceActivityDetector.energyScore threshold frameEnergy <= 1)%R.
Proof.
  intros Hthr. unfold VoiceActivityDetector.energyScore, Rgtb, Rmin.
  destruct (Rgt_dec frameEnergy threshold) as [Hgt|]; [|lra].
  assert (0 < frameEnergy / (threshold * 4))%R
    by (apply Rdiv_lt_0_compat; lra).
  destruct (Rle_dec 1.0 (frameEnergy / (threshold * 4))); lra.
Qed.

Lemma snrScore_range level :
  (0 <= VoiceActivityDetector.snrScore level <= 1)%R.
Proof.
  destruct level as [|value]; simpl; [lra|].
  unfold Rgtb, Rmin. destruct (Rgt_dec value 5); [|lra].
  destruct (Rle_dec 1.0 ((value - 5) / 15)); lra.
Qed.

(** X26. With a positive energy threshold the speech likelihood is a
    number between 0 and 1. Energy alone never makes a frame speech-like:
    a likelihood above the speech threshold 0.6 needs a signal-to-noise
    ratio above 80/7 dB, and a ratio of 20 dB or more is always
    enough. *)
Theorem X26_speech_likelihood_needs_signal_to_noise
    threshold frameEnergy level :
  (0 < threshold)%R ->
  let likelihood :=
    VoiceActivityDetector.detectSpeech threshold frameEnergy level in
  (0 <= likelihood <= 1)%R /\
  ((likelihood > VoiceActivityDetector.speechThreshold)%R ->
   exists value,
     level = VoiceActivityDetector.decibels value /\ (value > 80 / 7)%R) /\
  (forall value,
     level = VoiceActivityDetector.decibels value -> (20 <= value)%R ->
     (likelihood > VoiceActivityDetector.speechThreshold)%R).
Proof.
  intros Hthr. cbv zeta.
  unfold VoiceActivityDetector.detectSpeech,
    VoiceActivityDetector.speechThreshold.
  pose proof (energyScore_range threshold frameEnergy Hthr) as He.
  pose proof (snrScore_range level) as Hs.
  split; [lra|]. split.
  - intros Hl. destruct level as [|value]; simpl in *; [lra|].
    exists value. split; [reflexivity|].
    unfold Rgtb, Rmin in *.
    destruct (Rgt_dec value 5); [|lra].
    destruct (Rle_dec 1.0 ((value - 5) / 15)); lra.
  - intros value -> Hv. simpl. unfold Rgtb, Rmin.
    destruct (Rgt_dec value 5); [|lra].
    destruct (Rle_dec 1.0 ((value - 5) / 15)); lra.
Qed.

Lemma X26_speech_likelihood_witness :
  let likelihood :=
    VoiceActivityDetector.detectSpeech 0.0005
      0.01 (VoiceActivityDetector.decibels 25) in
  (0 <= likelihood <= 1)%R /\
  ((likelihood > VoiceActivityDetector.speechThreshold)%R ->
   exists value,
     VoiceActivityDetector.decibels 25
       = VoiceActivityDetector.decibels value /\ (value > 80 / 7)%R) /\
  (forall value,
     VoiceActivityDetector.decibels 25
       = VoiceActivityDetector.decibels value -> (20 <= value)%R ->
     (likelihood > VoiceActivityDetector.speechThreshold)%R).
Proof.
  apply (X26_speech_likelihood_needs_signal_to_noise 0.0005 0.01
           (VoiceActivityDetector.decibels 25)).
  lra.
Defined.

(** ** The hang-over counters *)

Ltac walk_processFrame d m :=
  unfold VoiceActivityDetector.processFrame, speechLike;
  destruct (negb (VoiceActivityDetector.isSpeaking d)
            || negb (VoiceActivityDetector.noiseInitialized d));
  cbn [VoiceActivityDetector.updateNoiseEstimate
       VoiceActivityDetector.energyThreshold
       VoiceActivityDetector.isSpeaking
       VoiceActivityDetector.speechCount
       VoiceActivityDetector.silenceCount];
  destruct (Rgtb (VoiceActivityDetector.detectSpeech
                    (VoiceActivityDetector.energyThreshold d)
                    (VoiceActivityDetector.energy m)
                    (VoiceActivityDetector.snr m))
                 VoiceActivityDetector.speechThreshold);
  destruct (VoiceActivityDetector.isSpeaking d);
  try destruct (2 <? S (VoiceActivityDetector.speechCount d))%nat;
  try destruct (VoiceActivityDetector.silenceHangover
                <? S (VoiceActivityDetector.silenceCount d))%nat;
  try reflexivity.

Lemma processFrame_energyThreshold d m :
  VoiceActivityDetector.energyThreshold
    (fst (VoiceActivityDetector.processFrame d m))
  = VoiceActivityDetector.energyThreshold d.
Proof. walk_processFrame d m. Qed.

Lemma processFrame_speechCount d m :
  VoiceActivityDetector.speechCount
    (fst (VoiceActivityDetector.processFrame d m))
  = if speechLike (VoiceActivityDetector.energyThreshold d) m
    then S (VoiceActivityDetector.speechCount d) else 0%nat.
Proof. walk_processFrame d m. Qed.

Lemma processFrame_silenceCount d m :
  VoiceActivityDetector.silenceCount
    (fst (VoiceActivityDetector.processFrame d m))
  = if speechLike (VoiceActivityDetector.energyThreshold d) m
    then 0%nat else S (VoiceActivityDetector.silenceCount d).
Proof. walk_processFrame d m. Qed.

Lemma processFrame_isSpeaking d m :
  VoiceActivityDetector.isSpeaking
    (fst (VoiceActivityDetector.processFrame d m))
  = if speechLike (VoiceActivityDetector.energyThreshold d) m
    then VoiceActivityDetector.isSpeaking d
         || (2 <? S (VoiceActivityDetector.speechCount d))%nat
    else VoiceActivityDetector.isSpeaking d
         && negb (VoiceActivityDetector.silenceHangover
                  <? S (VoiceActivityDetector.silenceCount d))%nat.
Proof. walk_processFrame d m. Qed.

Lemma processFrame_posted d m :
  snd (VoiceActivityDetector.processFrame d m)
  = if speechLike (VoiceActivityDetector.energyThreshold d) m
    then
      if (2 <? S (VoiceActivityDetector.speechCount d))%nat
         && negb (VoiceActivityDetector.isSpeaking d)
      then Some (VoiceActivityDetector.speechStart
                   (VoiceActivityDetector.energy m)
                   (VoiceActivityDetector.snr m))
      else None
    else
      if (VoiceActivityDetector.silenceHangover
          <? S (VoiceActivityDetector.silenceCount d))%nat
         && VoiceActivityDetector.isSpeaking d
      then Some (VoiceActivityDetector.speechEnd
                   (INR (S (VoiceActivityDetector.silenceCount d))
                    * VoiceActivityDetector.frameDuration))
      else None.
Proof. walk_processFrame d m. Qed.

Lemma vad_runFrames_snoc d frames m :
  fst (VoiceActivityDetector.runFrames d (frames ++ [m]))
  = fst (VoiceActivityDetector.processFrame
           (fst (VoiceActivityDetector.runFrames d frames)) m).
Proof.
  revert d. induction frames as [|x frames IH]; intros d; simpl.
  - destruct (VoiceActivityDetector.processFrame d m). reflexivity.
  - destruct (VoiceActivityDetector.processFrame d x) as [d1 p].
    specialize (IH d1).
    destruct (VoiceActivityDetector.runFrames d1 (frames ++ [m])).
    destruct (VoiceActivityDetector.runFrames d1 frames).
    simpl in *. exact IH.
Qed.

(** The counters are the lengths of the current streaks, and the flag
    agrees with them. *)
Lemma hangover_invariant d frames :
  VoiceActivityDetector.speechCount d = 0%nat ->
  VoiceActivityDetector.silenceCount d = 0%nat ->
  let threshold := VoiceActivityDetector.energyThreshold d in
  let d' := fst (VoiceActivityDetector.runFrames d frames) in
  VoiceActivityDetector.energyThreshold d' = threshold /\
  VoiceActivityDetector.speechCount d'
    = streak (speechLike threshold) (rev frames) /\
  VoiceActivityDetector.silenceCount d'
    = streak (silentLike threshold) (rev frames) /\
  ((3 <= VoiceActivityDetector.speechCount d')%nat ->
   VoiceActivityDetector.isSpeaking d' = true) /\
  (VoiceActivityDetector.isSpeaking d' = true ->
   (VoiceActivityDetector.silenceCount d' <= 5)%nat).
Proof.
  intros Hsp Hsil. cbv zeta.
  induction frames as [|m frames IH] using rev_ind.
  - simpl. rewrite Hsp, Hsil. repeat split; intros; lia.
  - destruct IH as (Hthr & Hs & Hq & Hflag & Hcap).
    rewrite vad_runFrames_snoc, rev_unit.
    set (dn := fst (VoiceActivityDetector.runFrames d frames)) in *.
    rewrite processFrame_energyThreshold, processFrame_speechCount,
      processFrame_silenceCount, processFrame_isSpeaking.
    rewrite Hthr. simpl streak. unfold silentLike at 1.
    destruct (speechLike (VoiceActivityDetector.energyThreshold d) m);
      simpl negb; cbv iota.
    + rewrite <- Hs.
      split; [reflexivity|]. split; [reflexivity|]. split; [reflexivity|].
      split; [|intros; lia].
      intros H3.
      destruct (VoiceActivityDetector.isSpeaking dn); [reflexivity|].
      simpl. apply Nat.ltb_lt. lia.
    + rewrite <- Hq.
      split; [reflexivity|]. split; [reflexivity|]. split; [reflexivity|].
      split; [intros; lia|].
      unfold VoiceActivityDetector.silenceHangover.
      destruct (VoiceActivityDetector.isSpeaking dn); [|discriminate].
      simpl.
      destruct (5 <? S (VoiceActivityDetector.silenceCount dn))%nat eqn:E;
        [discriminate|].
      intros _. apply Nat.ltb_ge in E. exact E.
Qed.

Lemma vad_runFrames_cons d m frames :
  fst (VoiceActivityDetector.runFrames d (m :: frames))
  = fst (VoiceActivityDetector.runFrames
           (fst (VoiceActivityDetector.processFrame d m)) frames).
Proof.
  simpl. destruct (VoiceActivityDetector.processFrame d m) as [d1 p].
  cbn [fst].
  destruct (VoiceActivityDetector.runFrames d1 frames). reflexivity.
Qed.

Lemma loudFrame_speechLike : speechLike 0.0005 loudFrame = true.
Proof.
  unfold speechLike, loudFrame, VoiceActivityDetector.detectSpeech,
    VoiceActivityDetector.energyScore, VoiceActivityDetector.snrScore,
    VoiceActivityDetector.speechThreshold. simpl.
  settle_reals; reflexivity.
Qed.

Lemma quietFrame_speechLike : speechLike 0.0005 quietFrame = false.
Proof.
  unfold speechLike, quietFrame, VoiceActivityDetector.detectSpeech,
    VoiceActivityDetector.energyScore, VoiceActivityDetector.snrScore,
    VoiceActivityDetector.speechThreshold. simpl.
  settle_reals; reflexivity.
Qed.

Ltac replay_frames :=
  repeat rewrite vad_runFrames_cons;
  cbn [VoiceActivityDetector.runFrames fst];
  repeat (first [ rewrite processFrame_isSpeaking
                | rewrite processFrame_speechCount
                | rewrite processFrame_silenceCount ];
          repeat rewrite processFrame_energyThreshold;
          change (VoiceActivityDetector.energyThreshold
                    VoiceActivityDetector.constructed) with 0.0005%R;
          rewrite ?loudFrame_speechLike, ?quietFrame_speechLike;
          cbv iota).

(** X27. In a run of frames that starts with both counters at zero,
    [speechStart] is posted exactly by the third frame of a streak of
    speech-like frames, provided the detector is not yet speaking; the
    message carries the energy and the signal-to-noise ratio of that
    frame. *)
Theorem X27_speech_starts_at_third_frame d before m frameEnergy level :
  VoiceActivityDetector.speechCount d = 0%nat ->
  VoiceActivityDetector.silenceCount d = 0%nat ->
  let current := fst (VoiceActivityDetector.runFrames d before) in
  snd (VoiceActivityDetector.processFrame current m)
    = Some (VoiceActivityDetector.speechStart frameEnergy level)
  <->
  (streak (speechLike (VoiceActivityDetector.energyThreshold d))
          (m :: rev before) = 3%nat /\
   VoiceActivityDetector.isSpeaking current = false /\
   frameEnergy = VoiceActivityDetector.energy m /\
   level = VoiceActivityDetector.snr m).
Proof.
  intros Hsp Hsil. cbv zeta.
  destruct (hangover_invariant d before Hsp Hsil)
    as (Hthr & Hs & _ & Hflag & _).
  set (dn := fst (VoiceActivityDetector.runFrames d before)) in *.
  rewrite processFrame_posted, Hthr. simpl streak. rewrite <- Hs.
  destruct (speechLike (VoiceActivityDetector.energyThreshold d) m).
  - destruct (VoiceActivityDetector.isSpeaking dn) eqn:Hspk.
    + rewrite andb_false_r. split; [discriminate|].
      intros (_ & H & _). discriminate.
    + rewrite andb_true_r.
      destruct (2 <? S (VoiceActivityDetector.speechCount dn))%nat eqn:E.
      * apply Nat.ltb_lt in E.
        assert (VoiceActivityDetector.speechCount dn = 2%nat) as E2.
        { destruct (le_lt_dec 3 (VoiceActivityDetector.speechCount dn))
            as [H3|H3]; [|lia].
          specialize (Hflag H3). congruence. }
        split.
        -- intros H. injection H as <- <-. rewrite E2. auto.
        -- intros (_ & _ & -> & ->). reflexivity.
      * apply Nat.ltb_ge in E. split; [discriminate|].
        intros (H & _). lia.
  - split; [|intros (H & _); discriminate].
    destruct (_ && _); discriminate.
Qed.

Lemma X27_speech_start_witness :
  snd (VoiceActivityDetector.processFrame
         (fst (VoiceActivityDetector.runFrames
                 VoiceActivityDetector.constructed
                 [quietFrame; loudFrame; loudFrame]))
         loudFrame)
  = Some (VoiceActivityDetector.speechStart 0.01
            (VoiceActivityDetector.decibels 25)).
Proof.
  apply (X27_speech_starts_at_third_frame
           VoiceActivityDetector.constructed
           [quietFrame; loudFrame; loudFrame] loudFrame);
    [reflexivity | reflexivity |].
  split; [|split; [|split; reflexivity]].
  - change (VoiceActivityDetector.energyThreshold
              VoiceActivityDetector.constructed) with 0.0005%R.
    simpl rev. simpl streak.
    rewrite loudFrame_speechLike, quietFrame_speechLike. reflexivity.
  - replay_frames. reflexivity.
Defined.

(** X28. In a run of frames that starts with both counters at zero,
    [speechEnd] is posted exactly by the sixth frame of a streak of
    frames that are not speech-like, provided the detector is speaking;
    the duration it reports is therefore always 0.18 seconds. *)
Theorem X28_speech_ends_at_sixth_silent_frame d before m duration :
  VoiceActivityDetector.speechCount d = 0%nat ->
  VoiceActivityDetector.silenceCount d = 0%nat ->
  let current := fst (VoiceActivityDetector.runFrames d before) in
  snd (VoiceActivityDetector.processFrame current m)
    = Some (VoiceActivityDetector.speechEnd duration)
  <->
  (streak (silentLike (VoiceActivityDetector.energyThreshold d))
          (m :: rev before) = 6%nat /\
   VoiceActivityDetector.isSpeaking current = true /\
   duration = 0.18%R).
Proof.
  intros Hsp Hsil. cbv zeta.
  destruct (hangover_invariant d before Hsp Hsil)
    as (Hthr & _ & Hq & _ & Hcap).
  set (dn := fst (VoiceActivityDetector.runFrames d before)) in *.
  rewrite processFrame_posted, Hthr. simpl streak. rewrite <- Hq.
  unfold silentLike at 1.
  destruct (speechLike (VoiceActivityDetector.energyThreshold d) m);
    simpl negb; cbv iota.
  - split; [|intros (H & _); discriminate].
    destruct (_ && _); discriminate.
  - unfold VoiceActivityDetector.silenceHangover,
      VoiceActivityDetector.frameDuration.
    destruct (VoiceActivityDetector.isSpeaking dn) eqn:Hspk.
    + rewrite andb_true_r. specialize (Hcap eq_refl).
      destruct (5 <? S (VoiceActivityDetector.silenceCount dn))%nat eqn:E.
      * apply Nat.ltb_lt in E.
        assert (VoiceActivityDetector.silenceCount dn = 5%nat) as E5
          by lia.
        rewrite E5. split.
        -- intros H. injection H as <-.
           split; [reflexivity|]. split; [reflexivity|]. simpl. lra.
        -- intros (_ & _ & ->). f_equal. f_equal. simpl. lra.
      * apply Nat.ltb_ge in E. split; [discriminate|].
        intros (H & _). lia.
    + rewrite andb_false_r. split; [discriminate|].
      intros (_ & H & _). discriminate.
Qed.

Lemma X28_speech_end_witness :
  snd (VoiceActivityDetector.processFrame
         (fst (VoiceActivityDetector.runFrames
                 VoiceActivityDetector.constructed
                 [loudFrame; loudFrame; loudFrame; quietFrame; quietFrame;
                  quietFrame; quietFrame; quietFrame]))
         quietFrame)
  = Some (VoiceActivityDetector.speechEnd 0.18).
Proof.
  apply (X28_speech_ends_at_sixth_silent_frame
           VoiceActivityDetector.constructed
           [loudFrame; loudFrame; loudFrame; quietFrame; quietFrame;
            quietFrame; quietFrame; quietFrame] quietFrame);
    [reflexivity | reflexivity |].
  split; [|split; [|reflexivity]].
  - change (VoiceActivityDetector.energyThreshold
              VoiceActivityDetector.constructed) with 0.0005%R.
    unfold silentLike. simpl rev. simpl streak.
    rewrite loudFrame_speechLike, quietFrame_speechLike. reflexivity.
  - replay_frames. reflexivity.
Defined.

(** ** The noise estimate *)

Lemma floored_first_estimate (noise spectrum : list R) :
  Forall (fun n => (VoiceActivityDetector.noiseFloor <= n)%R)
    (zip_with (fun _ x => Rmax x VoiceActivityDetector.noiseFloor)
              noise spectrum).
Proof.
  revert spectrum. induction noise as [|n noise IH];
    intros [|x spectrum]; simpl; constructor; [|apply IH].
  apply Rmax_r.
Qed.

Lemma floored_smoothed_estimate (noise spectrum : list R) :
  Forall (fun n => (VoiceActivityDetector.noiseFloor <= n)%R) noise ->
  Forall (fun n => (VoiceActivityDetector.noiseFloor <= n)%R)
    (zip_with (fun n x =>
                 ((1 - VoiceActivityDetector.noiseUpdateRate) * n
                  + VoiceActivityDetector.noiseUpdateRate
                    * Rmax x VoiceActivityDetector.noiseFloor)%R)
              noise spectrum).
Proof.
  intros H. revert spectrum. induction H as [|n noise Hn _ IH];
    intros [|x spectrum]; simpl; constructor; [|apply IH].
  pose proof (Rmax_r x VoiceActivityDetector.noiseFloor).
  unfold VoiceActivityDetector.noiseUpdateRate in *. lra.
Qed.

Lemma updateNoiseEstimate_floor d spectrum :
  (length (VoiceActivityDetector.noiseEstimate d) <= length spectrum)%nat ->
  (VoiceActivityDetector.noiseInitialized d = true ->
   Forall (fun n => (VoiceActivityDetector.noiseFloor <= n)%R)
     (VoiceActivityDetector.noiseEstimate d)) ->
  let d' := VoiceActivityDetector.updateNoiseEstimate d spectrum in
  VoiceActivityDetector.noiseInitialized d' = true /\
  Forall (fun n => (VoiceActivityDetector.noiseFloor <= n)%R)
    (VoiceActivityDetector.noiseEstimate d') /\
  length (VoiceActivityDetector.noiseEstimate d')
    = length (VoiceActivityDetector.noiseEstimate d).
Proof.
  intros Hlen Hfloor. cbv zeta.
  unfold VoiceActivityDetector.updateNoiseEstimate. simpl.
  rewrite (drop_ge _ _ Hlen), !app_nil_r.
  split; [reflexivity|].
  destruct (VoiceActivityDetector.noiseInitialized d).
  - split; [apply floored_smoothed_estimate; auto|].
    rewrite length_zip_with. lia.
  - split; [apply floored_first_estimate|].
    rewrite length_zip_with. lia.
Qed.

Lemma processFrame_noise d m :
  let refreshed :=
    if negb (VoiceActivityDetector.isSpeaking d)
       || negb (VoiceActivityDetector.noiseInitialized d)
    then VoiceActivityDetector.updateNoiseEstimate d
           (VoiceActivityDetector.fftOutput m)
    else d in
  VoiceActivityDetector.noiseEstimate
    (fst (VoiceActivityDetector.processFrame d m))
  = VoiceActivityDetector.noiseEstimate refreshed /\
  VoiceActivityDetector.noiseInitialized
    (fst (VoiceActivityDetector.processFrame d m))
  = VoiceActivityDetector.noiseInitialized refreshed.
Proof.
  cbv zeta. unfold VoiceActivityDetector.processFrame.
  destruct (negb (VoiceActivityDetector.isSpeaking d)
            || negb (VoiceActivityDetector.noiseInitialized d));
    destruct (Rgtb _ _); destruct (_ && _); split; reflexivity.
Qed.

Lemma processFrame_floor d m :
  (length (VoiceActivityDetector.noiseEstimate d)
   <= length (VoiceActivityDetector.fftOutput m))%nat ->
  (VoiceActivityDetector.noiseInitialized d = true ->
   Forall (fun n => (VoiceActivityDetector.noiseFloor <= n)%R)
     (VoiceActivityDetector.noiseEstimate d)) ->
  let d' := fst (VoiceActivityDetector.processFrame d m) in
  VoiceActivityDetector.noiseInitialized d' = true /\
  Forall (fun n => (VoiceActivityDetector.noiseFloor <= n)%R)
    (VoiceActivityDetector.noiseEstimate d') /\
  length (VoiceActivityDetector.noiseEstimate d')
    = length (VoiceActivityDetector.noiseEstimate d).
Proof.
  intros Hlen Hfloor. cbv zeta.
  destruct (processFrame_noise d m) as [-> ->].
  destruct (VoiceActivityDetector.noiseInitialized d) eqn:Hinit.
  - destruct (negb (VoiceActivityDetector.isSpeaking d)); simpl.
    + apply updateNoiseEstimate_floor; [exact Hlen|].
      intros _. apply Hfloor. reflexivity.
    + rewrite Hinit. auto.
  - rewrite orb_true_r.
    apply updateNoiseEstimate_floor; [exact Hlen|].
    rewrite Hinit. discriminate.
Qed.

(** X29. Whenever every spectrum covers the whole noise estimate (in the
    program both have fftSize / 2 entries), after the first frame the
    estimate is initialised and none of its entries is below the noise
    floor 0.001, for the rest of the run; its length never changes. *)
Theorem X29_noise_estimate_stays_above_floor d frames :
  frames <> [] ->
  (VoiceActivityDetector.noiseInitialized d = true ->
   Forall (fun n => (VoiceActivityDetector.noiseFloor <= n)%R)
     (VoiceActivityDetector.noiseEstimate d)) ->
  Forall (fun m =>
            (length (VoiceActivityDetector.noiseEstimate d)
             <= length (VoiceActivityDetector.fftOutput m))%nat) frames ->
  let d' := fst (VoiceActivityDetector.runFrames d frames) in
  VoiceActivityDetector.noiseInitialized d' = true /\
  Forall (fun n => (VoiceActivityDetector.noiseFloor <= n)%R)
    (VoiceActivityDetector.noiseEstimate d') /\
  length (VoiceActivityDetector.noiseEstimate d')
    = length (VoiceActivityDetector.noiseEstimate d).
Proof.
  intros Hne Hfloor Hlen. cbv zeta.
  induction frames as [|m frames IH] using rev_ind; [congruence|].
  clear Hne. apply Forall_app in Hlen as [Hlen Hm].
  apply Forall_cons in Hm as [Hm _].
  rewrite vad_runFrames_snoc.
  destruct frames as [|m0 frames'].
  - simpl VoiceActivityDetector.runFrames. cbn [fst].
    apply processFrame_floor; assumption.
  - destruct IH as (Hinit & Hall & Hsame); [discriminate | exact Hlen |].
    set (dn := fst (VoiceActivityDetector.runFrames d (m0 :: frames')))
      in *.
    destruct (processFrame_floor dn m) as (H1 & H2 & H3).
    + rewrite Hsame. exact Hm.
    + intros _. exact Hall.
    + split; [exact H1|]. split; [exact H2|]. congruence.
Qed.

Lemma X29_noise_estimate_witness :
  let d' := fst (VoiceActivityDetector.runFrames
                   VoiceActivityDetector.constructed
                   [quietFrame; loudFrame]) in
  VoiceActivityDetector.noiseInitialized d' = true /\
  Forall (fun n => (VoiceActivityDetector.noiseFloor <= n)%R)
    (VoiceActivityDetector.noiseEstimate d') /\
  length (VoiceActivityDetector.noiseEstimate d')
    = length (VoiceActivityDetector.noiseEstimate
                VoiceActivityDetector.constructed).
Proof.
  apply (X29_noise_estimate_stays_above_floor
           VoiceActivityDetector.constructed [quietFrame; loudFrame]).
  - discriminate.
  - simpl. discriminate.
  - repeat constructor; vm_compute; lia.
Defined.

(** ** Utterances *)

Lemma processFrame_balance d m :
  ((if isStart (snd (VoiceActivityDetector.processFrame d m))
    then 1 else 0) + openUtterances d
   = (if isEnd (snd (VoiceActivityDetector.processFrame d m))
      then 1 else 0)
     + openUtterances (fst (VoiceActivityDetector.processFrame d m)))%nat.
Proof.
  unfold openUtterances.
  rewrite processFrame_posted, processFrame_isSpeaking.
  destruct (speechLike _ m);
    destruct (VoiceActivityDetector.isSpeaking d);
    try destruct (2 <? S (VoiceActivityDetector.speechCount d))%nat;
    try destruct (VoiceActivityDetector.silenceHangover
                  <? S (VoiceActivityDetector.silenceCount d))%nat;
    reflexivity.
Qed.

(** X30. Starts and ends of speech are posted in alternation: over any
    run of frames, from any state, the number of [speechStart] messages
    plus one if the detector was speaking at the beginning equals the
    number of [speechEnd] messages plus one if it is speaking at the
    end. *)
Theorem X30_speech_starts_and_ends_balance d frames :
  let '(d', posted) := VoiceActivityDetector.runFrames d frames in
  (length (List.filter isStart posted) + openUtterances d
   = length (List.filter isEnd posted) + openUtterances d')%nat.
Proof.
  revert d. induction frames as [|m frames IH]; intros d; simpl.
  - reflexivity.
  - pose proof (processFrame_balance d m) as Hstep.
    destruct (VoiceActivityDetector.processFrame d m) as [d1 p].
    specialize (IH d1).
    destruct (VoiceActivityDetector.runFrames d1 frames) as [d2 later].
    simpl in Hstep |- *.
    destruct (isStart p); destruct (isEnd p); simpl; lia.
Qed.
